(** * vapi_analyze.py: the bounded-concurrency transcript annotation pipeline

    A shallow embedding of [src/vapi_analyze.py]:
    - Python values as decoded from JSON, dictionaries as insertion-ordered
      association lists, strings as sequences of code points;
    - the string methods the response clean-up uses ([strip], [startswith],
      [endswith], [replace(_, _, 1)], [rsplit(_, 1)], slicing);
    - [analyze_single_transcript] as a per-task state machine over a shared
      store of record objects and a counting semaphore;
    - [analyze_all_calls] as the interleaving of those tasks under an
      arbitrary schedule, collected in task order as [asyncio.gather] does;
    - the write-out and tally at the end of [main];
    and of the functions around it: [extract_calls] of
    [src/vapi_extract.py], which writes the analyzer's input;
    [load_vapi_data] and [get_duration_from_call] of
    [src/vapi_resolution.py], which read the analyzer's output; and
    [extract_dimensions_from_call] of [src/vapi_heatmap.py], which reads
    what [load_vapi_data] returns. *)

From Stdlib Require Import ZArith String Ascii.
From Stdlib Require Import Floats.SpecFloat.
From stdpp Require Import base option list.

Local Open Scope Z_scope.
Local Open Scope list_scope.
Local Set Warnings "-register-all".

(** ** Python values *)

(** A Python [str] is a sequence of Unicode code points. *)
Abbreviation pystr := (list N).

(** ASCII literal to [str]. *)
Definition str (s : string) : pystr :=
  map N_of_ascii (list_ascii_of_string s).

(** The values [json.load] produces, which are also the values the program
    stores: [None], [bool], [int], [float], [str], [list], [dict]. A [dict] keeps
    insertion order. *)
Inductive pyval : Type :=
  | PNone
  | PBool (b : bool)
  | PInt (z : Z)
  | PFloat (f : spec_float)
  | PStr (s : pystr)
  | PList (l : list pyval)
  | PDict (d : list (pystr * pyval)).

Abbreviation pydict := (list (pystr * pyval)).

(** [bool(v)]: Python truthiness. *)
Definition truthy (v : pyval) : bool :=
  match v with
  | PNone => false
  | PBool b => b
  | PInt z => negb (z =? 0)
  | PFloat (S754_zero _) => false
  | PFloat _ => true
  | PStr s => negb (bool_decide (s = []))
  | PList l => match l with [] => false | _ => true end
  | PDict d => match d with [] => false | _ => true end
  end.

(** [isinstance(v, dict)] *)
Definition is_dict (v : pyval) : bool :=
  match v with PDict _ => true | _ => false end.

(** [type(v).__name__], as it appears in an [AttributeError] message. *)
Definition type_name (v : pyval) : pystr :=
  match v with
  | PNone => str "NoneType"
  | PBool _ => str "bool"
  | PInt _ => str "int"
  | PFloat _ => str "float"
  | PStr _ => str "str"
  | PList _ => str "list"
  | PDict _ => str "dict"
  end.

(** ** Dictionaries *)

(** [d.get(k)]: [None] (here Rocq's [None]) when the key is absent. *)
Fixpoint dict_get (k : pystr) (d : pydict) : option pyval :=
  match d with
  | [] => None
  | (k', v) :: d' => if bool_decide (k' = k) then Some v else dict_get k d'
  end.

(** [k in d] *)
Definition dict_has (k : pystr) (d : pydict) : bool :=
  match dict_get k d with Some _ => true | None => false end.

(** [d[k] = v]: an existing key keeps its position, a new key goes last. *)
Fixpoint dict_set (k : pystr) (v : pyval) (d : pydict) : pydict :=
  match d with
  | [] => [(k, v)]
  | (k', v') :: d' =>
      if bool_decide (k' = k) then (k', v) :: d' else (k', v') :: dict_set k v d'
  end.

(** The entries of [d] under keys other than [k], in order. *)
Definition dict_without (k : pystr) (d : pydict) : pydict :=
  filter (fun kv => kv.1 <> k) d.

(** [d.get(k)] as a Python value: an absent key reads as [None]. *)
Definition dict_get_py (k : pystr) (d : pydict) : pyval :=
  default PNone (dict_get k d).

(** [d.get(k, dflt)] *)
Definition dict_get_default (k : pystr) (dflt : pyval) (d : pydict) : pyval :=
  default dflt (dict_get k d).

(** ** String methods *)

(** [c.isspace()] for one code point: the Unicode white space characters. *)
Definition py_isspace (c : N) : bool :=
  ((9 <=? c) && (c <=? 13) || (28 <=? c) && (c <=? 32)
   || (c =? 133) || (c =? 160) || (c =? 5760)
   || (8192 <=? c) && (c <=? 8202)
   || (c =? 8232) || (c =? 8233) || (c =? 8239) || (c =? 8287)
   || (c =? 12288))%N.

Fixpoint lstrip (s : pystr) : pystr :=
  match s with
  | c :: s' => if py_isspace c then lstrip s' else s
  | [] => []
  end.

Definition rstrip (s : pystr) : pystr := reverse (lstrip (reverse s)).

(** [s.strip()] *)
Definition strip (s : pystr) : pystr := rstrip (lstrip s).

(** [ws] consists of white space. *)
Definition all_space (ws : pystr) : Prop :=
  Forall (fun c => py_isspace c = true) ws.

(** [s.startswith(p)] *)
Fixpoint startswith (p s : pystr) : bool :=
  match p, s with
  | [], _ => true
  | _ :: _, [] => false
  | a :: p', b :: s' => (a =? b)%N && startswith p' s'
  end.

(** [s.endswith(p)] *)
Definition endswith (p s : pystr) : bool :=
  startswith (reverse p) (reverse s).

(** [s.find(sub)]: index of the first occurrence. *)
Fixpoint find (sub s : pystr) : option nat :=
  if startswith sub s then Some 0%nat
  else match s with
       | [] => None
       | _ :: s' => S <$> find sub s'
       end.

(** [s.rfind(sub)]: index of the last occurrence. *)
Definition rfind (sub s : pystr) : option nat :=
  (fun j => (length s - length sub - j)%nat) <$> find (reverse sub) (reverse s).

(** [s.replace(old, new, 1)]: only the first occurrence is replaced. *)
Definition replace_first (old new s : pystr) : pystr :=
  match find old s with
  | Some i => take i s ++ new ++ drop (i + length old) s
  | None => s
  end.

(** [s.rsplit(sep, 1)]: split once, at the last occurrence of [sep]. The
    first component is element [0] of the resulting list, the second is
    element [1] when there is one. *)
Definition rsplit1 (sep s : pystr) : pystr * option pystr :=
  match rfind sep s with
  | Some i => (take i s, Some (drop (i + length sep) s))
  | None => (s, None)
  end.

(** [s[:n]] *)
Definition slice_to (n : nat) (s : pystr) : pystr := take n s.

(** [str(n)] for a non-negative index, used by [f'index_{index}']. *)
Definition digit_char (d : nat) : N := (48 + N.of_nat d)%N.

Fixpoint str_of_nat_aux (fuel n : nat) (acc : pystr) : pystr :=
  match fuel with
  | O => acc
  | S fuel' =>
      let acc' := digit_char (n mod 10) :: acc in
      if (n / 10 =? 0)%nat then acc' else str_of_nat_aux fuel' (n / 10) acc'
  end.

Definition str_of_nat (n : nat) : pystr := str_of_nat_aux (S n) n [].

(** The line feed, which an ASCII literal cannot escape. *)
Definition NL : pystr := [10%N].

(** ** Exceptions, the client and the decoder *)

(** A computation that returns or raises an [Exception] whose [str(e)] is
    [msg]. *)
Inductive exc (A : Type) : Type :=
  | Returns (a : A)
  | Raises (msg : pystr).
Arguments Returns {A} a.
Arguments Raises {A} msg.

(** What [client.models.generate_content(...)] does for one request: it
    raises, or returns a response whose [.text] is a string or [None]. *)
Definition client_result := exc (option pystr).

(** The annotation client: the result may depend on which task asks and on
    the request contents. *)
Definition client_fn := nat -> pystr -> client_result.

(** What [json.loads(s)] does: a value, a [json.JSONDecodeError] with its
    message, or some other exception (such as a [RecursionError]). *)
Inductive loads_result : Type :=
  | Decoded (v : pyval)
  | JSONDecodeError (diag : pystr)
  | LoadsRaises (msg : pystr).

Definition decoder := pystr -> loads_result.

(** What the program prints and asks of the client, in order. *)
Inductive event : Type :=
  | PrintSkipping (index : nat) (call_id : pyval)
  | PrintAnalyzing (index : nat) (call_id : pyval)
  | GenerateContent (index : nat) (model contents : pystr)
  | PrintDone (index : nat) (call_id : pyval)
  | PrintParseError (index : nat) (call_id : pyval) (diag : pystr)
  | PrintErrorAnalyzing (index : nat) (call_id : pyval) (msg : pystr)
  | PrintNotInstalled.

(** ** [analyze_single_transcript], between its suspension points *)

Definition K_transcript : pystr := str "transcript".
Definition K_id : pystr := str "id".
Definition K_llm_analysis : pystr := str "llm_analysis".
Definition K_error : pystr := str "error".
Definition K_raw : pystr := str "raw".
Definition FENCE_JSON : pystr := str "```json".
Definition FENCE : pystr := str "```".
Definition INVALID_JSON : pystr := str "Invalid JSON response".

(** [str(e)] of the [AttributeError] that [v.strip()] raises when [v] is not
    a string. *)
Definition no_strip_attribute (v : pyval) : pystr :=
  str "'" ++ type_name v ++ str "' object has no attribute 'strip'".

(** Lines 53-60: what the body does once inside [async with semaphore]. *)
Inductive entry : Type :=
  | EntrySkip (call_id : pyval)
  | EntryAttributeError (msg : pystr)
  | EntryCall (call_id : pyval) (transcript : pystr).

Definition enter (index : nat) (call_data : pydict) : entry :=
  let transcript := dict_get_py K_transcript call_data in
  let call_id :=
    dict_get_default K_id (PStr (str "index_" ++ str_of_nat index)) call_data in
  if negb (truthy transcript) then EntrySkip call_id
  else match transcript with
       | PStr s =>
           if negb (truthy (PStr (strip s))) then EntrySkip call_id
           else EntryCall call_id s
       | v => EntryAttributeError (no_strip_attribute v)
       end.

(** Lines 89-96: the clean-up of the response text before decoding. *)
Definition clean_response (text : pystr) : pystr :=
  let analysis_json := strip text in
  let analysis_json :=
    if startswith FENCE_JSON analysis_json
    then replace_first FENCE_JSON [] analysis_json
    else analysis_json in
  let analysis_json :=
    if endswith FENCE analysis_json
    then (rsplit1 FENCE analysis_json).1
    else analysis_json in
  strip analysis_json.

Section Task.
Variable loads : decoder.

(** Lines 62-105: the [try] block from the point where the executor call
    has finished. It yields the value stored under ['llm_analysis'] and the
    line printed, or lets an exception through to line 107. *)
Definition try_block (index : nat) (call_id : pyval) (r : client_result)
  : exc (pyval * event) :=
  match r with
  | Raises msg => Raises msg
  | Returns None => Raises (no_strip_attribute PNone)
  | Returns (Some text) =>
      let analysis_json := clean_response text in
      match loads analysis_json with
      | Decoded llm_result => Returns (llm_result, PrintDone index call_id)
      | JSONDecodeError e =>
          Returns (PDict [(K_error, PStr INVALID_JSON);
                          (K_raw, PStr (slice_to 500 analysis_json))],
                   PrintParseError index call_id e)
      | LoadsRaises msg => Raises msg
      end
  end.

(** Lines 62-109: [try ... except Exception as e]. *)
Definition annotate (index : nat) (call_id : pyval) (r : client_result)
  : pyval * event :=
  match try_block index call_id r with
  | Returns ve => ve
  | Raises msg =>
      (PDict [(K_error, PStr msg)], PrintErrorAnalyzing index call_id msg)
  end.
End Task.

(** ** [analyze_all_calls]: the tasks, the semaphore and the shared records *)

(** Where one [analyze_single_transcript] coroutine stands. Under [asyncio] a
    task that finds a slot free runs on into the body without giving way;
    here taking the slot and running the body are two moves, so that the
    schedules cover those of a preemptive executor as well. *)
Inductive task_state : Type :=
  | Waiting                       (* at [async with semaphore], no slot yet *)
  | Holding                       (* slot acquired, body not yet run *)
  | InFlight (call_id : pyval) (transcript : pystr)
                                  (* at [await loop.run_in_executor(...)] *)
  | Returned                      (* [return call_data], slot released *)
  | Failed (msg : pystr).         (* an exception left the coroutine *)

(** The record objects live in [heap]; a record is referred to by its
    address, so that two entries of [calls] may be the same object. [sem] is
    the semaphore's counter; [failure] is the first exception that left a
    task, which [asyncio.gather] passes on to its caller. *)
Record state : Type := State {
  heap : list pydict;
  sem : Z;
  tasks : list task_state;
  trace : list event;
  failure : option pystr
}.

Definition is_returned (t : task_state) : bool :=
  match t with Returned => true | _ => false end.

Definition is_in_flight (t : task_state) : bool :=
  match t with InFlight _ _ => true | _ => false end.

(** A task occupies a slot from [__aenter__] to [__aexit__]. *)
Definition holds_slot (t : task_state) : bool :=
  match t with Holding | InFlight _ _ => true | _ => false end.

Definition in_flight (st : state) : nat :=
  length (filter (fun t => is_in_flight t = true) (tasks st)).

Definition slots_held (st : state) : nat :=
  length (filter (fun t => holds_slot t = true) (tasks st)).

(** The [generate_content] requests made so far on behalf of task [i]. *)
Definition is_request_of (i : nat) (e : event) : bool :=
  match e with GenerateContent j _ _ => bool_decide (j = i) | _ => false end.

Definition requests_of (i : nat) (tr : list event) : nat :=
  length (filter (fun e => is_request_of i e = true) tr).

Section Batch.
Variable loads : decoder.
Variable client : client_fn.
Variables prompt model : pystr.
(** [calls]: the addresses of the records, in input order. *)
Variable calls : list nat.

(** The state once the tasks are created (lines 131-137). *)
Definition init_state (h : list pydict) (concurrency : Z) : state :=
  State h concurrency (replicate (length calls) Waiting) [] None.

(** Lines 38-111, one resumption at a time: the coroutine of task [i] runs
    from where it stands to its next suspension point ([async with],
    [await]) or to its end. The record [call_data] is entry [i] of [calls];
    the client, the prompt and the model are those of the batch; the
    semaphore is in the state. [None] when the task cannot move: it has
    finished, it waits for a slot, or the batch has already failed. *)
Definition analyze_single_transcript (i : nat) (st : state) : option state :=
  match failure st with
  | Some _ => None
  | None =>
      r ← calls !! i;
      t ← tasks st !! i;
      call_data ← heap st !! r;
      match t with
      | Waiting =>
          if 0 <? sem st
          then Some (State (heap st) (sem st - 1) (<[i := Holding]> (tasks st))
                           (trace st) None)
          else None
      | Holding =>
          match enter i call_data with
          | EntrySkip call_id =>
              Some (State (<[r := dict_set K_llm_analysis PNone call_data]> (heap st))
                          (sem st + 1) (<[i := Returned]> (tasks st))
                          (trace st ++ [PrintSkipping i call_id]) None)
          | EntryAttributeError msg =>
              Some (State (heap st) (sem st + 1) (<[i := Failed msg]> (tasks st))
                          (trace st) (Some msg))
          | EntryCall call_id transcript =>
              Some (State (heap st) (sem st)
                          (<[i := InFlight call_id transcript]> (tasks st))
                          (trace st ++ [PrintAnalyzing i call_id;
                                        GenerateContent i model (prompt ++ transcript)])
                          None)
          end
      | InFlight call_id transcript =>
          let '(v, line) :=
            annotate loads i call_id (client i (prompt ++ transcript)) in
          Some (State (<[r := dict_set K_llm_analysis v call_data]> (heap st))
                      (sem st + 1) (<[i := Returned]> (tasks st))
                      (trace st ++ [line]) None)
      | Returned | Failed _ => None
      end
  end.

(** A schedule names the task to move at each turn; naming a task that
    cannot move leaves the state as it is. *)
Fixpoint run (schedule : list nat) (st : state) : state :=
  match schedule with
  | [] => st
  | i :: rest => run rest (default st (analyze_single_transcript i st))
  end.

(** What [await asyncio.gather] of the tasks gives once it is over: the first
    exception, or the tasks' return values in task order, each being the
    [call_data] object the task was given. [None] while tasks remain. *)
Definition gather (st : state) : option (exc (list nat)) :=
  match failure st with
  | Some msg => Some (Raises msg)
  | None =>
      if forallb is_returned (tasks st) then Some (Returns calls) else None
  end.
End Batch.

Section Transitions.
Variable loads : decoder.
Variable client : client_fn.
Variables prompt model : pystr.
Variable calls : list nat.

(** The five moves of [analyze_single_transcript], one constructor each. *)
Inductive transition (i : nat) (st : state) : state -> Prop :=
  | t_acquire r d :
      failure st = None -> calls !! i = Some r ->
      tasks st !! i = Some Waiting -> heap st !! r = Some d ->
      0 < sem st ->
      transition i st
        (State (heap st) (sem st - 1) (<[i := Holding]> (tasks st)) (trace st) None)
  | t_skip r d call_id :
      failure st = None -> calls !! i = Some r ->
      tasks st !! i = Some Holding -> heap st !! r = Some d ->
      enter i d = EntrySkip call_id ->
      transition i st
        (State (<[r := dict_set K_llm_analysis PNone d]> (heap st)) (sem st + 1)
               (<[i := Returned]> (tasks st))
               (trace st ++ [PrintSkipping i call_id]) None)
  | t_attribute_error r d msg :
      failure st = None -> calls !! i = Some r ->
      tasks st !! i = Some Holding -> heap st !! r = Some d ->
      enter i d = EntryAttributeError msg ->
      transition i st
        (State (heap st) (sem st + 1) (<[i := Failed msg]> (tasks st))
               (trace st) (Some msg))
  | t_request r d call_id transcript :
      failure st = None -> calls !! i = Some r ->
      tasks st !! i = Some Holding -> heap st !! r = Some d ->
      enter i d = EntryCall call_id transcript ->
      transition i st
        (State (heap st) (sem st) (<[i := InFlight call_id transcript]> (tasks st))
               (trace st ++ [PrintAnalyzing i call_id;
                             GenerateContent i model (prompt ++ transcript)]) None)
  | t_response r d call_id transcript :
      failure st = None -> calls !! i = Some r ->
      tasks st !! i = Some (InFlight call_id transcript) -> heap st !! r = Some d ->
      transition i st
        (State (<[r := dict_set K_llm_analysis
                     (annotate loads i call_id (client i (prompt ++ transcript))).1 d]>
                  (heap st))
               (sem st + 1) (<[i := Returned]> (tasks st))
               (trace st
                ++ [(annotate loads i call_id (client i (prompt ++ transcript))).2])
               None).
End Transitions.

(** Every task in turn, [rounds] times over: the order in which an event
    loop serves tasks that are all ready. *)
Definition round_robin (n rounds : nat) : list nat :=
  concat (replicate rounds (seq 0 n)).

(** Modelled from the spec: [utils.get_api_key] is imported at line 18 but is
    not among the sources. The spec names missing credentials as a condition
    that aborts the whole run before any task is dispatched; accordingly,
    looking up a key that is not configured raises, and a configured key is
    returned. *)
Definition get_api_key (configured : option pystr) : exc pystr :=
  match configured with
  | Some key => Returns key
  | None => Raises (str "API key not configured")
  end.

(** [asyncio.Semaphore(value)] refuses a negative [value]. *)
Definition SEMAPHORE_VALUE_ERROR : pystr :=
  str "Semaphore initial value must be >= 0".

(** What [asyncio.run(analyze_all_calls(...))] comes to under a schedule. *)
Inductive batch_result : Type :=
  | BatchReturns (results : list nat) (h : list pydict) (tr : list event)
  | BatchRaises (msg : pystr) (h : list pydict) (tr : list event)
  | BatchPending (st : state).

(** Lines 114-141. [genai_installed] says whether [from google import genai]
    succeeds, [configured_key] is the credential the environment holds. *)
Definition analyze_all_calls
    (genai_installed : bool) (configured_key : option pystr)
    (loads : decoder) (client : client_fn)
    (h : list pydict) (calls : list nat) (prompt model : pystr) (concurrency : Z)
    (schedule : list nat) : batch_result :=
  if negb genai_installed then BatchReturns calls h [PrintNotInstalled]
  else
    match get_api_key configured_key with
    | Raises msg => BatchRaises msg h []
    | Returns _ =>
        if concurrency <? 0 then BatchRaises SEMAPHORE_VALUE_ERROR h []
        else
          let st := run loads client prompt model calls schedule
                        (init_state calls h concurrency) in
          match gather calls st with
          | Some (Returns results) => BatchReturns results (heap st) (trace st)
          | Some (Raises msg) => BatchRaises msg (heap st) (trace st)
          | None => BatchPending st
          end
    end.

(** ** [main]: loading, writing out and tallying *)

(** [json.load] makes one fresh object per record: record [i] is stored at
    address [i]. *)
Definition load_calls (records : list pydict) : list pydict * list nat :=
  (records, seq 0 (length records)).

(** The object at address [r]. *)
Definition deref (h : list pydict) (r : nat) : pydict := default [] (h !! r).

(** ['error' in v] for a dictionary [v]; the program evaluates it only
    behind [isinstance(v, dict)]. *)
Definition error_in (v : pyval) : bool :=
  match v with PDict d => dict_has K_error d | _ => false end.

(** The three conditions of lines 201-203. *)
Definition counts_as_success (c : pydict) : bool :=
  truthy (dict_get_py K_llm_analysis c)
    && negb (is_dict (dict_get_py K_llm_analysis c))
  || is_dict (dict_get_py K_llm_analysis c)
     && negb (error_in (dict_get_default K_llm_analysis (PDict []) c)).

Definition counts_as_skipped (c : pydict) : bool :=
  match dict_get_py K_llm_analysis c with PNone => true | _ => false end.

Definition counts_as_error (c : pydict) : bool :=
  is_dict (dict_get_py K_llm_analysis c)
  && error_in (dict_get_default K_llm_analysis (PDict []) c).

(** [sum(1 for c in cs if cond(c))] *)
Definition tally (cond : pydict -> bool) (cs : list pydict) : nat :=
  length (filter (fun c => cond c = true) cs).

(** The numbers printed at lines 206-209. *)
Record summary : Type := Summary {
  total : nat;
  success : nat;
  skipped : nat;
  errors : nat
}.

Definition summarize (analyzed_calls : list pydict) : summary :=
  Summary (length analyzed_calls)
          (tally counts_as_success analyzed_calls)
          (tally counts_as_skipped analyzed_calls)
          (tally counts_as_error analyzed_calls).

(** What [main] sees of the outside world. *)
Record environment : Type := Environment {
  input_file : option (list pydict);   (* the decoded input, if the file exists *)
  prompt_file : option pystr;          (* the prompt text, if the file exists *)
  genai_installed : bool;
  configured_key : option pystr;
  arg_model : pystr;
  arg_concurrent : Z
}.

(** How a run of [main] ends. Only [MainCompleted] writes the output file. *)
Inductive main_outcome : Type :=
  | MainInputNotFound
  | MainPromptNotFound
  | MainCrashed (msg : pystr) (tr : list event)
  | MainPending
  | MainCompleted (written : list pydict) (tr : list event) (s : summary).

(** Lines 160-210. *)
Definition main (env : environment) (loads : decoder) (client : client_fn)
    (schedule : list nat) : main_outcome :=
  match input_file env with
  | None => MainInputNotFound
  | Some records =>
      let '(h, calls) := load_calls records in
      match prompt_file env with
      | None => MainPromptNotFound
      | Some prompt =>
          match analyze_all_calls (genai_installed env) (configured_key env)
                  loads client h calls prompt (arg_model env)
                  (arg_concurrent env) schedule with
          | BatchRaises msg _ tr => MainCrashed msg tr
          | BatchPending _ => MainPending
          | BatchReturns results h' tr =>
              let analyzed_calls := map (deref h') results in
              MainCompleted analyzed_calls tr (summarize analyzed_calls)
          end
      end
  end.

(** ** What a run is expected to leave behind *)

Definition is_failed (t : task_state) : bool :=
  match t with Failed _ => true | _ => false end.

(** How many moves a task still has to make. *)
Definition weight (t : task_state) : nat :=
  match t with
  | Waiting => 3
  | Holding => 2
  | InFlight _ _ => 1
  | Returned | Failed _ => 0
  end.

Fixpoint total_weight (l : list task_state) : nat :=
  match l with
  | [] => 0
  | t :: l' => weight t + total_weight l'
  end.

Definition remaining (st : state) : nat := total_weight (tasks st).

(** The record's transcript is absent, [None] or a string: the record type
    of the input file that [vapi_extract.py] writes. *)
Definition transcript_is_text (d : pydict) : bool :=
  match dict_get_py K_transcript d with
  | PNone | PStr _ => true
  | _ => false
  end.

(** The record's transcript is absent, [None], or empty once trimmed. *)
Definition transcript_blank (d : pydict) : bool :=
  match dict_get_py K_transcript d with
  | PNone => true
  | PStr s => bool_decide (strip s = [])
  | _ => false
  end.

(** The record is one the task skips: lines 57-60 apply. *)
Definition is_skipped_record (i : nat) (d : pydict) : bool :=
  match enter i d with EntrySkip _ => true | _ => false end.

Section Expected.
Variable loads : decoder.
Variable client : client_fn.
Variable prompt : pystr.

(** The value task [i] stores under ['llm_analysis'] for the record [d0]. *)
Definition expected_annotation (i : nat) (d0 : pydict) : pyval :=
  match enter i d0 with
  | EntrySkip _ => PNone
  | EntryCall call_id transcript =>
      (annotate loads i call_id (client i (prompt ++ transcript))).1
  | EntryAttributeError _ => PNone
  end.

(** The record [d0] as task [i] returns it. *)
Definition analyzed (i : nat) (d0 : pydict) : pydict :=
  dict_set K_llm_analysis (expected_annotation i d0) d0.

(** What a task in state [t] has asked of the client so far. *)
Definition task_inv (i : nat) (d0 : pydict) (t : task_state) (tr : list event) : Prop :=
  match t with
  | Waiting | Holding => requests_of i tr = 0%nat
  | InFlight call_id transcript =>
      enter i d0 = EntryCall call_id transcript /\ requests_of i tr = 1%nat
  | Returned =>
      match enter i d0 with
      | EntrySkip _ => requests_of i tr = 0%nat
      | EntryCall _ _ => requests_of i tr = 1%nat
      | EntryAttributeError _ => False
      end
  | Failed msg =>
      enter i d0 = EntryAttributeError msg /\ requests_of i tr = 0%nat
  end.

Variable calls : list nat.
Variable h0 : list pydict.
Variable K : Z.

(** What holds of every state a schedule can reach from the initial one,
    whether or not two entries of [calls] are the same object. *)
Record invariant (st : state) : Prop := Invariant {
  inv_tasks : length (tasks st) = length calls;
  inv_frame :
    map (dict_without K_llm_analysis) (heap st)
    = map (dict_without K_llm_analysis) h0;
  inv_sem : sem st + Z.of_nat (slots_held st) = K;
  inv_sem_nonneg : 0 <= sem st;
  inv_failed :
    failure st = None -> Forall (fun t => is_failed t = false) (tasks st);
  inv_task :
    forall i r t d0,
      calls !! i = Some r -> tasks st !! i = Some t -> h0 !! r = Some d0 ->
      task_inv i d0 t (trace st)
}.

(** What the records hold when no two entries of [calls] are the same
    object: a record is as it was until its task returns, and carries the
    task's annotation from then on. *)
Definition content_inv (st : state) : Prop :=
  (forall i r t d0,
     calls !! i = Some r -> tasks st !! i = Some t -> h0 !! r = Some d0 ->
     heap st !! r = Some (if is_returned t then analyzed i d0 else d0))
  /\ (forall r, r ∉ calls -> heap st !! r = h0 !! r).

(** Every entry of [calls] is the address of a record. *)
Definition valid_calls : Prop := Forall (fun r => (r < length h0)%nat) calls.

(** Every record has a transcript that is absent, [None] or a string. *)
Definition text_transcripts : Prop :=
  Forall (fun r => forall d0, h0 !! r = Some d0 -> transcript_is_text d0 = true) calls.
End Expected.

(** ** A decoder for concrete runs

    [json.loads] belongs to Python's library, not to this program: the
    program's functions above take the decoder as a parameter, and what is
    proved of them holds for every decoder. [json_loads] below follows the
    library's scanner (white space, literals, numbers, strings with their
    escapes, arrays, objects, the messages and positions of
    [JSONDecodeError]) so that the examples can be run on actual texts. The
    interpreter's recursion limit and its limit on the length of integer
    literals, the two ways [json.loads] raises something else than a
    [JSONDecodeError], are left out. *)

(** The part of [s] that comes before its suffix [r] is not empty, and its
    last character satisfies [P]. *)
Definition ends_with (P : N -> Prop) (s r : pystr) : Prop :=
  exists c, (c :: r) `suffix_of` s /\ P c.

(** The result of scanning a value: the value and the text after it, or a
    message and the number of characters remaining at the point of
    the error. *)
Inductive scan (A : Type) : Type :=
  | Scanned (a : A) (rest : pystr)
  | ScanError (msg : pystr) (remaining_len : nat).
Arguments Scanned {A} a rest.
Arguments ScanError {A} msg remaining_len.

Definition is_json_ws (c : N) : bool :=
  ((c =? 32) || (c =? 9) || (c =? 10) || (c =? 13))%N.

Fixpoint skip_ws (s : pystr) : pystr :=
  match s with
  | c :: s' => if is_json_ws c then skip_ws s' else s
  | [] => []
  end.

Definition is_digit (c : N) : bool := ((48 <=? c) && (c <=? 57))%N.

Fixpoint span_digits (s : pystr) : pystr * pystr :=
  match s with
  | c :: s' =>
      if is_digit c then let '(ds, rest) := span_digits s' in (c :: ds, rest)
      else ([], s)
  | [] => ([], [])
  end.

Definition Z_of_digits (ds : pystr) : Z :=
  foldl (fun acc c => 10 * acc + (Z.of_N c - 48)) 0 ds.

(** [float(literal)] for the decimal [m * 10^e]: the nearest binary64 number,
    ties to even. *)
Definition float_of_decimal (neg : bool) (m : Z) (digits : nat) (e : Z) : spec_float :=
  match m with
  | Zpos p =>
      if 400 <? e then S754_infinity neg
      else if e + Z.of_nat digits <? -400 then S754_zero neg
      else if 0 <=? e then
        binary_normalize 53 1024 (if neg then - (m * 10 ^ e) else m * 10 ^ e) 0 neg
      else
        match 10 ^ (- e) with
        | Zpos q => SFdiv 53 1024 (S754_finite neg p 0) (S754_finite false q 0)
        | _ => S754_nan
        end
  | _ => S754_zero neg
  end.

(** The four parts of a number: an optional minus sign, the integer part
    ([0], or digits not starting with [0]), an optional fraction (a point
    and at least one digit), an optional exponent ([e] or [E], an optional
    sign, at least one digit). Each gives what it read and the text after
    it; a part that is not there reads nothing. *)
Definition scan_sign (s : pystr) : bool * pystr :=
  match s with
  | c :: r => if (c =? 45)%N then (true, r) else (false, s)
  | [] => (false, s)
  end.

Definition scan_int (s : pystr) : option (pystr * pystr) :=
  match s with
  | c :: r =>
      if is_digit c
      then Some (if (c =? 48)%N then ([c], r) else span_digits s)
      else None
  | [] => None
  end.

Definition scan_frac (s : pystr) : pystr * pystr :=
  match s with
  | x :: r =>
      if (x =? 46)%N then
        match span_digits r with
        | ([], _) => ([], s)
        | (fd, rest) => (fd, rest)
        end
      else ([], s)
  | [] => ([], s)
  end.

Definition scan_exp (s : pystr) : option Z * pystr :=
  match s with
  | x :: r =>
      if ((x =? 101) || (x =? 69))%N then
        let '(eneg, rs) :=
          match r with
          | y :: r0 =>
              if (y =? 43)%N then (false, r0)
              else if (y =? 45)%N then (true, r0)
              else (false, r)
          | [] => (false, r)
          end in
        match span_digits rs with
        | ([], _) => (None, s)
        | (ed, rest) =>
            (Some (if eneg then - Z_of_digits ed else Z_of_digits ed), rest)
        end
      else (None, s)
  | [] => (None, s)
  end.

(** The number at the head of [s], if one starts there: an [int] when it
    has neither fraction nor exponent, a [float] otherwise. *)
Definition match_number (s : pystr) : option (pyval * pystr) :=
  let '(neg, s1) := scan_sign s in
  match scan_int s1 with
  | None => None
  | Some (int_digits, r1) =>
      let '(frac, r2) := scan_frac r1 in
      let '(exponent, r3) := scan_exp r2 in
      match frac, exponent with
      | [], None =>
          Some (PInt (if neg then - Z_of_digits int_digits
                      else Z_of_digits int_digits), r3)
      | _, _ =>
          Some (PFloat (float_of_decimal neg (Z_of_digits (int_digits ++ frac))
                          (length (int_digits ++ frac))
                          (default 0 exponent - Z.of_nat (length frac))), r3)
      end
  end.

Definition hex_value (c : N) : option N :=
  (if (48 <=? c) && (c <=? 57) then Some (c - 48)
   else if (97 <=? c) && (c <=? 102) then Some (c - 87)
   else if (65 <=? c) && (c <=? 70) then Some (c - 55)
   else None)%N.

Definition hex4 (a b c d : N) : option N :=
  a' ← hex_value a; b' ← hex_value b; c' ← hex_value c; d' ← hex_value d;
  Some (((a' * 16 + b') * 16 + c') * 16 + d')%N.

(** The character a backslash escape other than [\u] stands for. *)
Definition unescape (c : N) : option N :=
  (if c =? 34 then Some 34 else if c =? 92 then Some 92
   else if c =? 47 then Some 47 else if c =? 98 then Some 8
   else if c =? 102 then Some 12 else if c =? 110 then Some 10
   else if c =? 114 then Some 13 else if c =? 116 then Some 9
   else None)%N.

Definition INVALID_UXXXX : pystr := str "Invalid \uXXXX escape".
Definition UNTERMINATED : pystr := str "Unterminated string starting at".

(** The string whose opening quote has just been read; [begin_len] is the
    number of characters from that quote to the end of the text, [acc] the
    characters read so far, last first. *)
Fixpoint scanstring (s : pystr) (begin_len : nat) (acc : pystr) : scan pystr :=
  match s with
  | [] => ScanError UNTERMINATED begin_len
  | c :: s' =>
      if (c =? 34)%N then Scanned (reverse acc) s'
      else if (c =? 92)%N then
        match s' with
        | [] => ScanError UNTERMINATED begin_len
        | e :: s'' =>
            if (e =? 117)%N then
              match s'' with
              | h1 :: h2 :: h3 :: h4 :: ((_ :: _) as s3) =>
                  match hex4 h1 h2 h3 h4 with
                  | None => ScanError INVALID_UXXXX (length s')
                  | Some uni =>
                      match s3 with
                      | b1 :: b2 :: g1 :: g2 :: g3 :: g4 :: ((_ :: _) as s4) =>
                          if ((55296 <=? uni) && (uni <=? 56319)
                              && (b1 =? 92) && (b2 =? 117))%N then
                            match hex4 g1 g2 g3 g4 with
                            | None =>
                                ScanError INVALID_UXXXX (S (S (S (S (S (length s4))))))
                            | Some uni2 =>
                                if ((56320 <=? uni2) && (uni2 <=? 57343))%N
                                then scanstring s4 begin_len
                                       ((65536 + (uni - 55296) * 1024
                                         + (uni2 - 56320))%N :: acc)
                                else scanstring s3 begin_len (uni :: acc)
                            end
                          else scanstring s3 begin_len (uni :: acc)
                      | _ => scanstring s3 begin_len (uni :: acc)
                      end
                  end
              | _ => ScanError INVALID_UXXXX (length s')
              end
            else
              match unescape e with
              | Some ch => scanstring s'' begin_len (ch :: acc)
              | None => ScanError (str "Invalid \escape") (length s)
              end
        end
      else if (c <=? 31)%N
      then ScanError (str "Invalid control character at") (length s)
      else scanstring s' begin_len (c :: acc)
  end.

(** [dict(pairs)]: a later pair replaces the value of an earlier one with the
    same key. *)
Definition dict_of_pairs (pairs : pydict) : pydict :=
  foldl (fun d kv => dict_set kv.1 kv.2 d) [] pairs.

Definition EXPECTING_VALUE : pystr := str "Expecting value".
Definition EXPECTING_COMMA : pystr := str "Expecting ',' delimiter".
Definition EXPECTING_COLON : pystr := str "Expecting ':' delimiter".
Definition EXPECTING_NAME : pystr :=
  str "Expecting property name enclosed in double quotes".

(** The value at the head of [s]; the items of an array once [[] has been
    read; the members of an object from just after the opening quote of a
    key. Each call is given less [fuel] than its caller. *)
Fixpoint scan_once (fuel : nat) (s : pystr) {struct fuel} : scan pyval :=
  match fuel with
  | O => ScanError EXPECTING_VALUE (length s)
  | S fuel' =>
      match s with
      | [] => ScanError EXPECTING_VALUE 0
      | c :: rest =>
          if (c =? 34)%N then
            match scanstring rest (length s) [] with
            | Scanned v r => Scanned (PStr v) r
            | ScanError msg p => ScanError msg p
            end
          else if (c =? 123)%N then
            match skip_ws rest with
            | x :: r =>
                if (x =? 125)%N then Scanned (PDict []) r
                else if (x =? 34)%N then object_items fuel' r []
                else ScanError EXPECTING_NAME (S (length r))
            | [] => ScanError EXPECTING_NAME 0
            end
          else if (c =? 91)%N then
            match skip_ws rest with
            | x :: r =>
                if (x =? 93)%N then Scanned (PList []) r
                else array_items fuel' (x :: r) []
            | [] => ScanError EXPECTING_VALUE 0
            end
          else if startswith (str "null") s then Scanned PNone (drop 4 s)
          else if startswith (str "true") s then Scanned (PBool true) (drop 4 s)
          else if startswith (str "false") s then Scanned (PBool false) (drop 5 s)
          else if startswith (str "NaN") s then Scanned (PFloat S754_nan) (drop 3 s)
          else if startswith (str "Infinity") s
               then Scanned (PFloat (S754_infinity false)) (drop 8 s)
          else if startswith (str "-Infinity") s
               then Scanned (PFloat (S754_infinity true)) (drop 9 s)
          else match match_number s with
               | Some (v, r) => Scanned v r
               | None => ScanError EXPECTING_VALUE (length s)
               end
      end
  end
with array_items (fuel : nat) (s : pystr) (acc : list pyval) {struct fuel}
  : scan pyval :=
  match fuel with
  | O => ScanError EXPECTING_VALUE (length s)
  | S fuel' =>
      match scan_once fuel' s with
      | ScanError msg p => ScanError msg p
      | Scanned v r =>
          match skip_ws r with
          | x :: r' =>
              if (x =? 93)%N then Scanned (PList (reverse (v :: acc))) r'
              else if (x =? 44)%N then array_items fuel' (skip_ws r') (v :: acc)
              else ScanError EXPECTING_COMMA (S (length r'))
          | [] => ScanError EXPECTING_COMMA 0
          end
      end
  end
with object_items (fuel : nat) (s : pystr) (acc : pydict) {struct fuel}
  : scan pyval :=
  match fuel with
  | O => ScanError EXPECTING_VALUE (length s)
  | S fuel' =>
      match scanstring s (S (length s)) [] with
      | ScanError msg p => ScanError msg p
      | Scanned key r =>
          match skip_ws r with
          | x :: r' =>
              if (x =? 58)%N then
                match scan_once fuel' (skip_ws r') with
                | ScanError msg p => ScanError msg p
                | Scanned v rv =>
                    match skip_ws rv with
                    | y :: r3 =>
                        if (y =? 125)%N then
                          Scanned (PDict (dict_of_pairs (reverse ((key, v) :: acc)))) r3
                        else if (y =? 44)%N then
                          match skip_ws r3 with
                          | z :: r4 =>
                              if (z =? 34)%N
                              then object_items fuel' r4 ((key, v) :: acc)
                              else ScanError EXPECTING_NAME (S (length r4))
                          | [] => ScanError EXPECTING_NAME 0
                          end
                        else ScanError EXPECTING_COMMA (S (length r3))
                    | [] => ScanError EXPECTING_COMMA 0
                    end
                end
              else ScanError EXPECTING_COLON (S (length r'))
          | [] => ScanError EXPECTING_COLON 0
          end
      end
  end.

(** [JSONDecodeError.__str__]: the message, then the line, the column and
    the offset of the error. *)
Definition after_last_newline (s : pystr) : nat :=
  foldl (fun n c => if (c =? 10)%N then 0%nat else S n) 0%nat s.

Definition decode_error (msg doc : pystr) (pos : nat) : pystr :=
  let before := take pos doc in
  let lineno := S (length (filter (fun c => c = 10%N) before)) in
  let colno := S (after_last_newline before) in
  msg ++ str ": line " ++ str_of_nat lineno ++ str " column " ++ str_of_nat colno
      ++ str " (char " ++ str_of_nat pos ++ str ")".

(** [json.loads(s)] for a [str]. *)
Definition json_loads (s : pystr) : loads_result :=
  if startswith [65279%N] s
  then JSONDecodeError
         (decode_error (str "Unexpected UTF-8 BOM (decode using utf-8-sig)") s 0)
  else
    match scan_once (2 * length s + 2) (skip_ws s) with
    | ScanError msg p => JSONDecodeError (decode_error msg s (length s - p))
    | Scanned v r =>
        match skip_ws r with
        | [] => Decoded v
        | r' =>
            JSONDecodeError
              (decode_error (str "Extra data") s (length s - length r'))
        end
    end.

(** ** Raising and catching *)

(** [exc] is an error monad: the first exception ends the computation. *)
#[global] Instance exc_ret : MRet exc := fun _ a => Returns a.

#[global] Instance exc_bind : MBind exc :=
  fun _ _ f m => match m with Returns a => f a | Raises msg => Raises msg end.

(** [str(e)] of the [AttributeError] that [v.get(...)] raises when [v] is
    not a dictionary. *)
Definition no_get_attribute (v : pyval) : pystr :=
  str "'" ++ type_name v ++ str "' object has no attribute 'get'".

(** [str(e)] of the [TypeError] of [v[-1]] and of [for x in v]. *)
Definition not_subscriptable (v : pyval) : pystr :=
  str "'" ++ type_name v ++ str "' object is not subscriptable".

Definition not_iterable (v : pyval) : pystr :=
  str "'" ++ type_name v ++ str "' object is not iterable".

(** [v.get(k)] and [v.get(k, dflt)] for any value [v]. *)
Definition get_of (k : pystr) (v : pyval) : exc pyval :=
  match v with
  | PDict d => Returns (dict_get_py k d)
  | _ => Raises (no_get_attribute v)
  end.

Definition get_default_of (k : pystr) (dflt : pyval) (v : pyval) : exc pyval :=
  match v with
  | PDict d => Returns (dict_get_default k dflt d)
  | _ => Raises (no_get_attribute v)
  end.

(** [v[-1]]: the last item of a list, the last character of a string; a
    dictionary decoded from JSON has no key [-1], and the other values
    cannot be indexed. *)
Definition last_item (v : pyval) : exc pyval :=
  match v with
  | PList l =>
      match last l with
      | Some x => Returns x
      | None => Raises (str "list index out of range")
      end
  | PStr s =>
      match last s with
      | Some c => Returns (PStr [c])
      | None => Raises (str "string index out of range")
      end
  | PDict _ => Raises (str "-1")
  | _ => Raises (not_subscriptable v)
  end.

(** [for x in v]: the items of a list, the keys of a dictionary, the
    characters of a string. *)
Definition iterate (v : pyval) : exc (list pyval) :=
  match v with
  | PList l => Returns l
  | PDict d => Returns (map (fun kv => PStr kv.1) d)
  | PStr s => Returns (map (fun c => PStr [c]) s)
  | _ => Raises (not_iterable v)
  end.

(** [x or dflt] *)
Definition py_or (x dflt : pyval) : pyval := if truthy x then x else dflt.

(** ** The requests of a batch *)

(** What holds of the requests made so far: at most one per task, none for
    a task that has not reached the call, and each is the batch's prompt
    followed by the transcript of the task's record, for the batch's
    model. *)
Definition request_inv (prompt model : pystr) (calls : list nat) (st : state) : Prop :=
  (forall i,
     match tasks st !! i with
     | Some (InFlight _ _) | Some Returned => (requests_of i (trace st) <= 1)%nat
     | _ => requests_of i (trace st) = 0%nat
     end)
  /\ (forall i m c,
        GenerateContent i m c ∈ trace st ->
        m = model
        /\ exists r d s, calls !! i = Some r /\ heap st !! r = Some d
                         /\ dict_get K_transcript d = Some (PStr s)
                         /\ c = prompt ++ s).

(** ** [vapi_extract.py]: [extract_calls] *)

Definition K_messages : pystr := str "messages".
Definition K_secondsFromStart : pystr := str "secondsFromStart".
Definition K_artifact : pystr := str "artifact".
Definition K_type : pystr := str "type".
Definition K_endedReason : pystr := str "endedReason".
Definition K_assistantId : pystr := str "assistantId".
Definition K_phoneNumberId : pystr := str "phoneNumberId".
Definition K_phoneCallProvider : pystr := str "phoneCallProvider".
Definition K_squadId : pystr := str "squadId".
Definition K_transfers : pystr := str "transfers".
Definition K_createdAt : pystr := str "createdAt".
Definition K_updatedAt : pystr := str "updatedAt".
Definition K_durationSeconds : pystr := str "durationSeconds".
Definition K_orgId : pystr := str "orgId".

(** Lines 21-26: the duration is read off the last message. *)
Definition duration_of (call : pydict) : exc pyval :=
  let messages := dict_get_default K_messages (PList []) call in
  if truthy messages then
    last_msg ← last_item messages;
    get_of K_secondsFromStart last_msg
  else Returns PNone.

(** Line 37: [call.get('artifact', {}).get('transfers') if
    call.get('artifact') else None]. *)
Definition transfers_of (call : pydict) : exc pyval :=
  if truthy (dict_get_py K_artifact call)
  then get_of K_transfers (dict_get_default K_artifact (PDict []) call)
  else Returns PNone.

(** Lines 21-42: the body of the loop, for one [call]. *)
Definition extract_one (call : pyval) : exc pydict :=
  match call with
  | PDict c =>
      duration_seconds ← duration_of c;
      transfers ← transfers_of c;
      Returns [(K_id, dict_get_py K_id c);
               (K_transcript, dict_get_py K_transcript c);
               (K_type, dict_get_py K_type c);
               (K_endedReason, dict_get_py K_endedReason c);
               (K_assistantId, dict_get_py K_assistantId c);
               (K_phoneNumberId, dict_get_py K_phoneNumberId c);
               (K_phoneCallProvider, dict_get_py K_phoneCallProvider c);
               (K_squadId, dict_get_py K_squadId c);
               (K_transfers, transfers);
               (K_createdAt, dict_get_py K_createdAt c);
               (K_updatedAt, dict_get_py K_updatedAt c);
               (K_durationSeconds, duration_seconds);
               (K_orgId, dict_get_py K_orgId c)]
  | _ => Raises (no_get_attribute call)
  end.

(** Lines 19-42: the loop; the first exception ends it. *)
Fixpoint extract_loop (calls : list pyval) : exc (list pydict) :=
  match calls with
  | [] => Returns []
  | call :: rest =>
      record ← extract_one call;
      extracted ← extract_loop rest;
      Returns (record :: extracted)
  end.

(** Lines 14-47, from the decoded input to what is written to the output
    file and the count that is returned. An exception leaves the function
    before the output file is opened. *)
Definition extract_calls (calls : pyval) : exc (list pydict * nat) :=
  items ← iterate calls;
  extracted ← extract_loop items;
  Returns (extracted, length extracted).

(** The keys of an extracted record, in the order of lines 29-41. *)
Definition EXTRACTED_KEYS : list pystr :=
  [K_id; K_transcript; K_type; K_endedReason; K_assistantId; K_phoneNumberId;
   K_phoneCallProvider; K_squadId; K_transfers; K_createdAt; K_updatedAt;
   K_durationSeconds; K_orgId].

(** The keys whose value is copied from the call as it is. *)
Definition COPIED_KEYS : list pystr :=
  [K_id; K_transcript; K_type; K_endedReason; K_assistantId; K_phoneNumberId;
   K_phoneCallProvider; K_squadId; K_createdAt; K_updatedAt; K_orgId].

(** A call the loop body accepts: a dictionary whose messages are absent,
    falsy or a list ending with a dictionary, and whose artifact is absent,
    falsy or a dictionary. *)
Definition messages_ok (call : pydict) : bool :=
  let messages := dict_get_default K_messages (PList []) call in
  negb (truthy messages)
  || match messages with
     | PList l => match last l with Some (PDict _) => true | _ => false end
     | _ => false
     end.

Definition artifact_ok (call : pydict) : bool :=
  negb (truthy (dict_get_py K_artifact call)) || is_dict (dict_get_py K_artifact call).

Definition well_formed_call (call : pyval) : bool :=
  match call with
  | PDict c => messages_ok c && artifact_ok c
  | _ => false
  end.

(** ** [vapi_heatmap.py]: [extract_dimensions_from_call] *)

Definition K_data : pystr := str "data".
Definition K_caller_type : pystr := str "caller_type".
Definition K_call_summary : pystr := str "call_summary".
Definition K_resolution_type : pystr := str "resolution_type".
Definition K_primary_intent : pystr := str "primary_intent".
Definition UNKNOWN : pyval := PStr (str "unknown").

(** Lines 13-22: the body of the [try]. *)
Definition dimensions_body (call_info : pyval)
  : exc (option (pyval * pyval * pyval)) :=
  data ← get_default_of K_data (PDict []) call_info;
  if negb (truthy data) then Returns None
  else
    caller_type ← get_default_of K_caller_type UNKNOWN data;
    call_summary ← get_default_of K_call_summary (PDict []) data;
    resolution_type ← get_default_of K_resolution_type UNKNOWN call_summary;
    primary_intent ← get_default_of K_primary_intent UNKNOWN call_summary;
    Returns (Some (py_or resolution_type UNKNOWN,
                   py_or caller_type UNKNOWN,
                   py_or primary_intent UNKNOWN)).

(** Lines 10-24: [try ... except Exception: return None]. *)
Definition extract_dimensions_from_call (call_info : pyval)
  : option (pyval * pyval * pyval) :=
  match dimensions_body call_info with
  | Returns dims => dims
  | Raises _ => None
  end.

(** ** [vapi_resolution.py]: [load_vapi_data] *)

Definition K_final_outcome : pystr := str "final_outcome".
Definition K_resolution_achieved : pystr := str "resolution_achieved".
Definition K_secondary_action : pystr := str "secondary_action".
Definition K_transfer_context : pystr := str "transfer_context".
Definition K_transfer_connection_status : pystr := str "transfer_connection_status".
Definition K_destinations : pystr := str "destinations".
Definition K_index : pystr := str "index".
Definition K_transfer_success : pystr := str "transfer_success".
Definition K_transfer_destination : pystr := str "transfer_destination".
Definition K_transcript_content : pystr := str "transcript_content".
Definition K_call_duration : pystr := str "call_duration".
Definition K_assistant_id : pystr := str "assistant_id".
Definition K_squad_id : pystr := str "squad_id".
Definition K_raw_call : pystr := str "raw_call".
Definition K_has_resolution_type : pystr := str "has_resolution_type".
Definition NO_RESOLUTION_TYPE : pyval := PStr (str "no_resolution_type").

(** [str(e)] of the [AttributeError] of [v.replace(...)] and of the
    [TypeError] of [hash(v)]. *)
Definition no_replace_attribute (v : pyval) : pystr :=
  str "'" ++ type_name v ++ str "' object has no attribute 'replace'".

Definition unhashable (v : pyval) : pystr :=
  str "unhashable type: '" ++ type_name v ++ str "'".

(** [s.replace('\\n', '\n')]: every backslash followed by [n] becomes a
    line feed, from left to right. *)
Fixpoint unescape_newlines (s : pystr) : pystr :=
  match s with
  | [] => []
  | c :: r =>
      if (c =? 92)%N then
        match r with
        | c' :: r' =>
            if (c' =? 110)%N then 10%N :: unescape_newlines r'
            else c :: unescape_newlines r
        | [] => [c]
        end
      else c :: unescape_newlines r
  end.

(** *** Keys of a dictionary that are not strings

    [json_files] and [resolution_types] are keyed by values read from the
    file. Two keys are the same key when they are equal as Python values:
    numbers by their value, whatever their type ([True == 1 == 1.0]);
    [NaN] with itself, since the decoder gives the same object for every
    [NaN] of a file. Lists and dictionaries cannot be keys. *)

Definition is_hashable (v : pyval) : bool :=
  match v with PList _ | PDict _ => false | _ => true end.

(** Is the float [f] the integer [z]? A finite float is [m * 2^e]. *)
Definition float_eq_int (f : spec_float) (z : Z) : bool :=
  match f with
  | S754_zero _ => z =? 0
  | S754_finite s m e =>
      let v := if s then Z.neg m else Z.pos m in
      if 0 <=? e then z =? v * 2 ^ e else z * 2 ^ (- e) =? v
  | _ => false
  end.

Definition float_eq (f g : spec_float) : bool :=
  match f, g with
  | S754_nan, S754_nan => true
  | _, _ => SFeqb f g
  end.

Definition py_key_eq (a b : pyval) : bool :=
  match a, b with
  | PNone, PNone => true
  | PStr s, PStr t => bool_decide (s = t)
  | PBool x, PBool y => Z.b2z x =? Z.b2z y
  | PBool x, PInt z | PInt z, PBool x => Z.b2z x =? z
  | PInt z, PInt w => z =? w
  | PBool x, PFloat f | PFloat f, PBool x => float_eq_int f (Z.b2z x)
  | PInt z, PFloat f | PFloat f, PInt z => float_eq_int f z
  | PFloat f, PFloat g => float_eq f g
  | _, _ => false
  end.

(** [d[k] = v] for a dictionary with such keys: an existing key keeps its
    place and its first spelling. *)
Fixpoint key_set {A : Type} (k : pyval) (v : A) (d : list (pyval * A))
  : list (pyval * A) :=
  match d with
  | [] => [(k, v)]
  | (k', v') :: d' =>
      if py_key_eq k' k then (k', v) :: d' else (k', v') :: key_set k v d'
  end.

(** [d[k].append(x)] for a [defaultdict(list)]. *)
Fixpoint key_append {A : Type} (k : pyval) (x : A) (d : list (pyval * list A))
  : list (pyval * list A) :=
  match d with
  | [] => [(k, [x])]
  | (k', xs) :: d' =>
      if py_key_eq k' k then (k', xs ++ [x]) :: d' else (k', xs) :: key_append k x d'
  end.

(** *** The loop *)

(** Lines 127-133: the first destination that is a non-empty string. *)
Fixpoint first_nonempty_str (l : list pyval) : pyval :=
  match l with
  | [] => PNone
  | PStr s :: l' => if truthy (PStr s) then PStr s else first_nonempty_str l'
  | _ :: l' => first_nonempty_str l'
  end.

Definition transfer_destination_of (destinations : pyval) : pyval :=
  match destinations with
  | PList l => if truthy destinations then first_nonempty_str l else PNone
  | PStr _ => if truthy destinations then destinations else PNone
  | _ => PNone
  end.

(** [[v for v in l if isinstance(v, bool)]] *)
Definition bool_values (l : list pyval) : list bool :=
  omap (fun v => match v with PBool b => Some b | _ => None end) l.

(** Lines 135-143: a transfer succeeded when one of the statuses is [True];
    statuses that are not booleans do not count. *)
Definition transfer_success_of (status : pyval) : pyval :=
  match status with
  | PList l =>
      match l with
      | [] => PNone
      | _ => match bool_values l with
             | [] => PNone
             | bs => PBool (existsb id bs)
             end
      end
  | _ => PNone
  end.

(** What [float(v)] does. *)
Inductive float_result : Type :=
  | FloatOf (f : spec_float)
  | FloatTypeOrValueError
  | FloatOverflowError.

Definition INT_TOO_LARGE : pystr := str "int too large to convert to float".

Section Viewer.
(** [float(s)] for a string [s]: the number it spells, if it spells one.
    The grammar of [float] (signs, exponents, underscores, [inf] and [nan],
    the digits of every script) is Python's and is left open here. *)
Variable float_of_str : pystr -> option spec_float.

Definition py_float (v : pyval) : float_result :=
  match v with
  | PBool b => FloatOf (binary_normalize 53 1024 (Z.b2z b) 0 false)
  | PInt z =>
      match binary_normalize 53 1024 z 0 false with
      | S754_infinity _ => FloatOverflowError
      | f => FloatOf f
      end
  | PFloat f => FloatOf f
  | PStr s =>
      match float_of_str s with
      | Some f => FloatOf f
      | None => FloatTypeOrValueError
      end
  | PNone | PList _ | PDict _ => FloatTypeOrValueError
  end.

(** Lines 80-88. An [OverflowError] is not among the exceptions caught. *)
Definition get_duration_from_call (call : pydict) : exc pyval :=
  match dict_get_py K_durationSeconds call with
  | PNone => Returns PNone
  | duration =>
      match py_float duration with
      | FloatOf f => Returns (PFloat f)
      | FloatTypeOrValueError => Returns PNone
      | FloatOverflowError => Raises INT_TOO_LARGE
      end
  end.

(** Line 103: the records the loop passes over. *)
Definition viewer_skips (llm_analysis : pyval) : bool :=
  negb (truthy llm_analysis) || is_dict llm_analysis && error_in llm_analysis.

(** Lines 119-143: the destination and the success of the transfer. *)
Definition transfer_of (transfer_context : pyval) : pyval * pyval :=
  match transfer_context with
  | PDict tc =>
      if truthy transfer_context
      then (transfer_destination_of (dict_get_py K_destinations tc),
            transfer_success_of (dict_get_py K_transfer_connection_status tc))
      else (PNone, PNone)
  | _ => (PNone, PNone)
  end.

(** Lines 146-148. *)
Definition transcript_content_of (call : pydict) : exc pyval :=
  let transcript := dict_get_default K_transcript (PStr []) call in
  if truthy transcript then
    match transcript with
    | PStr s => Returns (PStr (unescape_newlines s))
    | v => Raises (no_replace_attribute v)
    end
  else Returns transcript.

(** Lines 102-177: the body of the loop for the call at [idx], up to the
    [file_info] and the two keys under which it is stored; [None] when the
    call is passed over. *)
Definition file_info_of (idx : nat) (call : pyval)
  : exc (option (pyval * pyval * pydict)) :=
  llm_analysis ← get_of K_llm_analysis call;
  if viewer_skips llm_analysis then Returns None
  else
    call_summary ← get_default_of K_call_summary (PDict []) llm_analysis;
    resolution_type ← get_of K_resolution_type call_summary;
    final_outcome ← get_default_of K_final_outcome (PStr []) call_summary;
    resolution_achieved ← get_of K_resolution_achieved call_summary;
    secondary_action ← get_of K_secondary_action call_summary;
    primary_intent ← get_of K_primary_intent call_summary;
    caller_type ← get_default_of K_caller_type UNKNOWN llm_analysis;
    transfer_context ← get_default_of K_transfer_context (PDict []) llm_analysis;
    match call with
    | PDict c =>
        transcript ← transcript_content_of c;
        call_duration ← get_duration_from_call c;
        let caller_type :=
          match caller_type with
          | PStr _ => if truthy caller_type then caller_type else UNKNOWN
          | _ => UNKNOWN
          end in
        let '(transfer_destination, transfer_success) := transfer_of transfer_context in
        let call_id :=
          dict_get_default K_id (PStr (str "call_" ++ str_of_nat idx)) c in
        Returns (Some (call_id, py_or resolution_type NO_RESOLUTION_TYPE,
          [(K_id, call_id);
           (K_index, PInt (Z.of_nat idx));
           (K_resolution_type, py_or resolution_type NO_RESOLUTION_TYPE);
           (K_caller_type, caller_type);
           (K_final_outcome, py_or final_outcome (PStr []));
           (K_resolution_achieved, resolution_achieved);
           (K_transfer_success, transfer_success);
           (K_transfer_destination, transfer_destination);
           (K_secondary_action, secondary_action);
           (K_primary_intent, primary_intent);
           (K_transcript_content, transcript);
           (K_call_duration, call_duration);
           (K_assistant_id, py_or (dict_get_py K_assistantId c) UNKNOWN);
           (K_squad_id, py_or (dict_get_py K_squadId c) (PStr (str "none")));
           (K_data, llm_analysis);
           (K_raw_call, call);
           (K_has_resolution_type,
            PBool (match resolution_type with PNone => false | _ => true end))]))
    | _ => Raises (no_get_attribute call)
    end.

(** The two tables the loop fills. *)
Record tables : Type := Tables {
  json_files : list (pyval * pydict);
  resolution_types : list (pyval * list pydict)
}.

(** Lines 179-181: storing the [file_info]; a key that is a list or a
    dictionary cannot be hashed. *)
Definition store (call_id resolution_type_key : pyval) (file_info : pydict)
    (t : tables) : exc tables :=
  if negb (is_hashable call_id) then Raises (unhashable call_id)
  else if negb (is_hashable resolution_type_key)
       then Raises (unhashable resolution_type_key)
       else Returns (Tables (key_set call_id file_info (json_files t))
                            (key_append resolution_type_key file_info
                                        (resolution_types t))).

(** Lines 100-181: the loop over [enumerate(calls)], from index [idx] on. *)
Fixpoint load_loop (idx : nat) (calls : list pyval) (t : tables) : exc tables :=
  match calls with
  | [] => Returns t
  | call :: rest =>
      info ← file_info_of idx call;
      t' ← match info with
           | None => Returns t
           | Some (call_id, key, file_info) => store call_id key file_info t
           end;
      load_loop (S idx) rest t'
  end.

(** Lines 92-183, from the decoded file. *)
Definition load_vapi_data (calls : pyval) : exc tables :=
  items ← iterate calls;
  load_loop 0 items (Tables [] []).
End Viewer.

(** The keys of a [file_info], in the order of lines 159-177. *)
Definition FILE_INFO_KEYS : list pystr :=
  [K_id; K_index; K_resolution_type; K_caller_type; K_final_outcome;
   K_resolution_achieved; K_transfer_success; K_transfer_destination;
   K_secondary_action; K_primary_intent; K_transcript_content; K_call_duration;
   K_assistant_id; K_squad_id; K_data; K_raw_call; K_has_resolution_type].

(** The [file_info]s of the second table, bucket after bucket. *)
Definition listed (t : tables) : list pydict := concat (map snd (resolution_types t)).

(** The annotation of a call, as line 102 reads it. *)
Definition annotation_of (call : pyval) : pyval :=
  match call with PDict c => dict_get_py K_llm_analysis c | _ => PNone end.

(** The calls the loop does not pass over. *)
Definition shown (calls : list pyval) : list pyval :=
  filter (fun call => viewer_skips (annotation_of call) = false) calls.

(** What the fields of a [file_info] can be. *)
Definition is_nonempty_str (v : pyval) : bool :=
  match v with PStr _ => truthy v | _ => false end.

Definition is_none_or_bool (v : pyval) : bool :=
  match v with PNone | PBool _ => true | _ => false end.

Definition is_none_or_float (v : pyval) : bool :=
  match v with PNone | PFloat _ => true | _ => false end.

(** An annotation the loop goes through with: a non-empty dictionary
    without an ['error'] key, whose ['call_summary'] is absent or is a
    dictionary. *)
Definition shown_document (v : pyval) : bool :=
  match v with
  | PDict data =>
      truthy v && negb (dict_has K_error data)
      && match dict_get K_call_summary data with
         | None | Some (PDict _) => true
         | _ => false
         end
  | _ => false
  end.

Definition field (k : pystr) (file_info : pydict) : pyval := dict_get_py k file_info.

Definition well_formed_info (file_info : pydict) : bool :=
  bool_decide (map fst file_info = FILE_INFO_KEYS)
  && is_nonempty_str (field K_caller_type file_info)
  && truthy (field K_resolution_type file_info)
  && truthy (field K_assistant_id file_info)
  && truthy (field K_squad_id file_info)
  && is_none_or_bool (field K_transfer_success file_info)
  && (is_nonempty_str (field K_transfer_destination file_info)
      || match field K_transfer_destination file_info with PNone => true | _ => false end)
  && is_none_or_float (field K_call_duration file_info)
  && (negb (truthy (field K_transcript_content file_info))
      || match field K_transcript_content file_info with PStr _ => true | _ => false end)
  && shown_document (field K_data file_info)
  && is_dict (field K_raw_call file_info).

(** Every [file_info] of a bucket has the resolution type of the bucket. *)
Definition bucket_ok (bucket : pyval * list pydict) : Prop :=
  is_hashable bucket.1 = true /\ truthy bucket.1 = true /\ bucket.2 <> []
  /\ Forall (fun file_info =>
               py_key_eq bucket.1 (field K_resolution_type file_info) = true)
            bucket.2.

(** ** Sample data *)

Definition DEFAULT_MODEL : pystr := str "gemini-3-flash-preview".
Definition DEFAULT_CONCURRENCY : Z := 25.

Definition QUOTE : pystr := [34%N].
Definition quoted (s : pystr) : pystr := QUOTE ++ s ++ QUOTE.

(** The text of the JSON object with the one member [x] of value [1]. *)
Definition DOC_X1 : pystr := str "{" ++ quoted (str "x") ++ str ":1}".

(** Three records: two with a transcript, one with an empty one. *)
Definition rec_a : pydict :=
  [(K_id, PStr (str "a")); (K_transcript, PStr (str "hello"))].
Definition rec_b : pydict :=
  [(K_id, PStr (str "b")); (K_transcript, PStr [])].
Definition rec_c : pydict :=
  [(K_id, PStr (str "c")); (K_transcript, PStr (str "world"))].

Definition sample_prompt : pystr := str "Analyze this call: ".

(** A client that answers the request about ["hello"] with [DOC_X1] and
    times out on every other request. *)
Definition sample_client : client_fn :=
  fun _ contents =>
    if endswith (str "hello") contents then Returns (Some DOC_X1)
    else Raises (str "The read operation timed out").

(** A client that answers every request with the same text. *)
Definition constant_client (text : pystr) : client_fn :=
  fun _ _ => Returns (Some text).

(** [text] inside a fence with the language tag [tag]. *)
Definition fenced (tag text : pystr) : pystr :=
  FENCE ++ tag ++ NL ++ text ++ NL ++ FENCE.

Definition sample_environment (records : list pydict) : environment :=
  Environment (Some records) (Some sample_prompt) true (Some (str "secret"))
              DEFAULT_MODEL 2.

Definition sample_records : list pydict := [rec_a; rec_b; rec_c].
Definition sample_calls : list nat := [0; 1; 2]%nat.
Definition SAMPLE_KEY : pystr := str "secret".

(** Two slots; task 1 finds none free at its first two turns. *)
Definition sample_schedule : list nat := [2; 0; 1; 2; 0; 1; 2; 0; 1; 1]%nat.

(** The sample batch with two slots, after [schedule]. *)
Definition sample_state (schedule : list nat) : state :=
  run json_loads sample_client sample_prompt DEFAULT_MODEL sample_calls schedule
      (init_state sample_calls sample_records 2).

(** The first two records with a single slot, after [schedule]. *)
Definition one_slot_state (schedule : list nat) : state :=
  run json_loads sample_client sample_prompt DEFAULT_MODEL [0; 1]%nat schedule
      (init_state [0; 1]%nat [rec_a; rec_b] 1).

(** [client], except that every request of task [j] raises. *)
Definition failing_client (j : nat) (msg : pystr) (client : client_fn) : client_fn :=
  fun i contents => if bool_decide (i = j) then Raises msg else client i contents.

Definition TIMED_OUT : pystr := str "The read operation timed out".

(** A record whose transcript is a number. *)
Definition rec_number : pydict :=
  [(K_id, PStr (str "n")); (K_transcript, PInt 5)].

(** What [json.loads] says of a text that does not start a value. *)
Definition EXPECTING_VALUE_AT_0 : pystr :=
  str "Expecting value: line 1 column 1 (char 0)".

(** The text of the JSON object with the one member [error] of value [1]. *)
Definition DOC_ERROR_KEY : pystr := str "{" ++ quoted (str "error") ++ str ":1}".

(** A call as the VAPI export has it: two messages, an artifact with its
    transfers, and fields the extractor does not keep. *)
Definition raw_call : pydict :=
  [(K_id, PStr (str "a"));
   (str "status", PStr (str "ended"));
   (K_transcript, PStr (str "hello"));
   (K_messages,
    PList [PDict [(K_secondsFromStart, PInt 1)];
           PDict [(str "role", PStr (str "bot")); (K_secondsFromStart, PInt 42)]]);
   (K_artifact, PDict [(K_transfers, PList [PStr (str "desk")])])].

(** A call with nothing but an identifier. *)
Definition bare_call : pydict := [(K_id, PStr (str "b"))].

(** What the extractor makes of [raw_call] and of [bare_call]. *)
Definition raw_call_extracted : pydict :=
  [(K_id, PStr (str "a")); (K_transcript, PStr (str "hello")); (K_type, PNone);
   (K_endedReason, PNone); (K_assistantId, PNone); (K_phoneNumberId, PNone);
   (K_phoneCallProvider, PNone); (K_squadId, PNone);
   (K_transfers, PList [PStr (str "desk")]); (K_createdAt, PNone);
   (K_updatedAt, PNone); (K_durationSeconds, PInt 42); (K_orgId, PNone)].

Definition bare_call_extracted : pydict :=
  [(K_id, PStr (str "b")); (K_transcript, PNone); (K_type, PNone);
   (K_endedReason, PNone); (K_assistantId, PNone); (K_phoneNumberId, PNone);
   (K_phoneCallProvider, PNone); (K_squadId, PNone); (K_transfers, PNone);
   (K_createdAt, PNone); (K_updatedAt, PNone); (K_durationSeconds, PNone);
   (K_orgId, PNone)].

(** A [float] for strings that is good enough for the samples: no string
    spells a number. *)
Definition no_float_of_str : pystr -> option spec_float := fun _ => None.

(** Two annotated records as the analyzer writes them, and one that it
    skipped. *)
Definition shown_a : pydict :=
  [(K_id, PStr (str "a")); (K_transcript, PStr (str "hi\nthere"));
   (K_durationSeconds, PInt 42);
   (K_llm_analysis,
    PDict [(K_caller_type, PStr (str "patient"));
           (K_call_summary,
            PDict [(K_resolution_type, PStr (str "booked"));
                   (K_resolution_achieved, PBool true)])])].

Definition shown_b : pydict :=
  [(K_id, PStr (str "b")); (K_transcript, PStr (str "hello"));
   (K_llm_analysis,
    PDict [(K_caller_type, PInt 7);
           (K_transfer_context,
            PDict [(K_destinations, PList [PStr []; PStr (str "desk")]);
                   (K_transfer_connection_status,
                    PList [PStr (str "no"); PBool false; PBool true])])])].

Definition skipped_c : pydict :=
  [(K_id, PStr (str "c")); (K_transcript, PNone); (K_llm_analysis, PNone)].

(** A record whose annotation is a list: a success for the tally. *)
Definition listed_d : pydict :=
  [(K_id, PStr (str "d")); (K_llm_analysis, PList [PInt 1])].

(** What the viewer makes of [shown_a] at index 0 and of [shown_b] at
    index 2. *)
Definition info_a : pydict :=
  [(K_id, PStr (str "a")); (K_index, PInt 0);
   (K_resolution_type, PStr (str "booked"));
   (K_caller_type, PStr (str "patient"));
   (K_final_outcome, PStr []);
   (K_resolution_achieved, PBool true);
   (K_transfer_success, PNone); (K_transfer_destination, PNone);
   (K_secondary_action, PNone); (K_primary_intent, PNone);
   (K_transcript_content, PStr (str "hi" ++ NL ++ str "there"));
   (K_call_duration, PFloat (S754_finite false 5910974510923776 (-47)));
   (K_assistant_id, UNKNOWN); (K_squad_id, PStr (str "none"));
   (K_data, dict_get_py K_llm_analysis shown_a);
   (K_raw_call, PDict shown_a);
   (K_has_resolution_type, PBool true)].

Definition info_b : pydict :=
  [(K_id, PStr (str "b")); (K_index, PInt 2);
   (K_resolution_type, NO_RESOLUTION_TYPE);
   (K_caller_type, UNKNOWN);
   (K_final_outcome, PStr []);
   (K_resolution_achieved, PNone);
   (K_transfer_success, PBool true);
   (K_transfer_destination, PStr (str "desk"));
   (K_secondary_action, PNone); (K_primary_intent, PNone);
   (K_transcript_content, PStr (str "hello"));
   (K_call_duration, PNone);
   (K_assistant_id, UNKNOWN); (K_squad_id, PStr (str "none"));
   (K_data, dict_get_py K_llm_analysis shown_b);
   (K_raw_call, PDict shown_b);
   (K_has_resolution_type, PBool false)].

Definition sample_tables : tables :=
  Tables [(PStr (str "a"), info_a); (PStr (str "b"), info_b)]
         [(PStr (str "booked"), [info_a]); (NO_RESOLUTION_TYPE, [info_b])].

(** A record whose annotation gives a list as primary intent. *)
Definition intent_list_call : pydict :=
  [(K_id, PStr (str "e"));
   (K_llm_analysis,
    PDict [(K_call_summary,
            PDict [(K_primary_intent, PList [PStr (str "billing")])])])].

(** * Properties *)

(** ** Strings *)

Example strip_sample : strip (str "  a b" ++ NL ++ str " ") = str "a b".
Proof. reflexivity. Qed.

Example replace_first_sample :
  replace_first (str "ab") (str "") (str "xabyab") = str "xyab".
Proof. reflexivity. Qed.

Example rsplit1_sample :
  rsplit1 (str "--") (str "a--b--c") = (str "a--b", Some (str "c")).
Proof. reflexivity. Qed.

Example rsplit1_absent : rsplit1 (str "--") (str "abc") = (str "abc", None).
Proof. reflexivity. Qed.

Example str_of_nat_sample : str_of_nat 120 = str "120".
Proof. reflexivity. Qed.

Lemma startswith_app (p s : pystr) : startswith p (p ++ s) = true.
Proof.
  induction p as [|a p IH]; simpl; [done|].
  by rewrite N.eqb_refl, IH.
Qed.

Lemma startswith_prefix (p s : pystr) :
  startswith p s = true -> exists s', s = p ++ s'.
Proof.
  revert s. induction p as [|a p IH]; intros s H.
  - by exists s.
  - destruct s as [|b s]; simpl in H; [done|].
    apply andb_prop in H as [Hab Hps]. apply N.eqb_eq in Hab as ->.
    destruct (IH _ Hps) as [s' ->]. by exists s'.
Qed.

Lemma find_startswith (p s : pystr) :
  startswith p s = true -> find p s = Some 0%nat.
Proof. intros H. destruct s; simpl; by rewrite H. Qed.

(** Removing the first occurrence of a prefix removes the prefix. *)
Lemma replace_first_prefix (p s : pystr) : replace_first p [] (p ++ s) = s.
Proof.
  unfold replace_first. rewrite (find_startswith _ _ (startswith_app p s)).
  simpl. by rewrite drop_app_length.
Qed.

Lemma endswith_app (p s : pystr) : endswith p (s ++ p) = true.
Proof. unfold endswith. rewrite reverse_app. apply startswith_app. Qed.

(** Splitting at the last occurrence of a suffix cuts the suffix off. *)
Lemma rsplit1_suffix (p s : pystr) : (rsplit1 p (s ++ p)).1 = s.
Proof.
  unfold rsplit1, rfind. rewrite reverse_app.
  rewrite (find_startswith _ _ (startswith_app (reverse p) (reverse s))).
  simpl. rewrite length_app.
  replace (length s + length p - length p - 0)%nat with (length s) by lia.
  by rewrite take_app_length.
Qed.

Lemma lstrip_spaces (ws s : pystr) : all_space ws -> lstrip (ws ++ s) = lstrip s.
Proof. induction 1 as [|c ws Hc _ IH]; simpl; [done|]. by rewrite Hc. Qed.

Lemma lstrip_all_space (ws : pystr) : all_space ws -> lstrip ws = [].
Proof. induction 1 as [|c ws Hc _ IH]; simpl; [done|]. by rewrite Hc. Qed.

(** [lstrip] removes a run of white space and nothing else. *)
Lemma lstrip_split (s : pystr) :
  exists ws, all_space ws /\ s = ws ++ lstrip s /\
             (lstrip s = [] \/ exists c s', lstrip s = c :: s' /\ py_isspace c = false).
Proof.
  induction s as [|c s (ws & Hws & Hs & Hhead)]; simpl.
  - exists []. split; [constructor|]. by split; [|left].
  - destruct (py_isspace c) eqn:Hc.
    + exists (c :: ws). split; [by constructor|]. split; [|done].
      simpl. by rewrite <- Hs.
    + exists []. split; [constructor|]. split; [done|]. right. by exists c, s.
Qed.

Lemma lstrip_app_nonempty (s ws : pystr) :
  lstrip s <> [] -> lstrip (s ++ ws) = lstrip s ++ ws.
Proof.
  induction s as [|c s IH]; simpl; [done|].
  destruct (py_isspace c); [apply IH | done].
Qed.

Lemma lstrip_app_empty (s ws : pystr) :
  all_space ws -> lstrip s = [] -> lstrip (s ++ ws) = [].
Proof.
  intros Hws. induction s as [|c s IH]; simpl.
  - intros _. by apply lstrip_all_space.
  - destruct (py_isspace c); [apply IH | done].
Qed.

Lemma all_space_reverse (ws : pystr) : all_space ws -> all_space (reverse ws).
Proof. unfold all_space. by rewrite Forall_reverse. Qed.

Lemma rstrip_spaces (s ws : pystr) : all_space ws -> rstrip (s ++ ws) = rstrip s.
Proof.
  intros Hws. unfold rstrip. rewrite reverse_app.
  by rewrite lstrip_spaces by by apply all_space_reverse.
Qed.

(** White space around a text does not change what [strip] gives. *)
Lemma strip_padded (ws1 s ws2 : pystr) :
  all_space ws1 -> all_space ws2 -> strip (ws1 ++ s ++ ws2) = strip s.
Proof.
  intros H1 H2. unfold strip. rewrite lstrip_spaces by done.
  destruct (decide (lstrip s = [])) as [He|Hne].
  - by rewrite He, (lstrip_app_empty _ _ H2 He).
  - rewrite lstrip_app_nonempty by done. by apply rstrip_spaces.
Qed.

Lemma lstrip_fixed (c : N) (s : pystr) :
  py_isspace c = false -> lstrip (c :: s) = c :: s.
Proof. intros H. simpl. by rewrite H. Qed.

Lemma rstrip_fixed (c : N) (s : pystr) :
  py_isspace c = false -> rstrip (s ++ [c]) = s ++ [c].
Proof.
  intros H. unfold rstrip. rewrite reverse_app. simpl.
  rewrite H. by rewrite reverse_cons, reverse_involutive.
Qed.

Lemma rstrip_cons (c : N) (s : pystr) :
  py_isspace c = false -> exists s', rstrip (c :: s) = c :: s'.
Proof.
  intros Hc. unfold rstrip. rewrite reverse_cons.
  destruct (lstrip_split (reverse s ++ [c])) as (ws & Hws & Heq & _).
  revert Heq. generalize (lstrip (reverse s ++ [c])). intros u Heq.
  assert (exists u', u = u' ++ [c]) as [u' ->].
  { destruct (decide (u = [])) as [->|Hu].
    - rewrite app_nil_r in Heq. subst ws. unfold all_space in Hws.
      rewrite Forall_app, Forall_singleton in Hws. destruct Hws. congruence.
    - destruct (exists_last Hu) as (u' & x & ->). exists u'.
      rewrite app_assoc in Heq. apply app_inj_tail in Heq as [_ ->]. done. }
  rewrite reverse_app. simpl. by eexists.
Qed.

(** [strip] is idempotent. *)
Lemma strip_idemp (s : pystr) : strip (strip s) = strip s.
Proof.
  unfold strip at 2 3.
  destruct (lstrip_split s) as (_ & _ & _ & [He | (c & s' & He & Hc)]); rewrite He.
  - reflexivity.
  - destruct (rstrip_cons c s' Hc) as [u Hu]. rewrite Hu.
    unfold strip. rewrite lstrip_fixed by done. rewrite <- Hu.
    unfold rstrip. rewrite reverse_involutive.
    destruct (lstrip_split (reverse (c :: s')))
      as (_ & _ & _ & [He' | (c' & s'' & He' & Hc')]);
      rewrite He'; [done|].
    by rewrite lstrip_fixed.
Qed.

Lemma strip_fixed (c c' : N) (s : pystr) :
  py_isspace c = false -> py_isspace c' = false ->
  strip (c :: s ++ [c']) = c :: s ++ [c'].
Proof.
  intros Hc Hc'. unfold strip. rewrite lstrip_fixed by done.
  by apply (rstrip_fixed c' (c :: s)).
Qed.

(** A [```json] fence, white space, a closing fence: all of it is removed,
    whatever the text in between. *)
Lemma clean_response_json_fence (ws1 ws2 t : pystr) :
  all_space ws1 -> all_space ws2 ->
  clean_response (FENCE_JSON ++ ws1 ++ t ++ ws2 ++ FENCE) = strip t.
Proof.
  intros H1 H2. unfold clean_response.
  assert (strip (FENCE_JSON ++ ws1 ++ t ++ ws2 ++ FENCE)
          = FENCE_JSON ++ ws1 ++ t ++ ws2 ++ FENCE) as ->.
  { replace (FENCE_JSON ++ ws1 ++ t ++ ws2 ++ FENCE)
      with (96%N :: (str "``json" ++ ws1 ++ t ++ ws2 ++ str "``") ++ [96%N]).
    - by apply strip_fixed.
    - change FENCE_JSON with (96%N :: str "``json").
      change FENCE with (str "``" ++ [96%N]).
      by rewrite <- !app_assoc. }
  rewrite startswith_app, replace_first_prefix.
  rewrite !(app_assoc _ _ FENCE), (app_assoc ws1).
  rewrite endswith_app, rsplit1_suffix.
  rewrite <- app_assoc. by apply strip_padded.
Qed.

(** A text that carries no fence is only trimmed. *)
Lemma clean_response_plain (t : pystr) :
  startswith FENCE_JSON (strip t) = false ->
  endswith FENCE (strip t) = false ->
  clean_response t = strip t.
Proof.
  intros Hs He. unfold clean_response. rewrite Hs, He. apply strip_idemp.
Qed.

(** ** Dictionaries *)

Lemma dict_get_set_eq (k : pystr) (v : pyval) (d : pydict) :
  dict_get k (dict_set k v d) = Some v.
Proof.
  induction d as [|[k' v'] d IH]; simpl.
  - by rewrite bool_decide_eq_true_2.
  - destruct (bool_decide (k' = k)) eqn:E; simpl; by rewrite E.
Qed.

Lemma dict_get_set_ne (k k' : pystr) (v : pyval) (d : pydict) :
  k <> k' -> dict_get k' (dict_set k v d) = dict_get k' d.
Proof.
  intros Hne. induction d as [|[k0 v0] d IH]; simpl.
  - by rewrite bool_decide_eq_false_2.
  - destruct (bool_decide (k0 = k)) eqn:E; simpl.
    + apply bool_decide_eq_true_1 in E as ->.
      by rewrite !bool_decide_eq_false_2.
    + by rewrite IH.
Qed.

Lemma dict_without_set (k : pystr) (v : pyval) (d : pydict) :
  dict_without k (dict_set k v d) = dict_without k d.
Proof.
  unfold dict_without. induction d as [|[k' v'] d IH]; cbn [dict_set].
  - by rewrite filter_cons_False, filter_nil by (simpl; tauto).
  - destruct (bool_decide (k' = k)) eqn:E.
    + apply bool_decide_eq_true_1 in E as ->.
      by rewrite !filter_cons_False by (simpl; tauto).
    + apply bool_decide_eq_false_1 in E.
      by rewrite !filter_cons_True, IH by done.
Qed.

Lemma dict_get_without (k k' : pystr) (d : pydict) :
  k' <> k -> dict_get k' (dict_without k d) = dict_get k' d.
Proof.
  intros Hne. unfold dict_without. induction d as [|[k0 v0] d IH]; [done|].
  destruct (decide (k0 = k)) as [->|Hk].
  - rewrite filter_cons_False by (simpl; tauto). simpl.
    by rewrite bool_decide_eq_false_2.
  - rewrite filter_cons_True by done. simpl. by rewrite IH.
Qed.

(** Two dictionaries that agree outside [k] agree on every other key. *)
Lemma dict_without_get (k k' : pystr) (d d' : pydict) :
  dict_without k d = dict_without k d' -> k' <> k -> dict_get k' d = dict_get k' d'.
Proof.
  intros H Hne.
  by rewrite <- (dict_get_without k k' d), <- (dict_get_without k k' d'), H.
Qed.

(** [enter] reads the transcript and the identifier only. *)
Lemma enter_frame (i : nat) (d d' : pydict) :
  dict_without K_llm_analysis d = dict_without K_llm_analysis d' ->
  enter i d = enter i d'.
Proof.
  intros H. unfold enter, dict_get_py, dict_get_default.
  by rewrite (dict_without_get _ K_transcript _ _ H),
             (dict_without_get _ K_id _ _ H).
Qed.

(** ** Requests in the trace *)

Lemma requests_of_app (i : nat) (tr tr' : list event) :
  requests_of i (tr ++ tr') = (requests_of i tr + requests_of i tr')%nat.
Proof. unfold requests_of. by rewrite filter_app, length_app. Qed.

Lemma annotate_prints (loads : decoder) (i j : nat) (cid : pyval) (r : client_result) :
  is_request_of j (annotate loads i cid r).2 = false.
Proof.
  unfold annotate, try_block.
  destruct r as [[text|]|msg]; simpl; try done.
  by destruct (loads (clean_response text)).
Qed.

(** ** What the decoder accepts *)

Lemma ends_with_suffix (P : N -> Prop) (s s' r : pystr) :
  ends_with P s' r -> s' `suffix_of` s -> ends_with P s r.
Proof. intros (c & Hc & HP) Hs. exists c. split; [by etrans|done]. Qed.

Lemma ends_with_rest (P : N -> Prop) (s r : pystr) :
  ends_with P s r -> r `suffix_of` s.
Proof. intros (c & Hc & _). etrans; [|done]. by apply suffix_cons_r. Qed.

Lemma ends_with_weaken (P Q : N -> Prop) (s r : pystr) :
  (forall c, P c -> Q c) -> ends_with P s r -> ends_with Q s r.
Proof. intros H (c & Hc & HP). exists c. eauto. Qed.

Lemma skip_ws_suffix (s : pystr) : skip_ws s `suffix_of` s.
Proof.
  induction s as [|c s IH]; simpl; [done|].
  destruct (is_json_ws c); [by apply suffix_cons_r | done].
Qed.

Lemma skip_ws_nil (s : pystr) :
  skip_ws s = [] -> Forall (fun c => is_json_ws c = true) s.
Proof.
  induction s as [|x s IH]; simpl; [constructor|].
  destruct (is_json_ws x) eqn:Hx; [|done]. intros H. constructor; auto.
Qed.

Lemma span_digits_spec (s ds r : pystr) :
  span_digits s = (ds, r) ->
  s = ds ++ r /\ Forall (fun c => is_digit c = true) ds.
Proof.
  revert ds r. induction s as [|c s IH]; simpl; intros ds r.
  - intros [= <- <-]. by split.
  - destruct (is_digit c) eqn:Hc.
    + destruct (span_digits s) as [ds' r'] eqn:E. intros [= <- <-].
      destruct (IH _ _ eq_refl) as [-> Hds]. split; [done|by constructor].
    + intros [= <- <-]. by split.
Qed.

(** A run of digits that is not empty ends with a digit. *)
Lemma span_digits_ends (s ds r : pystr) (d : N) :
  span_digits s = (d :: ds, r) -> ends_with (fun c => is_digit c = true) s r.
Proof.
  intros H. destruct (span_digits_spec _ _ _ H) as [-> Hds].
  destruct (exists_last (l := d :: ds)) as (pre & c & E); [done|].
  rewrite E in *. rewrite Forall_app, Forall_singleton in Hds. destruct Hds as [_ Hc].
  exists c. split; [|exact Hc]. exists pre. by rewrite <- app_assoc.
Qed.

Lemma scan_sign_suffix (s : pystr) : (scan_sign s).2 `suffix_of` s.
Proof.
  destruct s as [|c r]; simpl; [done|].
  destruct (c =? 45)%N; simpl; [by apply suffix_cons_r | done].
Qed.

Lemma scan_int_ends (s ds r : pystr) :
  scan_int s = Some (ds, r) -> ends_with (fun c => is_digit c = true) s r.
Proof.
  destruct s as [|c s']; simpl; [done|].
  destruct (is_digit c) eqn:Hc; [|done].
  destruct (c =? 48)%N.
  - intros [= <- <-]. by exists c.
  - destruct (span_digits s') as [ds' r'] eqn:E.
    intros [= <- <-]. apply (span_digits_ends _ ds' _ c). simpl. by rewrite Hc, E.
Qed.

Lemma scan_frac_ends (s fd r : pystr) :
  scan_frac s = (fd, r) -> r = s \/ ends_with (fun c => is_digit c = true) s r.
Proof.
  destruct s as [|x s']; simpl; [intros [= <- <-]; by left|].
  destruct (x =? 46)%N; [|intros [= <- <-]; by left].
  destruct (span_digits s') as [[|d ds] r'] eqn:E; intros [= <- <-]; [by left|].
  right. eapply ends_with_suffix; [by eapply span_digits_ends|by apply suffix_cons_r].
Qed.

Lemma scan_exp_ends (s : pystr) (e : option Z) (r : pystr) :
  scan_exp s = (e, r) -> r = s \/ ends_with (fun c => is_digit c = true) s r.
Proof.
  destruct s as [|x s']; simpl; [intros [= <- <-]; by left|].
  destruct ((x =? 101) || (x =? 69))%N; [|intros [= <- <-]; by left].
  destruct (match s' with
            | [] => (false, s')
            | y :: r0 =>
                if (y =? 43)%N then (false, r0)
                else if (y =? 45)%N then (true, r0) else (false, s')
            end) as [eneg rs] eqn:Es.
  assert (rs `suffix_of` s') as Hrs.
  { destruct s' as [|y r0]; [by injection Es as <- <-|].
    destruct (y =? 43)%N; [injection Es as <- <-; by apply suffix_cons_r|].
    destruct (y =? 45)%N; injection Es as <- <-; [by apply suffix_cons_r|done]. }
  destruct (span_digits rs) as [[|d ds] r'] eqn:E; intros [= <- <-]; [by left|].
  right. eapply ends_with_suffix; [by eapply span_digits_ends|].
  etrans; [done|]. by apply suffix_cons_r.
Qed.

(** A number ends with a digit. *)
Lemma match_number_ends (s : pystr) (v : pyval) (r : pystr) :
  match_number s = Some (v, r) -> ends_with (fun c => is_digit c = true) s r.
Proof.
  unfold match_number. pose proof (scan_sign_suffix s) as Hsign.
  destruct (scan_sign s) as [neg s1]. simpl in Hsign.
  destruct (scan_int s1) as [[ids r1]|] eqn:Hi; [|done].
  destruct (scan_frac r1) as [fd r2] eqn:Hf.
  destruct (scan_exp r2) as [e r3] eqn:He.
  intros Hr. assert (r = r3) as -> by (destruct fd, e; by injection Hr).
  apply scan_int_ends in Hi. apply scan_frac_ends in Hf. apply scan_exp_ends in He.
  eapply ends_with_suffix; [|done].
  assert (ends_with (fun c => is_digit c = true) s1 r2) as H2.
  { destruct Hf as [->|Hf]; [done|].
    eapply ends_with_suffix; [done|]. by eapply ends_with_rest. }
  destruct He as [->|He]; [done|].
  eapply ends_with_suffix; [done|]. by eapply ends_with_rest.
Qed.

(** A string ends with its closing quote. *)
Lemma scanstring_ends (s : pystr) (b : nat) (acc v r : pystr) :
  scanstring s b acc = Scanned v r -> (34%N :: r) `suffix_of` s.
Proof.
  remember (length s) as n eqn:Hn. revert s Hn acc.
  induction n as [n IH] using lt_wf_ind. intros s -> acc.
  assert (forall s' acc', (length s' < length s)%nat -> s' `suffix_of` s ->
            scanstring s' b acc' = Scanned v r -> (34%N :: r) `suffix_of` s) as Hrec.
  { intros s' acc' Hlt Hsuf H. etrans; [|done]. by eapply IH. }
  clear IH.
  destruct s as [|c s']; simpl; [done|].
  destruct (c =? 34)%N eqn:Hq.
  { apply N.eqb_eq in Hq as ->. intros [= _ <-]. done. }
  destruct (c =? 92)%N.
  - destruct s' as [|e s'']; [done|].
    destruct (e =? 117)%N.
    + destruct s'' as [|h1 [|h2 [|h3 [|h4 [|x s3]]]]]; try done.
      destruct (hex4 h1 h2 h3 h4) as [uni|]; [|done].
      assert (forall acc', scanstring (x :: s3) b acc' = Scanned v r ->
                (34%N :: r) `suffix_of` c :: e :: h1 :: h2 :: h3 :: h4 :: x :: s3)
        as H3.
      { intros acc'. apply Hrec; [simpl; lia|]. by do 6 apply suffix_cons_r. }
      destruct s3 as [|b2 [|g1 [|g2 [|g3 [|g4 [|y s4]]]]]]; try apply H3.
      destruct (_ && _ && _ && _)%bool; [|apply H3].
      destruct (hex4 g1 g2 g3 g4) as [uni2|]; [|done].
      destruct (_ && _)%bool; [|apply H3].
      apply Hrec; [simpl; lia|]. by do 12 apply suffix_cons_r.
    + destruct (unescape e); [|done].
      apply Hrec; [simpl; lia|]. by do 2 apply suffix_cons_r.
  - destruct (c <=? 31)%N; [done|].
    apply Hrec; [simpl; lia|]. by apply suffix_cons_r.
Qed.

Lemma literal_ends (p s : pystr) (c : N) (pre : pystr) :
  startswith p s = true -> p = pre ++ [c] -> c <> 96%N ->
  ends_with (fun x => x <> 96%N) s (drop (length p) s).
Proof.
  intros Hs -> Hc. destruct (startswith_prefix _ _ Hs) as [s' ->].
  rewrite drop_app_length. exists c. split; [|done].
  exists pre. by rewrite <- app_assoc.
Qed.

Lemma digit_not_backtick (c : N) : is_digit c = true -> c <> 96%N.
Proof. intros H ->. done. Qed.

Lemma eqb_not_backtick (c k : N) : (c =? k)%N = true -> k <> 96%N -> c <> 96%N.
Proof. intros ->%N.eqb_eq. done. Qed.

Lemma suffix_skip_ws (a b s : pystr) (x : N) :
  skip_ws a = x :: b -> a `suffix_of` s -> (x :: b) `suffix_of` s.
Proof. intros E H. etrans; [|done]. rewrite <- E. apply skip_ws_suffix. Qed.

Lemma suffix_tail (b s : pystr) (x : N) : (x :: b) `suffix_of` s -> b `suffix_of` s.
Proof. intros H. etrans; [|done]. by apply suffix_cons_r. Qed.

(** A value ends with a character other than a backtick: a quote, a
    bracket, a brace, a digit or the last letter of a literal. *)
Lemma scan_ends (fuel : nat) :
  (forall s v r,
     scan_once fuel s = Scanned v r -> ends_with (fun c => c <> 96%N) s r)
  /\ (forall s acc v r,
        array_items fuel s acc = Scanned v r -> ends_with (fun c => c <> 96%N) s r)
  /\ (forall s acc v r,
        object_items fuel s acc = Scanned v r -> ends_with (fun c => c <> 96%N) s r).
Proof.
  induction fuel as [|fuel (IHv & IHa & IHo)]; [by repeat split|].
  split; [|split].
  - intros s v r. destruct s as [|c rest]; [done|]. cbn [scan_once].
    destruct (c =? 34)%N.
    { destruct (scanstring rest _ []) as [w r'|] eqn:E; [|done]. intros [= _ <-].
      exists 34%N. split; [|done]. apply suffix_cons_r. by eapply scanstring_ends. }
    destruct (c =? 123)%N.
    { destruct (skip_ws rest) as [|x r0] eqn:E; [done|].
      assert ((x :: r0) `suffix_of` c :: rest) as Hx
        by (eapply suffix_skip_ws; [done|by apply suffix_cons_r]).
      destruct (x =? 125)%N eqn:Hb.
      { intros [= _ <-]. exists x. split; [done|]. by eapply eqb_not_backtick. }
      destruct (x =? 34)%N; [|done]. intros H.
      eapply ends_with_suffix; [by eapply IHo|]. by eapply suffix_tail. }
    destruct (c =? 91)%N.
    { destruct (skip_ws rest) as [|x r0] eqn:E; [done|].
      assert ((x :: r0) `suffix_of` c :: rest) as Hx
        by (eapply suffix_skip_ws; [done|by apply suffix_cons_r]).
      destruct (x =? 93)%N eqn:Hb.
      { intros [= _ <-]. exists x. split; [done|]. by eapply eqb_not_backtick. }
      intros H. eapply ends_with_suffix; [by eapply IHa|done]. }
    destruct (startswith (str "null") (c :: rest)) eqn:H1.
    { intros [= _ <-].
      by apply (literal_ends (str "null") (c :: rest) 108%N (str "nul")). }
    destruct (startswith (str "true") (c :: rest)) eqn:H2.
    { intros [= _ <-].
      by apply (literal_ends (str "true") (c :: rest) 101%N (str "tru")). }
    destruct (startswith (str "false") (c :: rest)) eqn:H3.
    { intros [= _ <-].
      by apply (literal_ends (str "false") (c :: rest) 101%N (str "fals")). }
    destruct (startswith (str "NaN") (c :: rest)) eqn:H4.
    { intros [= _ <-].
      by apply (literal_ends (str "NaN") (c :: rest) 78%N (str "Na")). }
    destruct (startswith (str "Infinity") (c :: rest)) eqn:H5.
    { intros [= _ <-].
      by apply (literal_ends (str "Infinity") (c :: rest) 121%N (str "Infinit")). }
    destruct (startswith (str "-Infinity") (c :: rest)) eqn:H6.
    { intros [= _ <-].
      by apply (literal_ends (str "-Infinity") (c :: rest) 121%N (str "-Infinit")). }
    destruct (match_number (c :: rest)) as [[w r']|] eqn:E; [|done].
    intros [= _ <-]. eapply ends_with_weaken; [apply digit_not_backtick|].
    by eapply match_number_ends.
  - intros s acc v r. cbn [array_items].
    destruct (scan_once fuel s) as [w r1|] eqn:E; [|done].
    apply IHv, ends_with_rest in E.
    destruct (skip_ws r1) as [|x r'] eqn:Ews; [done|].
    pose proof (suffix_skip_ws _ _ _ _ Ews E) as Hx.
    destruct (x =? 93)%N eqn:Hb.
    { intros [= _ <-]. exists x. split; [done|]. by eapply eqb_not_backtick. }
    destruct (x =? 44)%N; [|done]. intros H.
    eapply ends_with_suffix; [by eapply IHa|].
    etrans; [apply skip_ws_suffix|]. by eapply suffix_tail.
  - intros s acc v r. cbn [object_items].
    destruct (scanstring s _ []) as [key r1|] eqn:E; [|done].
    apply scanstring_ends, suffix_tail in E.
    destruct (skip_ws r1) as [|x r'] eqn:Ews; [done|].
    pose proof (suffix_tail _ _ _ (suffix_skip_ws _ _ _ _ Ews E)) as Hx.
    destruct (x =? 58)%N; [|done].
    destruct (scan_once fuel (skip_ws r')) as [w rv|] eqn:Ev; [|done].
    apply IHv, ends_with_rest in Ev.
    assert (rv `suffix_of` s) as Hrv
      by (etrans; [done|]; etrans; [apply skip_ws_suffix|done]).
    destruct (skip_ws rv) as [|y r3] eqn:Ey; [done|].
    pose proof (suffix_skip_ws _ _ _ _ Ey Hrv) as Hy.
    destruct (y =? 125)%N eqn:Hb.
    { intros [= _ <-]. exists y. split; [done|]. by eapply eqb_not_backtick. }
    destruct (y =? 44)%N; [|done].
    destruct (skip_ws r3) as [|z r4] eqn:Ez; [done|].
    destruct (z =? 34)%N; [|done]. intros H.
    eapply ends_with_suffix; [by eapply IHo|].
    eapply suffix_tail, suffix_skip_ws; [done|]. by eapply suffix_tail.
Qed.

(** No value starts with a backtick. *)
Lemma scan_once_backtick (fuel : nat) (rest : pystr) (v : pyval) (r : pystr) :
  scan_once fuel (96%N :: rest) <> Scanned v r.
Proof. destruct fuel; [done|]. simpl. by destruct rest. Qed.

Lemma json_ws_not_backtick (c : N) : is_json_ws c = true -> c <> 96%N.
Proof. intros H ->. done. Qed.

Lemma startswith_head (p s : pystr) (a c : N) :
  c <> a -> startswith (a :: p) (c :: s) = false.
Proof. intros H. simpl. apply N.eqb_neq in H. by rewrite N.eqb_sym, H. Qed.

Lemma endswith_last (p s : pystr) (a c : N) :
  c <> a -> endswith (p ++ [a]) (s ++ [c]) = false.
Proof.
  intros H. unfold endswith. rewrite !reverse_app. by apply startswith_head.
Qed.

(** What [json_loads] decodes neither begins nor ends with a backtick, so
    it carries no fence. *)
Lemma decoded_has_no_fence (s : pystr) (v : pyval) :
  json_loads s = Decoded v ->
  startswith FENCE_JSON s = false /\ endswith FENCE s = false.
Proof.
  unfold json_loads. destruct (startswith [65279%N] s); [done|].
  destruct (scan_once _ (skip_ws s)) as [w r|] eqn:E; [|done].
  destruct (skip_ws r) eqn:Er; [|done]. intros _.
  split.
  - destruct s as [|c s']; [done|].
    change FENCE_JSON with (96%N :: str "``json"). apply startswith_head.
    intros ->. change (skip_ws (96%N :: s')) with (96%N :: s') in E.
    by apply scan_once_backtick in E.
  - destruct (proj1 (scan_ends _) _ _ _ E) as (c & Hc & Hne).
    pose proof (skip_ws_suffix s) as Hs.
    assert ((c :: r) `suffix_of` s) as [pre Hpre] by by etrans.
    change FENCE with (str "``" ++ [96%N]).
    destruct (decide (r = [])) as [->|Hr].
    + rewrite Hpre. by apply endswith_last.
    + destruct (exists_last Hr) as (r0 & x & ->).
      apply skip_ws_nil in Er. rewrite Forall_app, Forall_singleton in Er.
      destruct Er as [_ Hx].
      assert (s = (pre ++ c :: r0) ++ [x]) as ->
        by (by rewrite Hpre, <- app_assoc).
      by apply endswith_last, json_ws_not_backtick.
Qed.

(** ** The moves of a task *)

Section Batch_facts.
Variable loads : decoder.
Variable client : client_fn.
Variables prompt model : pystr.
Variable calls : list nat.
Variable h0 : list pydict.
Variable K : Z.

Local Abbreviation analyze_single_transcript :=
  (analyze_single_transcript loads client prompt model calls).
Local Abbreviation run := (run loads client prompt model calls).
Local Abbreviation transition := (transition loads client prompt model calls).
Local Abbreviation invariant := (invariant calls h0 K).
Local Abbreviation content_inv := (content_inv loads client prompt calls h0).
Local Abbreviation init := (init_state calls h0 K).

Lemma resumption_is_transition (i : nat) (st st' : state) :
  analyze_single_transcript i st = Some st' <-> transition i st st'.
Proof.
  unfold analyze_single_transcript. split.
  - destruct (failure st) eqn:Hf; [done|].
    destruct (calls !! i) as [r|] eqn:Hr; [|done]. simpl.
    destruct (tasks st !! i) as [t|] eqn:Ht; [|done]. simpl.
    destruct (heap st !! r) as [d|] eqn:Hd; [|done]. simpl.
    destruct t as [| |cid tx| |msg]; try done.
    + destruct (0 <? sem st) eqn:Hs; [|done].
      intros [= <-]. apply Z.ltb_lt in Hs. by eapply t_acquire.
    + destruct (enter i d) as [cid|msg|cid tx] eqn:He; intros [= <-].
      * by eapply t_skip.
      * by eapply t_attribute_error.
      * by eapply t_request.
    + destruct (annotate loads i cid (client i (prompt ++ tx))) as [v line] eqn:Ha.
      intros [= <-].
      replace v with (annotate loads i cid (client i (prompt ++ tx))).1
        by by rewrite Ha.
      replace line with (annotate loads i cid (client i (prompt ++ tx))).2
        by by rewrite Ha.
      by eapply t_response.
  - intros [r d Hf Hr Ht Hd Hs | r d cid Hf Hr Ht Hd He | r d msg Hf Hr Ht Hd He
           | r d cid tx Hf Hr Ht Hd He | r d cid tx Hf Hr Ht Hd];
      rewrite Hf, Hr; simpl; rewrite Ht; simpl; rewrite Hd; simpl.
    + apply Z.ltb_lt in Hs. by rewrite Hs.
    + by rewrite He.
    + by rewrite He.
    + by rewrite He.
    + by destruct (annotate loads i cid (client i (prompt ++ tx))).
Qed.

(** A property kept by every move holds along every schedule. *)
Lemma run_invariant (P : state -> Prop) :
  (forall i st st', P st -> transition i st st' -> P st') ->
  forall schedule st, P st -> P (run schedule st).
Proof.
  intros Hstep schedule. induction schedule as [|i rest IH]; intros st HP; [done|].
  simpl. apply IH.
  destruct (analyze_single_transcript i st) as [st'|] eqn:E; simpl; [|done].
  apply resumption_is_transition in E. by eapply Hstep.
Qed.

Lemma run_app (s1 s2 : list nat) (st : state) :
    run (s1 ++ s2) st = run s2 (run s1 st).
Proof.
  revert st. induction s1 as [|i s1 IH]; intros st; simpl; [done|]. apply IH.
Qed.

(** ** Invariants of the batch *)

Lemma filter_insert_length {A : Type} (f : A -> bool) (l : list A) (i : nat) (x y : A) :
  l !! i = Some x ->
  (length (filter (fun a => f a = true) (<[i := y]> l)) + (if f x then 1 else 0)
   = length (filter (fun a => f a = true) l) + (if f y then 1 else 0))%nat.
Proof.
  set (nx := if f x then _ else _). set (ny := if f y then _ else _).
  revert i. induction l as [|a l IH]; intros i Hi; [done|].
  destruct i as [|i]; simpl in Hi.
  - injection Hi as ->. change (<[0%nat := y]> (x :: l)) with (y :: l).
    rewrite !filter_cons. subst nx ny.
    destruct (f x) eqn:Hx, (f y) eqn:Hy;
      repeat case_decide; cbn [length]; try congruence; lia.
  - change (<[S i := y]> (a :: l)) with (a :: <[i := y]> l).
    rewrite !filter_cons. specialize (IH i Hi).
    case_decide; cbn [length]; lia.
Qed.

Lemma filter_replicate_false {A : Type} (f : A -> bool) (n : nat) (x : A) :
  f x = false -> filter (fun a => f a = true) (replicate n x) = [].
Proof.
  intros Hx. induction n as [|n IH]; simpl; [done|].
  rewrite filter_cons_False by congruence. done.
Qed.

Lemma total_weight_insert (l : list task_state) (i : nat) (t t' : task_state) :
  l !! i = Some t ->
  (total_weight (<[i := t']> l) + weight t = total_weight l + weight t')%nat.
Proof.
  revert i. induction l as [|a l IH]; intros i Hi; [done|].
  destruct i as [|i]; simpl in Hi.
  - injection Hi as ->. simpl. lia.
  - change (<[S i := t']> (a :: l)) with (a :: <[i := t']> l).
    cbn [total_weight]. specialize (IH i Hi). lia.
Qed.

Lemma in_flight_le_slots (l : list task_state) :
  (length (filter (fun t => is_in_flight t = true) l)
   <= length (filter (fun t => holds_slot t = true) l))%nat.
Proof.
  induction l as [|t l IH]; [done|]. rewrite !filter_cons.
  destruct t; repeat case_decide; simpl in *; try congruence; lia.
Qed.

Lemma invariant_init : 0 <= K -> invariant init.
Proof.
  intros HK. split; simpl.
  - apply length_replicate.
  - done.
  - unfold slots_held. simpl. rewrite filter_replicate_false by done. simpl. lia.
  - done.
  - intros _. by apply Forall_replicate.
  - intros i r t d0 _ Ht _. apply lookup_replicate in Ht as [-> _]. done.
Qed.

(** Writing the annotation leaves every other field of every record alone. *)
Lemma frame_write (h : list pydict) (r : nat) (d : pydict) (v : pyval) :
  h !! r = Some d ->
  map (dict_without K_llm_analysis) (<[r := dict_set K_llm_analysis v d]> h)
  = map (dict_without K_llm_analysis) h.
Proof.
  intros Hd. change (@map) with (@fmap list _).
  rewrite list_fmap_insert, dict_without_set.
  apply list_insert_id. by rewrite list_lookup_fmap, Hd.
Qed.

(** What [enter] finds in a record does not change during the run. *)
Lemma enter_stable (h : list pydict) (i r : nat) (d d0 : pydict) :
  map (dict_without K_llm_analysis) h = map (dict_without K_llm_analysis) h0 ->
  h !! r = Some d -> h0 !! r = Some d0 -> enter i d = enter i d0.
Proof.
  intros Hf Hd Hd0. apply enter_frame.
  assert (map (dict_without K_llm_analysis) h !! r
          = map (dict_without K_llm_analysis) h0 !! r) as E by by rewrite Hf.
  change (@map) with (@fmap list _) in E.
  rewrite !list_lookup_fmap, Hd, Hd0 in E. by injection E.
Qed.

Lemma task_inv_requests (i : nat) (d0 : pydict) (t : task_state) (tr tr' : list event) :
  requests_of i tr' = requests_of i tr -> task_inv i d0 t tr -> task_inv i d0 t tr'.
Proof.
  intros E. unfold task_inv.
  destruct t; try destruct (enter i d0); by rewrite ?E.
Qed.

Lemma requests_of_other (i : nat) (tr : list event) (e : event) :
  is_request_of i e = false -> requests_of i (tr ++ [e]) = requests_of i tr.
Proof.
  intros He. rewrite requests_of_app. unfold requests_of at 2.
  rewrite filter_cons_False by congruence. simpl. lia.
Qed.

Lemma heap_lookup_frame (st : state) (r : nat) (d0 : pydict) :
  invariant st -> h0 !! r = Some d0 -> exists d, heap st !! r = Some d.
Proof.
  intros Hinv Hd0. apply lookup_lt_is_Some.
  rewrite <- (length_map (dict_without K_llm_analysis)).
  rewrite (inv_frame _ _ _ _ Hinv), length_map. by eapply lookup_lt_Some.
Qed.

Lemma requests_of_request (i j : nat) (tr : list event) (cid : pyval) (c : pystr) :
  requests_of i (tr ++ [PrintAnalyzing j cid; GenerateContent j model c])
  = (requests_of i tr + (if bool_decide (j = i) then 1 else 0))%nat.
Proof.
  rewrite requests_of_app. f_equal. unfold requests_of.
  rewrite filter_cons_False by done. rewrite filter_cons. simpl.
  destruct (bool_decide (j = i)); by case_decide.
Qed.

(** The moves of the other tasks ask nothing of the client for task [i]. *)
Lemma transition_requests_other (i j : nat) (st st' : state) :
  transition j st st' -> i <> j ->
  requests_of i (trace st') = requests_of i (trace st).
Proof.
  intros Ht Hne. destruct Ht; simpl; try done.
  - by apply requests_of_other.
  - rewrite requests_of_request, bool_decide_eq_false_2 by done. lia.
  - apply requests_of_other, annotate_prints.
Qed.

Lemma transition_tasks (j : nat) (st st' : state) :
    transition j st st' ->
    exists t t', tasks st !! j = Some t /\ tasks st' = <[j := t']> (tasks st).
  Proof. intros Ht. destruct Ht; simpl; eauto. Qed.

Lemma transition_frame (j : nat) (st st' : state) :
    transition j st st' ->
    map (dict_without K_llm_analysis) (heap st')
    = map (dict_without K_llm_analysis) (heap st).
  Proof. intros Ht. destruct Ht; simpl; try done; by apply frame_write. Qed.

Lemma transition_sem (j : nat) (st st' : state) :
  transition j st st' ->
  sem st' + Z.of_nat (slots_held st') = sem st + Z.of_nat (slots_held st)
  /\ (0 <= sem st -> 0 <= sem st').
Proof.
  intros Ht. unfold slots_held.
  destruct Ht as [r d Hf Hr Ht Hd Hs | r d cid Hf Hr Ht Hd He | r d msg Hf Hr Ht Hd He
                 | r d cid tx Hf Hr Ht Hd He | r d cid tx Hf Hr Ht Hd]; simpl;
    match goal with
    | |- context [<[j := ?t']> _] =>
        pose proof (filter_insert_length holds_slot _ j _ t' Ht) as E; simpl in E
    end; lia.
Qed.

(** The moving task itself ends where [task_inv] says. *)
Lemma transition_task_own (j r : nat) (d0 : pydict) (st st' : state) (t' : task_state) :
  invariant st -> transition j st st' ->
  calls !! j = Some r -> h0 !! r = Some d0 -> tasks st' !! j = Some t' ->
  task_inv j d0 t' (trace st').
Proof.
  intros Hinv Ht Hr Hd0.
  destruct Ht as [r' d Hf Hr' Ht Hd Hs | r' d cid Hf Hr' Ht Hd He
                 | r' d msg Hf Hr' Ht Hd He | r' d cid tx Hf Hr' Ht Hd He
                 | r' d cid tx Hf Hr' Ht Hd]; simpl;
    assert (r' = r) as -> by congruence;
    pose proof (inv_task _ _ _ _ Hinv j r _ d0 Hr Ht Hd0) as Hold; simpl in Hold;
    rewrite list_lookup_insert_eq by (by eapply lookup_lt_Some);
    intros [= <-]; simpl;
    try (pose proof (enter_stable _ j r d d0 (inv_frame _ _ _ _ Hinv) Hd Hd0) as Hen;
         rewrite <- Hen, He).
  - done.
  - by rewrite requests_of_other.
  - done.
  - split; [done|]. rewrite requests_of_request, bool_decide_eq_true_2 by done. lia.
  - destruct Hold as [-> Hq]. by rewrite requests_of_other by apply annotate_prints.
Qed.

Lemma invariant_step (j : nat) (st st' : state) :
  invariant st -> transition j st st' -> invariant st'.
Proof.
  intros Hinv Ht.
  destruct (transition_tasks _ _ _ Ht) as (t & t' & Hj & Htasks).
  destruct (transition_sem _ _ _ Ht) as [Hsem Hnn].
  split.
  - rewrite Htasks, length_insert. apply Hinv.
  - rewrite (transition_frame _ _ _ Ht). apply Hinv.
  - rewrite Hsem. apply Hinv.
  - apply Hnn, Hinv.
  - intros Hf. destruct Ht; simpl in *; try done;
      (apply Forall_insert; [by apply Hinv | done]).
  - intros i r ti d0 Hr Hti Hd0. destruct (decide (i = j)) as [->|Hne].
    + by eapply transition_task_own.
    + rewrite Htasks, list_lookup_insert_ne in Hti by done.
      eapply task_inv_requests; [by eapply transition_requests_other|].
      by eapply Hinv.
Qed.

(** The invariant holds whatever the schedule. *)
Lemma invariant_run (schedule : list nat) :
  0 <= K -> invariant (run schedule init).
Proof.
  intros HK. apply run_invariant; [|by apply invariant_init].
  intros i st st' Hinv Ht. by eapply invariant_step.
Qed.

Lemma content_init : content_inv init.
Proof.
  split; [|done]. intros i r t d0 _ Ht Hd0. simpl in *.
  apply lookup_replicate in Ht as [-> _]. done.
Qed.

Lemma content_step (j : nat) (st st' : state) :
  NoDup calls -> invariant st -> content_inv st ->
  transition j st st' -> content_inv st'.
Proof.
  intros Hnd Hinv [Hc Hu] Ht.
  destruct Ht as [r d Hf Hr Ht Hd Hs | r d cid Hf Hr Ht Hd He
                 | r d msg Hf Hr Ht Hd He | r d cid tx Hf Hr Ht Hd He
                 | r d cid tx Hf Hr Ht Hd];
    (split;
     [ intros i' r' t' d0 Hr' Ht' Hd0; destruct (decide (i' = j)) as [->|Hne]
     | intros r' Hr' ]); simpl in *.
  (* the moving task *)
  all: try (assert (r' = r) as -> by congruence;
            rewrite list_lookup_insert_eq in Ht' by (by eapply lookup_lt_Some);
            injection Ht' as <-;
            pose proof (Hc j r _ d0 Hr Ht Hd0) as Hold; simpl in Hold;
            pose proof (inv_task _ _ _ _ Hinv j r _ d0 Hr Ht Hd0) as Htask;
            simpl in Htask;
            assert (d = d0) as -> by congruence; simpl;
            rewrite ?list_lookup_insert_eq by (by eapply lookup_lt_Some);
            unfold analyzed, expected_annotation;
            first [ done | by rewrite He | by destruct Htask as [-> _] ]).
  (* another task *)
  all: try (rewrite list_lookup_insert_ne in Ht' by done;
            assert (r <> r') by (intros ->; apply Hne; by eapply NoDup_lookup);
            rewrite ?list_lookup_insert_ne by done; by eapply Hc).
  (* a record no task refers to *)
  all: assert (r <> r') by (intros ->; apply Hr'; by eapply list_elem_of_lookup_2);
       rewrite ?list_lookup_insert_ne by done; by apply Hu.
Qed.

(** ** Progress and termination *)

Lemma forallb_false_lookup {A : Type} (f : A -> bool) (l : list A) :
  forallb f l = false -> exists i x, l !! i = Some x /\ f x = false.
Proof.
  induction l as [|a l IH]; simpl; [done|].
  destruct (f a) eqn:Ha; simpl.
  - intros H. destruct (IH H) as (i & x & Hi & Hx). by exists (S i), x.
  - intros _. by exists 0%nat, a.
Qed.

Lemma forallb_true_lookup {A : Type} (f : A -> bool) (l : list A) (i : nat) (x : A) :
  forallb f l = true -> l !! i = Some x -> f x = true.
Proof.
  revert i. induction l as [|a l IH]; intros i; simpl; [done|].
  intros [Ha Hl]%andb_prop. destruct i as [|i]; simpl.
  - by intros [= <-].
  - by apply IH.
Qed.

Lemma filter_none_length {A : Type} (f : A -> bool) (l : list A) :
  (forall i x, l !! i = Some x -> f x = false) ->
  length (filter (fun a => f a = true) l) = 0%nat.
Proof.
  induction l as [|a l IH]; intros H; [done|].
  rewrite filter_cons_False.
  - apply IH. intros i x. apply (H (S i)).
  - rewrite (H 0%nat a); done.
Qed.

Lemma enter_text (i : nat) (d : pydict) (msg : pystr) :
  transcript_is_text d = true -> enter i d <> EntryAttributeError msg.
Proof.
  unfold transcript_is_text, enter.
  destruct (dict_get_py K_transcript d) as [|b|z|f|s|l|l]; try done.
  intros _. simpl. destruct (negb (bool_decide (s = []))); simpl; [|done].
  by destruct (negb (negb (bool_decide (strip s = [])))).
Qed.

(** Every move brings the batch closer to its end. *)
Lemma transition_remaining (j : nat) (st st' : state) :
  transition j st st' -> (remaining st' < remaining st)%nat.
Proof.
  intros Ht. unfold remaining.
  destruct Ht as [r d Hf Hr Ht Hd Hs | r d cid Hf Hr Ht Hd He | r d msg Hf Hr Ht Hd He
                 | r d cid tx Hf Hr Ht Hd He | r d cid tx Hf Hr Ht Hd]; simpl;
    match goal with
    | |- context [<[j := ?t']> _] =>
        pose proof (total_weight_insert _ j _ t' Ht) as E; simpl in E
    end; lia.
Qed.

(** A task's record can always be read. *)
Lemma task_record (st : state) (i : nat) (t : task_state) :
  invariant st -> valid_calls calls h0 -> tasks st !! i = Some t ->
  exists r d, calls !! i = Some r /\ heap st !! r = Some d.
Proof.
  intros Hinv Hv Ht.
  destruct (lookup_lt_is_Some_2 calls i) as [r Hr].
  { rewrite <- (inv_tasks _ _ _ _ Hinv). by eapply lookup_lt_Some. }
  assert (r < length h0)%nat as Hlt.
  { unfold valid_calls in Hv. rewrite Forall_lookup in Hv. by eapply Hv. }
  destruct (lookup_lt_is_Some_2 h0 r Hlt) as [d0 Hd0].
  destruct (heap_lookup_frame _ _ _ Hinv Hd0) as [d Hd]. eauto.
Qed.

(** With at least one slot, an unfinished batch that has not failed can
    always make a move: no deadlock. *)
Lemma progress (st : state) :
  invariant st -> valid_calls calls h0 -> 1 <= K ->
  failure st = None -> forallb is_returned (tasks st) = false ->
  exists j st', transition j st st'.
Proof.
  intros Hinv Hv HK Hf Hnot.
  destruct (decide (Exists (fun t => holds_slot t = true) (tasks st))) as [Hex|Hno].
  - apply Exists_exists in Hex as (t & Hin & Ht).
    apply list_elem_of_lookup in Hin as [j Hj].
    destruct (task_record _ _ _ Hinv Hv Hj) as (r & d & Hr & Hd).
    exists j. destruct t as [| |cid tx| |msg]; try done.
    + destruct (enter j d) as [cid|msg|cid tx] eqn:He; eexists.
      * by eapply t_skip.
      * by eapply t_attribute_error.
      * by eapply t_request.
    + eexists. by eapply t_response.
  - destruct (forallb_false_lookup _ _ Hnot) as (j & t & Hj & Ht).
    destruct (task_record _ _ _ Hinv Hv Hj) as (r & d & Hr & Hd).
    assert (slots_held st = 0%nat) as Hzero.
    { apply filter_none_length. intros i x Hi.
      destruct (holds_slot x) eqn:Hx; [|done]. exfalso. apply Hno.
      apply Exists_exists. exists x. split; [|done].
      by eapply list_elem_of_lookup_2. }
    pose proof (inv_sem _ _ _ _ Hinv) as Hsem. rewrite Hzero in Hsem.
    pose proof (inv_failed _ _ _ _ Hinv Hf) as Hnf. rewrite Forall_lookup in Hnf.
    specialize (Hnf j t Hj).
    destruct t as [| |cid tx| |msg]; try done.
    + exists j. eexists. eapply t_acquire; eauto. lia.
    + exfalso. apply Hno. apply Exists_exists. exists Holding.
      split; [by eapply list_elem_of_lookup_2 | done].
    + exfalso. apply Hno. apply Exists_exists. exists (InFlight cid tx).
      split; [by eapply list_elem_of_lookup_2 | done].
Qed.

(** With text transcripts no task raises. *)
Lemma transition_no_failure (j : nat) (st st' : state) :
  invariant st -> text_transcripts calls h0 -> valid_calls calls h0 ->
  transition j st st' -> failure st' = None.
Proof.
  intros Hinv Htext Hv Ht. destruct Ht as [| |r d msg Hf Hr Ht Hd He| |]; try done.
  exfalso. unfold text_transcripts, valid_calls in *.
  rewrite Forall_lookup in Htext, Hv.
  destruct (lookup_lt_is_Some_2 h0 r (Hv _ _ Hr)) as [d0 Hd0].
  rewrite (enter_stable (heap st) j r d d0 (inv_frame _ _ _ _ Hinv) Hd Hd0) in He.
  by eapply enter_text; [eapply Htext|].
Qed.

Lemma no_failure_run (schedule : list nat) :
  0 <= K -> text_transcripts calls h0 -> valid_calls calls h0 ->
  failure (run schedule init) = None.
Proof.
  intros HK Htext Hv.
  apply (run_invariant
           (fun st => invariant st /\ failure st = None));
    [|by split; [apply invariant_init|]].
  intros i st st' [Hinv Hf] Ht. split.
  - by eapply invariant_step.
  - by eapply transition_no_failure.
Qed.

(** ** The batch as a whole *)

Lemma content_run (schedule : list nat) :
  0 <= K -> NoDup calls ->
  content_inv (run schedule init).
Proof.
  intros HK Hnd.
  apply (run_invariant
           (fun st => invariant st
                      /\ content_inv st)).
  - intros i st st' [Hinv Hc] Ht. split.
    + by eapply invariant_step.
    + by eapply content_step.
  - split; [by apply invariant_init | apply content_init].
Qed.

(** Other fields are never touched, with no assumption at all. *)
Lemma frame_run (schedule : list nat) (st : state) :
  map (dict_without K_llm_analysis) (heap (run schedule st))
  = map (dict_without K_llm_analysis) (heap st).
Proof.
  apply (run_invariant
           (fun st' => map (dict_without K_llm_analysis) (heap st')
                       = map (dict_without K_llm_analysis) (heap st))); [|done].
  intros i s s' Hs Ht. by rewrite (transition_frame _ _ _ Ht).
Qed.

(** When [gather] returns, every task has returned. *)
Lemma gather_returns (st : state) (results : list nat) :
  gather calls st = Some (Returns results) ->
  results = calls /\ failure st = None
  /\ forall i t, tasks st !! i = Some t -> t = Returned.
Proof.
  unfold gather. destruct (failure st); [done|].
  destruct (forallb is_returned (tasks st)) eqn:Hall; [|done].
  intros [= <-]. split; [done|]. split; [done|].
  intros i t Ht. pose proof (forallb_true_lookup _ _ _ _ Hall Ht). by destruct t.
Qed.

(** What a record holds once the batch has returned. *)
Lemma final_record (schedule results : list nat) (i r : nat) (d0 : pydict) :
  0 <= K -> NoDup calls ->
  gather calls (run schedule init) = Some (Returns results) ->
  calls !! i = Some r -> h0 !! r = Some d0 ->
  heap (run schedule init) !! r = Some (analyzed loads client prompt i d0).
Proof.
  intros HK Hnd Hg Hr Hd0.
  destruct (gather_returns _ _ Hg) as (_ & _ & Hret).
  destruct (content_run schedule HK Hnd) as [Hc _].
  pose proof (invariant_run schedule HK) as Hinv.
  destruct (lookup_lt_is_Some_2 (tasks (run schedule init)) i) as [t Ht].
  { rewrite (inv_tasks _ _ _ _ Hinv). by eapply lookup_lt_Some. }
  pose proof (Hc i r t d0 Hr Ht Hd0) as Hh.
  by rewrite (Hret _ _ Ht) in Hh.
Qed.

(** The records the batch returns, read off the final store. *)
Lemma returned_records (schedule : list nat) (results : list nat) :
  0 <= K -> valid_calls calls h0 -> NoDup calls ->
  gather calls (run schedule init) = Some (Returns results) ->
  map (deref (heap (run schedule init))) results
  = imap (analyzed loads client prompt) (map (deref h0) calls).
Proof.
  intros HK Hv Hnd Hg.
  destruct (gather_returns _ _ Hg) as (-> & _ & Hret).
  destruct (content_run schedule HK Hnd) as [Hc _].
  pose proof (invariant_run schedule HK) as Hinv.
  apply list_eq. intros i.
  rewrite list_lookup_imap, !list_lookup_fmap.
  destruct (calls !! i) as [r|] eqn:Hr; simpl; [|done].
  unfold valid_calls in Hv. rewrite Forall_lookup in Hv.
  destruct (lookup_lt_is_Some_2 h0 r (Hv _ _ Hr)) as [d0 Hd0].
  destruct (lookup_lt_is_Some_2 (tasks (run schedule init)) i) as [t Ht].
  { rewrite (inv_tasks _ _ _ _ Hinv). by eapply lookup_lt_Some. }
  pose proof (Hc i r t d0 Hr Ht Hd0) as Hh.
  rewrite (Hret _ _ Ht) in Hh. simpl in Hh.
  unfold deref. by rewrite Hh, Hd0.
Qed.

(** A schedule makes the batch progress or leaves the state as it is. *)
Lemma run_remaining (schedule : list nat) (st : state) :
  (remaining (run schedule st) < remaining st)%nat \/ run schedule st = st.
Proof.
  revert st. induction schedule as [|i rest IH]; intros st; [by right|].
  simpl. destruct (analyze_single_transcript i st) as [st'|] eqn:E; simpl; [|apply IH].
  apply resumption_is_transition, transition_remaining in E.
  left. destruct (IH st') as [Hlt| ->]; lia.
Qed.

(** One turn for every task: unless the batch is over, some task moves. *)
Lemma round_progress (st : state) :
  invariant st -> valid_calls calls h0 -> 1 <= K -> failure st = None ->
  forallb is_returned (tasks st) = false ->
  (remaining (run (seq 0 (length calls)) st) < remaining st)%nat.
Proof.
  intros Hinv Hv HK Hf Hnot.
  destruct (progress st Hinv Hv HK Hf Hnot) as (j & st' & Ht).
  assert (j < length calls)%nat as Hj.
  { destruct Ht; by eapply lookup_lt_Some. }
  assert (seq 0 (length calls) = seq 0 j ++ j :: seq (S j) (length calls - S j)) as ->.
  { replace (length calls) with (j + S (length calls - S j))%nat at 1 by lia.
    by rewrite seq_app. }
  rewrite run_app.
  destruct (run_remaining (seq 0 j) st) as [Hlt|Heq].
  - destruct (run_remaining (j :: seq (S j) (length calls - S j)) (run (seq 0 j) st))
      as [Hlt'|Heq']; [lia|]. by rewrite Heq'.
  - rewrite Heq. simpl. apply resumption_is_transition in Ht as Hs. rewrite Hs. simpl.
    apply transition_remaining in Ht.
    destruct (run_remaining (seq (S j) (length calls - S j)) st') as [Hlt'|Heq'];
      [lia|]. by rewrite Heq'.
Qed.

Lemma run_round_robin (rounds : nat) (st : state) :
  run (round_robin (length calls) (S rounds)) st
  = run (round_robin (length calls) rounds) (run (seq 0 (length calls)) st).
Proof. unfold round_robin. simpl. by rewrite run_app. Qed.

(** When no task is left with a move to make, all have returned. *)
Lemma remaining_zero (st : state) :
  invariant st -> failure st = None -> remaining st = 0%nat ->
  forallb is_returned (tasks st) = true.
Proof.
  intros Hinv Hf. pose proof (inv_failed _ _ _ _ Hinv Hf) as Hnf.
  unfold remaining. induction Hnf as [|t l Ht _ IH]; [done|].
  simpl. intros H. destruct t; simpl in *; try done; try lia.
  apply IH. lia.
Qed.

(** Taking turns, the tasks end the batch within three rounds per task,
    from wherever the batch stands. *)
Lemma round_robin_completes (rounds : nat) (st : state) :
  invariant st -> valid_calls calls h0 -> text_transcripts calls h0 -> 1 <= K ->
  failure st = None -> (remaining st <= rounds)%nat ->
  gather calls (run (round_robin (length calls) rounds) st) = Some (Returns calls).
Proof.
  intros Hinv Hv Htext HK. revert st Hinv.
  assert (forall st schedule, invariant st -> failure st = None ->
            invariant (run schedule st) /\ failure (run schedule st) = None) as Hkeep.
  { intros st schedule Hinv Hf.
    apply (run_invariant (fun s => invariant s /\ failure s = None)); [|done].
    intros i s s' [Hi Hfs] Ht. split.
    - by eapply invariant_step.
    - by eapply transition_no_failure. }
  assert (forall st schedule, failure st = None ->
            forallb is_returned (tasks st) = true ->
            gather calls (run schedule st) = Some (Returns calls)) as Hover.
  { intros st schedule Hf Hall.
    destruct (run_remaining schedule st) as [Hlt| ->].
    - exfalso. assert (remaining st = 0%nat); [|lia].
      unfold remaining. clear Hlt. induction (tasks st) as [|t l IH]; [done|].
      simpl in *. apply andb_prop in Hall as [Ht Hl]. destruct t; try done.
      by apply IH.
    - unfold gather. by rewrite Hf, Hall. }
  induction rounds as [|rounds IH]; intros st Hinv Hf Hrem.
  - apply Hover; [done|]. apply remaining_zero; [done..|lia].
  - destruct (forallb is_returned (tasks st)) eqn:Hall; [by apply Hover|].
    rewrite run_round_robin.
    destruct (Hkeep st (seq 0 (length calls)) Hinv Hf) as [Hinv' Hf'].
    apply IH; [done..|].
    pose proof (round_progress st Hinv Hv HK Hf Hall). lia.
Qed.

Lemma remaining_init : remaining init = (3 * length calls)%nat.
Proof.
  unfold remaining. simpl. induction (length calls) as [|n IH]; [done|].
  simpl. rewrite IH. lia.
Qed.

(** After any schedule, three rounds per task end the batch. *)
Lemma fair_completion (schedule : list nat) :
  1 <= K -> valid_calls calls h0 -> text_transcripts calls h0 ->
  gather calls (run (schedule ++ round_robin (length calls) (3 * length calls)) init)
  = Some (Returns calls).
Proof.
  intros HK Hv Htext. rewrite run_app.
  apply round_robin_completes; try done.
  - apply invariant_run. lia.
  - apply no_failure_run; [lia|done..].
  - destruct (run_remaining schedule init) as [Hlt|Heq].
    + rewrite remaining_init in Hlt. lia.
    + rewrite Heq, remaining_init. lia.
Qed.

(** A state in which no task can move is one where the batch is over. *)
Lemma stuck_is_over (schedule : list nat) :
  1 <= K -> valid_calls calls h0 -> text_transcripts calls h0 ->
  (forall j, analyze_single_transcript j (run schedule init) = None) ->
  gather calls (run schedule init) = Some (Returns calls).
Proof.
  intros HK Hv Htext Hstuck.
  pose proof (invariant_run schedule
                ltac:(lia)) as Hinv.
  pose proof (no_failure_run schedule
                ltac:(lia) Htext Hv) as Hf.
  unfold gather. rewrite Hf.
  destruct (forallb is_returned (tasks (run schedule init))) eqn:Hall; [done|].
  destruct (progress _ Hinv Hv HK Hf Hall)
    as (j & st' & Ht).
  apply resumption_is_transition in Ht. by rewrite Hstuck in Ht.
Qed.

(** At the end every task has asked the client once, unless its record
    was skipped. *)
Lemma requests_at_end (schedule : list nat) (i r : nat) (d0 : pydict) :
  0 <= K ->
  gather calls (run schedule init) = Some (Returns calls) ->
  calls !! i = Some r -> h0 !! r = Some d0 ->
  requests_of i (trace (run schedule init))
  = if is_skipped_record i d0 then 0%nat else 1%nat.
Proof.
  intros HK Hg Hr Hd0.
  destruct (gather_returns _ _ Hg) as (_ & _ & Hret).
  pose proof (invariant_run schedule HK) as Hinv.
  destruct (lookup_lt_is_Some_2 (tasks (run schedule init)) i) as [t Ht].
  { rewrite (inv_tasks _ _ _ _ Hinv). by eapply lookup_lt_Some. }
  pose proof (inv_task _ _ _ _ Hinv i r t d0 Hr Ht Hd0) as Htask.
  rewrite (Hret _ _ Ht) in Htask. simpl in Htask.
  unfold is_skipped_record. by destruct (enter i d0).
Qed.
End Batch_facts.

(** ** [analyze_all_calls] *)

Lemma analyze_all_calls_gather (loads : decoder) (client : client_fn) (key : pystr)
    (h0 : list pydict) (calls : list nat) (prompt model : pystr) (K : Z)
    (schedule : list nat) :
  0 <= K ->
  analyze_all_calls true (Some key) loads client h0 calls prompt model K schedule
  = let st := run loads client prompt model calls schedule (init_state calls h0 K) in
    match gather calls st with
    | Some (Returns results) => BatchReturns results (heap st) (trace st)
    | Some (Raises msg) => BatchRaises msg (heap st) (trace st)
    | None => BatchPending st
    end.
Proof.
  intros HK. unfold analyze_all_calls. simpl.
  by rewrite (proj2 (Z.ltb_ge K 0) HK).
Qed.

(** With text transcripts the batch never raises. *)
Lemma batch_never_raises (loads : decoder) (client : client_fn) (key : pystr)
    (h0 : list pydict) (calls : list nat) (prompt model : pystr) (K : Z)
    (schedule : list nat) (msg : pystr) (h : list pydict) (tr : list event) :
  0 <= K -> valid_calls calls h0 -> text_transcripts calls h0 ->
  analyze_all_calls true (Some key) loads client h0 calls prompt model K schedule
    <> BatchRaises msg h tr.
Proof.
  intros HK Hv Htext. rewrite analyze_all_calls_gather by done. simpl.
  pose proof (no_failure_run loads client prompt model calls h0 K schedule
                HK Htext Hv) as Hf.
  unfold gather. rewrite Hf. by destruct (forallb _ _).
Qed.

(** After any schedule, three rounds in which every task has its turn bring
    the batch to its return. *)
Lemma batch_completes (loads : decoder) (client : client_fn) (key : pystr)
    (h0 : list pydict) (calls : list nat) (prompt model : pystr) (K : Z)
    (schedule : list nat) :
  1 <= K -> valid_calls calls h0 -> text_transcripts calls h0 ->
  exists h tr,
    analyze_all_calls true (Some key) loads client h0 calls prompt model K
      (schedule ++ round_robin (length calls) (3 * length calls))
    = BatchReturns calls h tr.
Proof.
  intros HK Hv Htext. do 2 eexists.
  rewrite analyze_all_calls_gather by lia. cbv zeta.
  by rewrite (fair_completion loads client prompt model calls h0 K schedule
                HK Hv Htext).
Qed.

(** ** The sample batch *)

Lemma sample_valid : valid_calls sample_calls sample_records.
Proof. unfold valid_calls. repeat constructor. Qed.

Lemma sample_distinct : NoDup sample_calls.
Proof. apply (bool_decide_unpack _). by vm_compute. Qed.

Lemma sample_text : text_transcripts sample_calls sample_records.
Proof. unfold text_transcripts. repeat constructor; by intros d0 [= <-]. Qed.

Lemma NL_space : all_space NL.
Proof. by repeat constructor. Qed.

(** The scenario of the specification: ["a"] is annotated, ["b"] is skipped,
    the request for ["c"] times out. *)
Example sample_run :
  exists tr,
    main (sample_environment sample_records) json_loads sample_client sample_schedule
    = MainCompleted
        [rec_a ++ [(K_llm_analysis, PDict [(str "x", PInt 1)])];
         rec_b ++ [(K_llm_analysis, PNone)];
         rec_c ++ [(K_llm_analysis, PDict [(K_error, PStr TIMED_OUT)])]]
        tr (Summary 3 1 1 1).
Proof. eexists. vm_compute. reflexivity. Qed.

(** The fenced answer of the specification decodes to the document. *)
Example fenced_answer :
  annotate json_loads 0 (PStr (str "a"))
    (Returns (Some (fenced (str "json") DOC_X1)))
  = (PDict [(str "x", PInt 1)], PrintDone 0 (PStr (str "a"))).
Proof. vm_compute. reflexivity. Qed.

(** ** Order of the results *)

(** C1. Order preservation: whatever the schedule (hence whatever the
    order in which the tasks finish) and whatever the limit [K >= 1], when
    [analyze_all_calls] returns, its result has one entry per input record,
    and entry [i] is input record [i] with the annotation that task [i]
    computed for it. The batch never raises, and every schedule can be
    continued until it returns. The records are distinct objects whose
    transcript is absent, [None] or a string, as [json.load] yields them
    from the extractor's output. *)
Theorem analyze_all_calls_preserves_order
    (loads : decoder) (client : client_fn) (key : pystr)
    (h0 : list pydict) (calls : list nat) (prompt model : pystr) (K : Z)
    (schedule : list nat) :
  1 <= K -> valid_calls calls h0 -> NoDup calls -> text_transcripts calls h0 ->
  (forall results h tr,
     analyze_all_calls true (Some key) loads client h0 calls prompt model K schedule
       = BatchReturns results h tr ->
     length results = length calls
     /\ results = calls
     /\ map (deref h) results
        = imap (analyzed loads client prompt) (map (deref h0) calls))
  /\ (forall msg h tr,
        analyze_all_calls true (Some key) loads client h0 calls prompt model K schedule
          <> BatchRaises msg h tr)
  /\ (exists h tr,
        analyze_all_calls true (Some key) loads client h0 calls prompt model K
          (schedule ++ round_robin (length calls) (3 * length calls))
        = BatchReturns calls h tr).
Proof.
  intros HK Hv Hnd Htext.
  assert (0 <= K) as HK0 by lia.
  split; [|split].
  - intros results h tr. rewrite analyze_all_calls_gather by done. simpl.
    destruct (gather calls _) as [[res|msg]|] eqn:Hg; try done.
    intros [= <- <- <-].
    pose proof (returned_records loads client prompt model calls h0 K schedule res
                  HK0 Hv Hnd Hg) as Hrec.
    destruct (gather_returns _ _ _ Hg) as (-> & _). done.
  - intros msg h tr. by apply batch_never_raises.
  - by apply batch_completes.
Qed.

Lemma analyze_all_calls_preserves_order_witness :
  (forall results h tr,
     analyze_all_calls true (Some SAMPLE_KEY) json_loads sample_client
       sample_records sample_calls sample_prompt DEFAULT_MODEL 2 sample_schedule
       = BatchReturns results h tr ->
     length results = length sample_calls
     /\ results = sample_calls
     /\ map (deref h) results
        = imap (analyzed json_loads sample_client sample_prompt)
               (map (deref sample_records) sample_calls))
  /\ (forall msg h tr,
        analyze_all_calls true (Some SAMPLE_KEY) json_loads sample_client
          sample_records sample_calls sample_prompt DEFAULT_MODEL 2 sample_schedule
          <> BatchRaises msg h tr)
  /\ (exists h tr,
        analyze_all_calls true (Some SAMPLE_KEY) json_loads sample_client
          sample_records sample_calls sample_prompt DEFAULT_MODEL 2
          (sample_schedule ++ round_robin 3 9)
        = BatchReturns sample_calls h tr).
Proof.
  apply (analyze_all_calls_preserves_order json_loads sample_client SAMPLE_KEY
           sample_records sample_calls sample_prompt DEFAULT_MODEL 2 sample_schedule).
  - lia.
  - apply sample_valid.
  - apply sample_distinct.
  - apply sample_text.
Defined.

(** What the hypotheses of the theorem keep out. A transcript that is a
    number has no [strip]: the exception leaves the task, and the batch. *)
Example number_transcript_raises :
  analyze_all_calls true (Some SAMPLE_KEY) json_loads sample_client
    [rec_a; rec_number] [0; 1]%nat sample_prompt DEFAULT_MODEL 2 [1; 1; 0]%nat
  = BatchRaises (str "'int' object has no attribute 'strip'")
                [rec_a; rec_number] [].
Proof. vm_compute. reflexivity. Qed.

(** The same object given twice is annotated twice: both entries of the
    result show what the task that finished last has written. *)
Example same_object_twice :
  exists tr,
    analyze_all_calls true (Some SAMPLE_KEY) json_loads
      (failing_client 1 TIMED_OUT (constant_client DOC_X1))
      [rec_a] [0; 0]%nat sample_prompt DEFAULT_MODEL 2 [0; 1; 0; 1; 0; 1]%nat
    = BatchReturns [0; 0]%nat
        [rec_a ++ [(K_llm_analysis, PDict [(K_error, PStr TIMED_OUT)])]] tr.
Proof. eexists. vm_compute. reflexivity. Qed.

(** With no slot, no task ever starts. *)
Example no_slot_no_move :
  Forall (fun j =>
            analyze_single_transcript json_loads sample_client sample_prompt
              DEFAULT_MODEL sample_calls j (init_state sample_calls sample_records 0)
            = None)
         sample_calls.
Proof. by repeat constructor. Qed.

(** ** The tally *)

(** A record falls in exactly one of the three counts unless its annotation
    is a falsy value that is neither [None] nor a dictionary. *)
Lemma tally_classes (c : pydict) :
  let a := dict_get_py K_llm_analysis c in
  ((if counts_as_success c then 1 else 0)
   + (if counts_as_skipped c then 1 else 0)
   + (if counts_as_error c then 1 else 0))%nat
  = if negb (truthy a) && negb (is_dict a) && negb (counts_as_skipped c)
    then 0%nat else 1%nat.
Proof.
  unfold counts_as_success, counts_as_skipped, counts_as_error,
    dict_get_py, dict_get_default. simpl.
  destruct (dict_get K_llm_analysis c) as [[|b|z|f|s|l|l]|]; simpl; try done.
  - by destruct b.
  - by destruct (z =? 0).
  - by destruct f.
  - by destruct (bool_decide (s = [])).
  - by destruct l.
  - destruct (dict_has K_error l); by destruct l.
Qed.

Lemma tally_cons (cond : pydict -> bool) (c : pydict) (cs : list pydict) :
  tally cond (c :: cs) = ((if cond c then 1 else 0) + tally cond cs)%nat.
Proof.
  unfold tally. rewrite filter_cons. destruct (cond c); by case_decide.
Qed.

(** The three counts add up to the number of records when every annotation
    is [None], a dictionary or a truthy value. *)
Lemma tally_adds_up (cs : list pydict) :
  Forall (fun c => truthy (dict_get_py K_llm_analysis c)
                   || is_dict (dict_get_py K_llm_analysis c)
                   || counts_as_skipped c = true) cs ->
  (success (summarize cs) + skipped (summarize cs) + errors (summarize cs)
   = total (summarize cs))%nat.
Proof.
  simpl. induction 1 as [|c cs Hc _ IH]; [done|].
  rewrite !tally_cons. pose proof (tally_classes c) as Hcl. simpl in Hcl.
  destruct (truthy _), (is_dict _), (counts_as_skipped c) eqn:Hs;
    simpl in *; try done; lia.
Qed.

(** C2. The code falls short of the claim: when the answer for the one
    record of the batch is the empty list, the record is counted in none of
    the three classes, and the counts printed add up to 0 for 1 record. *)
Theorem summary_misses_falsy_documents :
  main (sample_environment [rec_a]) json_loads (constant_client (str "[]"))
       [0; 0; 0]%nat
  = MainCompleted
      [rec_a ++ [(K_llm_analysis, PList [])]]
      [PrintAnalyzing 0 (PStr (str "a"));
       GenerateContent 0 DEFAULT_MODEL (sample_prompt ++ str "hello");
       PrintDone 0 (PStr (str "a"))]
      (Summary 1 0 0 0).
Proof. vm_compute. reflexivity. Qed.

(** The same holds of the other falsy documents: [0], [false], the empty
    string, [0.0]. *)
Example falsy_documents_uncounted :
  Forall (fun text =>
            exists written tr,
              main (sample_environment [rec_a]) json_loads (constant_client text)
                   [0; 0; 0]%nat
              = MainCompleted written tr (Summary 1 0 0 0))
         [str "0"; str "false"; quoted []; str "0.0"; str "-0.0"; str "1e-400"].
Proof. repeat constructor; do 2 eexists; vm_compute; reflexivity. Qed.

(** A document that has an ['error'] key of its own is counted as an error;
    the three counts still add up. *)
Example error_key_document :
  exists written tr,
    main (sample_environment [rec_a]) json_loads
         (constant_client (str "{" ++ quoted (str "error") ++ str ":1}"))
         [0; 0; 0]%nat
    = MainCompleted written tr (Summary 1 0 0 1).
Proof. do 2 eexists. vm_compute. reflexivity. Qed.

(** ** Skipped records *)

Lemma blank_is_skipped (i : nat) (d : pydict) :
  transcript_blank d = true -> is_skipped_record i d = true.
Proof.
  unfold transcript_blank, is_skipped_record, enter.
  destruct (dict_get_py K_transcript d) as [|b|z|f|s|l|l]; try done.
  intros Hs%bool_decide_eq_true_1. simpl.
  destruct (bool_decide (s = [])); simpl; [done|].
  by rewrite Hs.
Qed.

(** C3, as the code has it. A record whose transcript is absent, [None] or
    blank is skipped: no request is ever made for it, and once its task has
    returned the record carries [None] as its annotation. Its task is one of
    the tasks of the batch all the same: it cannot start while no slot is
    free, and it takes a slot when it starts. *)
Theorem blank_transcript_is_skipped
    (loads : decoder) (client : client_fn)
    (h0 : list pydict) (calls : list nat) (prompt model : pystr) (K : Z)
    (schedule : list nat) (i r : nat) (d0 : pydict) :
  0 <= K ->
  calls !! i = Some r -> h0 !! r = Some d0 -> transcript_blank d0 = true ->
  requests_of i (trace (run loads client prompt model calls schedule
                            (init_state calls h0 K))) = 0%nat
  /\ (NoDup calls ->
      tasks (run loads client prompt model calls schedule
                 (init_state calls h0 K)) !! i = Some Returned ->
      heap (run loads client prompt model calls schedule
                (init_state calls h0 K)) !! r
      = Some (dict_set K_llm_analysis PNone d0))
  /\ (tasks (run loads client prompt model calls schedule
                 (init_state calls h0 K)) !! i = Some Waiting ->
      failure (run loads client prompt model calls schedule
                   (init_state calls h0 K)) = None ->
      if 0 <? sem (run loads client prompt model calls schedule (init_state calls h0 K))
      then exists st',
             analyze_single_transcript loads client prompt model calls i
               (run loads client prompt model calls schedule (init_state calls h0 K))
             = Some st'
             /\ tasks st' !! i = Some Holding
             /\ sem st' = sem (run loads client prompt model calls schedule
                                   (init_state calls h0 K)) - 1
      else analyze_single_transcript loads client prompt model calls i
             (run loads client prompt model calls schedule (init_state calls h0 K))
           = None).
Proof.
  intros HK Hr Hd0 Hblank.
  pose proof (blank_is_skipped i d0 Hblank) as Hskip.
  pose proof (invariant_run loads client prompt model calls h0 K schedule HK) as Hinv.
  unfold is_skipped_record in Hskip.
  split; [|split].
  - destruct (lookup_lt_is_Some_2
                (tasks (run loads client prompt model calls schedule
                            (init_state calls h0 K))) i) as [t Ht].
    { rewrite (inv_tasks _ _ _ _ Hinv). by eapply lookup_lt_Some. }
    pose proof (inv_task _ _ _ _ Hinv i r t d0 Hr Ht Hd0) as Htask.
    destruct t as [| |cid tx| |msg]; simpl in Htask; try done.
    + destruct Htask as [Hen _]. by rewrite Hen in Hskip.
    + by destruct (enter i d0).
    + by destruct Htask.
  - intros Hnd Ht.
    destruct (content_run loads client prompt model calls h0 K schedule HK Hnd)
      as [Hc _].
    rewrite (Hc i r Returned d0 Hr Ht Hd0). simpl.
    unfold analyzed, expected_annotation. by destruct (enter i d0).
  - intros Ht Hf.
    destruct (heap_lookup_frame calls h0 K _ r d0 Hinv Hd0) as [d Hd].
    unfold analyze_single_transcript.
    rewrite Hf, Hr. simpl. rewrite Ht. simpl. rewrite Hd. simpl.
    destruct (0 <? sem _); [|done].
    eexists. split; [done|]. simpl. split; [|done].
    apply list_lookup_insert_eq. by eapply lookup_lt_Some.
Qed.

Lemma blank_transcript_is_skipped_witness :
  requests_of 1 (trace (sample_state sample_schedule)) = 0%nat
  /\ (NoDup sample_calls ->
      tasks (sample_state sample_schedule) !! 1%nat = Some Returned ->
      heap (sample_state sample_schedule) !! 1%nat
      = Some (dict_set K_llm_analysis PNone rec_b))
  /\ (tasks (sample_state sample_schedule) !! 1%nat = Some Waiting ->
      failure (sample_state sample_schedule) = None ->
      if 0 <? sem (sample_state sample_schedule)
      then exists st',
             analyze_single_transcript json_loads sample_client sample_prompt
               DEFAULT_MODEL sample_calls 1 (sample_state sample_schedule)
             = Some st'
             /\ tasks st' !! 1%nat = Some Holding
             /\ sem st' = sem (sample_state sample_schedule) - 1
      else analyze_single_transcript json_loads sample_client sample_prompt
             DEFAULT_MODEL sample_calls 1 (sample_state sample_schedule)
           = None).
Proof.
  apply (blank_transcript_is_skipped json_loads sample_client sample_records
           sample_calls sample_prompt DEFAULT_MODEL 2 sample_schedule 1 1 rec_b).
  - lia.
  - reflexivity.
  - reflexivity.
  - vm_compute. reflexivity.
Defined.

(** C3, as the specification has it, fails. With one slot and the call for
    the first record in flight, the task of the record with the empty
    transcript is there and waits: it cannot move. When the call is over it
    takes the slot, the counter going from 1 to 0, and only then skips the
    record; the client was asked once, for the first record. *)
Lemma skipped_record_occupies_a_slot :
  transcript_blank rec_b = true
  /\ tasks (one_slot_state [0; 0]%nat)
     = [InFlight (PStr (str "a")) (str "hello"); Waiting]
  /\ sem (one_slot_state [0; 0]%nat) = 0
  /\ analyze_single_transcript json_loads sample_client sample_prompt DEFAULT_MODEL
       [0; 1]%nat 1 (one_slot_state [0; 0]%nat) = None
  /\ sem (one_slot_state [0; 0; 0]%nat) = 1
  /\ tasks (one_slot_state [0; 0; 0; 1]%nat) = [Returned; Holding]
  /\ sem (one_slot_state [0; 0; 0; 1]%nat) = 0
  /\ slots_held (one_slot_state [0; 0; 0; 1]%nat) = 1%nat
  /\ tasks (one_slot_state [0; 0; 0; 1; 1]%nat) = [Returned; Returned]
  /\ requests_of 1 (trace (one_slot_state [0; 0; 0; 1; 1]%nat)) = 0%nat.
Proof. vm_compute. repeat split; reflexivity. Qed.

(** ** A failing request *)

Lemma expected_annotation_ext (loads : decoder) (client1 client2 : client_fn)
    (prompt : pystr) (i : nat) (d : pydict) :
  (forall c, client2 i c = client1 i c) ->
  expected_annotation loads client2 prompt i d
  = expected_annotation loads client1 prompt i d.
Proof.
  intros H. unfold expected_annotation. destruct (enter i d); try done. by rewrite H.
Qed.

(** C4. Isolation: take a client that raises on the request of record [j]
    and otherwise answers as another client does. When the batch returns
    under each of them, whatever the two schedules, record [j] carries the
    error document with the exception's message under the first, every other
    record is the same under both, and the batch with the failing client
    never raises and can always be continued until it returns. *)
Theorem client_failure_is_isolated
    (loads : decoder) (client1 client2 : client_fn) (key : pystr)
    (h0 : list pydict) (calls : list nat) (prompt model : pystr) (K : Z)
    (j rj : nat) (dj : pydict) (call_id : pyval) (transcript msg : pystr)
    (schedule1 schedule2 : list nat)
    (results1 results2 : list nat) (h1 h2 : list pydict) (tr1 tr2 : list event) :
  1 <= K -> valid_calls calls h0 -> NoDup calls -> text_transcripts calls h0 ->
  calls !! j = Some rj -> h0 !! rj = Some dj ->
  enter j dj = EntryCall call_id transcript ->
  client2 j (prompt ++ transcript) = Raises msg ->
  (forall i c, i <> j -> client2 i c = client1 i c) ->
  analyze_all_calls true (Some key) loads client1 h0 calls prompt model K schedule1
    = BatchReturns results1 h1 tr1 ->
  analyze_all_calls true (Some key) loads client2 h0 calls prompt model K schedule2
    = BatchReturns results2 h2 tr2 ->
  h2 !! rj = Some (dict_set K_llm_analysis (PDict [(K_error, PStr msg)]) dj)
  /\ (forall i r, i <> j -> calls !! i = Some r -> h2 !! r = h1 !! r)
  /\ results2 = results1
  /\ (forall schedule,
        (forall m h tr,
           analyze_all_calls true (Some key) loads client2 h0 calls prompt model K
             schedule <> BatchRaises m h tr)
        /\ exists h tr,
             analyze_all_calls true (Some key) loads client2 h0 calls prompt model K
               (schedule ++ round_robin (length calls) (3 * length calls))
             = BatchReturns calls h tr).
Proof.
  intros HK Hv Hnd Htext Hj Hdj Hen Hfail Hsame.
  assert (0 <= K) as HK0 by lia.
  rewrite !analyze_all_calls_gather by done. simpl.
  destruct (gather calls (run loads client1 _ _ _ schedule1 _)) as [[res1|?]|] eqn:Hg1;
    try done.
  destruct (gather calls (run loads client2 _ _ _ schedule2 _)) as [[res2|?]|] eqn:Hg2;
    try done.
  intros [= <- <- <-] [= <- <- <-].
  split; [|split; [|split]].
  - rewrite (final_record loads client2 prompt model calls h0 K schedule2 res2 j rj dj)
      by done.
    unfold analyzed, expected_annotation, annotate, try_block.
    by rewrite Hen, Hfail.
  - intros i r Hne Hr.
    unfold valid_calls in Hv. rewrite Forall_lookup in Hv.
    destruct (lookup_lt_is_Some_2 h0 r (Hv _ _ Hr)) as [d0 Hd0].
    rewrite (final_record loads client2 prompt model calls h0 K schedule2 res2 i r d0),
            (final_record loads client1 prompt model calls h0 K schedule1 res1 i r d0)
      by done.
    unfold analyzed. rewrite (expected_annotation_ext loads client1 client2); [done|].
    intros c. by apply Hsame.
  - destruct (gather_returns _ _ _ Hg1) as [-> _].
    by destruct (gather_returns _ _ _ Hg2) as [-> _].
  - intros schedule. split.
    + intros m h tr. by apply batch_never_raises.
    + by apply batch_completes.
Qed.

(** One batch with a client that always answers, one where the request of
    task 2 times out, under different schedules. *)
Lemma client_failure_is_isolated_witness :
  heap (run json_loads (failing_client 2 TIMED_OUT (constant_client DOC_X1))
            sample_prompt DEFAULT_MODEL sample_calls
            [2; 1; 0; 2; 1; 0; 2; 0; 0]%nat
            (init_state sample_calls sample_records 2)) !! 2%nat
  = Some (dict_set K_llm_analysis (PDict [(K_error, PStr TIMED_OUT)]) rec_c)
  /\ (forall i r,
        i <> 2%nat -> sample_calls !! i = Some r ->
        heap (run json_loads (failing_client 2 TIMED_OUT (constant_client DOC_X1))
                  sample_prompt DEFAULT_MODEL sample_calls
                  [2; 1; 0; 2; 1; 0; 2; 0; 0]%nat
                  (init_state sample_calls sample_records 2)) !! r
        = heap (run json_loads (constant_client DOC_X1)
                    sample_prompt DEFAULT_MODEL sample_calls sample_schedule
                    (init_state sample_calls sample_records 2)) !! r)
  /\ sample_calls = sample_calls
  /\ (forall schedule,
        (forall m h tr,
           analyze_all_calls true (Some SAMPLE_KEY) json_loads
             (failing_client 2 TIMED_OUT (constant_client DOC_X1))
             sample_records sample_calls sample_prompt DEFAULT_MODEL 2 schedule
           <> BatchRaises m h tr)
        /\ exists h tr,
             analyze_all_calls true (Some SAMPLE_KEY) json_loads
               (failing_client 2 TIMED_OUT (constant_client DOC_X1))
               sample_records sample_calls sample_prompt DEFAULT_MODEL 2
               (schedule ++ round_robin 3 9)
             = BatchReturns sample_calls h tr).
Proof.
  apply (client_failure_is_isolated json_loads
           (constant_client DOC_X1)
           (failing_client 2 TIMED_OUT (constant_client DOC_X1))
           SAMPLE_KEY sample_records sample_calls sample_prompt DEFAULT_MODEL 2
           2%nat 2%nat rec_c (PStr (str "c")) (str "world") TIMED_OUT
           sample_schedule [2; 1; 0; 2; 1; 0; 2; 0; 0]%nat
           sample_calls sample_calls _ _
           (trace (run json_loads (constant_client DOC_X1)
                       sample_prompt DEFAULT_MODEL sample_calls sample_schedule
                       (init_state sample_calls sample_records 2)))
           (trace (run json_loads (failing_client 2 TIMED_OUT (constant_client DOC_X1))
                       sample_prompt DEFAULT_MODEL sample_calls
                       [2; 1; 0; 2; 1; 0; 2; 0; 0]%nat
                       (init_state sample_calls sample_records 2)))).
  - lia.
  - apply sample_valid.
  - apply sample_distinct.
  - apply sample_text.
  - reflexivity.
  - reflexivity.
  - vm_compute. reflexivity.
  - reflexivity.
  - intros i c Hne. unfold failing_client. by rewrite bool_decide_eq_false_2.
  - vm_compute. reflexivity.
  - vm_compute. reflexivity.
Defined.

(** ** Fenced answers *)

(** Whatever the decoder, a text that carries no fence of its own fares
    the same inside a [```json] fence as outside. *)
Lemma json_fence_transparent
    (loads : decoder) (index : nat) (call_id : pyval) (ws1 ws2 text : pystr) :
  all_space ws1 -> all_space ws2 ->
  startswith FENCE_JSON (strip text) = false ->
  endswith FENCE (strip text) = false ->
  clean_response (FENCE_JSON ++ ws1 ++ text ++ ws2 ++ FENCE) = clean_response text
  /\ annotate loads index call_id
       (Returns (Some (FENCE_JSON ++ ws1 ++ text ++ ws2 ++ FENCE)))
     = annotate loads index call_id (Returns (Some text)).
Proof.
  intros H1 H2 Hs He.
  assert (clean_response (FENCE_JSON ++ ws1 ++ text ++ ws2 ++ FENCE)
          = clean_response text) as Hclean.
  { rewrite clean_response_json_fence by done. by rewrite clean_response_plain. }
  split; [done|]. unfold annotate, try_block. by rewrite Hclean.
Qed.

(** The fence the code knows. Take a decoder that, like [json.loads], accepts
    no text that begins with [```json] or ends with [```], and a text that
    decodes once trimmed. The task stores the decoded document for it, and
    stores the same document when the text comes wrapped in an opening
    [```json] fence and a closing [```] fence, with any white space between
    the fences and the text: both fences are gone when the text reaches
    the decoder. *)
Theorem json_fence_is_stripped
    (loads : decoder) (index : nat) (call_id : pyval) (ws1 ws2 text : pystr)
    (v : pyval) :
  (forall s d, loads s = Decoded d ->
               startswith FENCE_JSON s = false /\ endswith FENCE s = false) ->
  all_space ws1 -> all_space ws2 ->
  loads (strip text) = Decoded v ->
  annotate loads index call_id (Returns (Some text)) = (v, PrintDone index call_id)
  /\ clean_response (FENCE_JSON ++ ws1 ++ text ++ ws2 ++ FENCE) = strip text
  /\ annotate loads index call_id
       (Returns (Some (FENCE_JSON ++ ws1 ++ text ++ ws2 ++ FENCE)))
     = (v, PrintDone index call_id).
Proof.
  intros Hloads H1 H2 Hv. destruct (Hloads _ _ Hv) as [Hs He].
  assert (annotate loads index call_id (Returns (Some text))
          = (v, PrintDone index call_id)) as Hplain.
  { unfold annotate, try_block. by rewrite clean_response_plain, Hv. }
  split; [done|]. split; [by apply clean_response_json_fence|].
  by rewrite (proj2 (json_fence_transparent loads index call_id ws1 ws2 text
                       H1 H2 Hs He)).
Qed.

Lemma json_fence_is_stripped_witness :
  annotate json_loads 0 (PStr (str "a")) (Returns (Some (str " " ++ DOC_X1 ++ NL)))
  = (PDict [(str "x", PInt 1)], PrintDone 0 (PStr (str "a")))
  /\ clean_response (FENCE_JSON ++ NL ++ (str " " ++ DOC_X1 ++ NL) ++ NL ++ FENCE)
     = strip (str " " ++ DOC_X1 ++ NL)
  /\ annotate json_loads 0 (PStr (str "a"))
       (Returns (Some (FENCE_JSON ++ NL ++ (str " " ++ DOC_X1 ++ NL) ++ NL ++ FENCE)))
     = (PDict [(str "x", PInt 1)], PrintDone 0 (PStr (str "a"))).
Proof.
  apply (json_fence_is_stripped json_loads 0 (PStr (str "a")) NL NL
           (str " " ++ DOC_X1 ++ NL) (PDict [(str "x", PInt 1)])).
  - apply decoded_has_no_fence.
  - apply NL_space.
  - apply NL_space.
  - vm_compute. reflexivity.
Defined.

(** Three fences the code does not know: the document decodes, yet inside
    a fence whose tag is [JSON], [js] or missing it does not, because the
    opening fence is still there when the text reaches the decoder. *)
Lemma other_fences_are_not_stripped :
  annotate json_loads 0 PNone (Returns (Some DOC_X1))
  = (PDict [(str "x", PInt 1)], PrintDone 0 PNone)
  /\ clean_response (fenced (str "JSON") DOC_X1) = str "```JSON" ++ NL ++ DOC_X1
  /\ (annotate json_loads 0 PNone (Returns (Some (fenced (str "JSON") DOC_X1)))).1
     = PDict [(K_error, PStr INVALID_JSON);
              (K_raw, PStr (str "```JSON" ++ NL ++ DOC_X1))]
  /\ (annotate json_loads 0 PNone (Returns (Some (fenced (str "js") DOC_X1)))).1
     = PDict [(K_error, PStr INVALID_JSON);
              (K_raw, PStr (str "```js" ++ NL ++ DOC_X1))]
  /\ (annotate json_loads 0 PNone (Returns (Some (fenced [] DOC_X1)))).1
     = PDict [(K_error, PStr INVALID_JSON);
              (K_raw, PStr (str "```" ++ NL ++ DOC_X1))].
Proof. vm_compute. repeat split; reflexivity. Qed.

(** ** A missing library, a missing key *)

Lemma deref_load (records : list pydict) :
  map (deref records) (seq 0 (length records)) = records.
Proof.
  apply list_eq. intros i. rewrite list_lookup_fmap.
  destruct (decide (i < length records)%nat) as [Hlt|Hge].
  - rewrite lookup_seq_lt by done. simpl. unfold deref.
    destruct (lookup_lt_is_Some_2 records i Hlt) as [d Hd]. by rewrite Hd.
  - rewrite lookup_seq_ge by lia. simpl. symmetry. apply lookup_ge_None. lia.
Qed.

(** C6. The code falls short of the claim: when the client library cannot
    be imported, no task is created and no request made, but the run goes on:
    [main] writes the records out as they came and prints a summary. *)
Theorem missing_library_still_writes_output
    (records : list pydict) (prompt model : pystr) (key : option pystr) (K : Z)
    (loads : decoder) (client : client_fn) (schedule : list nat) :
  main (Environment (Some records) (Some prompt) false key model K)
       loads client schedule
  = MainCompleted records [PrintNotInstalled] (summarize records).
Proof. unfold main. simpl. by rewrite deref_load. Qed.

Example missing_library_run :
  main (Environment (Some [rec_a]) (Some sample_prompt) false (Some SAMPLE_KEY)
                    DEFAULT_MODEL DEFAULT_CONCURRENCY)
       json_loads sample_client []
  = MainCompleted [rec_a] [PrintNotInstalled] (Summary 1 0 1 0).
Proof. vm_compute. reflexivity. Qed.

(** Without a configured key the run stops before any task is created, and
    nothing is written. *)
Lemma missing_key_aborts
    (records : list pydict) (prompt model : pystr) (K : Z)
    (loads : decoder) (client : client_fn) (schedule : list nat) :
  main (Environment (Some records) (Some prompt) true None model K)
       loads client schedule
  = MainCrashed (str "API key not configured") [].
Proof. reflexivity. Qed.

(** Without a prompt file, likewise. *)
Lemma missing_prompt_aborts
    (records : list pydict) (model : pystr) (installed : bool) (key : option pystr)
    (K : Z) (loads : decoder) (client : client_fn) (schedule : list nat) :
  main (Environment (Some records) None installed key model K) loads client schedule
  = MainPromptNotFound.
Proof. reflexivity. Qed.

(** ** Error documents *)

(** C7, as the code has it. When the decoder rejects the cleaned text with
    a [JSONDecodeError], the stored document has the fixed message
    ["Invalid JSON response"] under ['error'] and, under ['raw'], the first
    500 characters of the cleaned text, which is all of it when it has
    no more than 500; the decoder's diagnostic is printed, not stored. When
    the client call raises, the stored document has the exception's message
    under ['error'] and no ['raw'] key. *)
Theorem error_documents (loads : decoder) (index : nat) (call_id : pyval) :
  (forall text diag,
     loads (clean_response text) = JSONDecodeError diag ->
     annotate loads index call_id (Returns (Some text))
     = (PDict [(K_error, PStr INVALID_JSON);
               (K_raw, PStr (slice_to 500 (clean_response text)))],
        PrintParseError index call_id diag)
     /\ (length (slice_to 500 (clean_response text)) <= 500)%nat
     /\ slice_to 500 (clean_response text) `prefix_of` clean_response text
     /\ ((length (clean_response text) <= 500)%nat ->
         slice_to 500 (clean_response text) = clean_response text))
  /\ (forall msg,
        annotate loads index call_id (Raises msg)
        = (PDict [(K_error, PStr msg)], PrintErrorAnalyzing index call_id msg)
        /\ dict_get K_raw [(K_error, PStr msg)] = None).
Proof.
  split.
  - intros text diag Hd. unfold annotate, try_block. rewrite Hd.
    split; [done|]. unfold slice_to. split; [|split].
    + rewrite length_take. lia.
    + apply prefix_take.
    + intros Hlen. by apply take_ge.
  - intros msg. by split.
Qed.

Lemma error_documents_witness :
  annotate json_loads 0 PNone (Returns (Some (str "oops")))
  = (PDict [(K_error, PStr INVALID_JSON);
            (K_raw, PStr (slice_to 500 (clean_response (str "oops"))))],
     PrintParseError 0 PNone EXPECTING_VALUE_AT_0)
  /\ (length (slice_to 500 (clean_response (str "oops"))) <= 500)%nat
  /\ slice_to 500 (clean_response (str "oops")) `prefix_of` clean_response (str "oops")
  /\ ((length (clean_response (str "oops")) <= 500)%nat ->
      slice_to 500 (clean_response (str "oops")) = clean_response (str "oops")).
Proof.
  apply (proj1 (error_documents json_loads 0 PNone) (str "oops") EXPECTING_VALUE_AT_0).
  vm_compute. reflexivity.
Defined.

(** C7, as the specification has it, fails: the decoder's diagnostic for
    [oops] is "Expecting value: ...", the stored document says
    "Invalid JSON response" instead, and its excerpt is the whole of the
    text that failed to decode. *)
Lemma error_document_carries_no_diagnostic :
  json_loads (clean_response (str "oops")) = JSONDecodeError EXPECTING_VALUE_AT_0
  /\ (annotate json_loads 0 PNone (Returns (Some (str "oops")))).1
     = PDict [(K_error, PStr (str "Invalid JSON response"));
              (K_raw, PStr (str "oops"))]
  /\ dict_get K_error [(K_error, PStr (str "Invalid JSON response"));
                       (K_raw, PStr (str "oops"))]
     <> Some (PStr EXPECTING_VALUE_AT_0)
  /\ dict_get K_raw [(K_error, PStr (str "Invalid JSON response"));
                     (K_raw, PStr (str "oops"))]
     = Some (PStr (clean_response (str "oops"))).
Proof. vm_compute. repeat split; try reflexivity. discriminate. Qed.

(** ** The other fields *)

(** C8. Frame: at every moment of every schedule, each record of the store
    has, under every key other than ['llm_analysis'], what it had at the
    start, in the same order; and once the task of a record has returned
    (skipped, decoded or in error), the record is the input record with the
    one key ['llm_analysis'] set to the task's annotation. *)
Theorem only_the_annotation_is_written
    (loads : decoder) (client : client_fn)
    (h0 : list pydict) (calls : list nat) (prompt model : pystr) (K : Z)
    (schedule : list nat) :
  map (dict_without K_llm_analysis)
      (heap (run loads client prompt model calls schedule (init_state calls h0 K)))
  = map (dict_without K_llm_analysis) h0
  /\ (forall r k,
        k <> K_llm_analysis ->
        dict_get k (deref (heap (run loads client prompt model calls schedule
                                     (init_state calls h0 K))) r)
        = dict_get k (deref h0 r))
  /\ (0 <= K -> NoDup calls ->
      forall i r d0,
        calls !! i = Some r -> h0 !! r = Some d0 ->
        tasks (run loads client prompt model calls schedule
                   (init_state calls h0 K)) !! i = Some Returned ->
        heap (run loads client prompt model calls schedule
                  (init_state calls h0 K)) !! r
        = Some (dict_set K_llm_analysis
                         (expected_annotation loads client prompt i d0) d0)).
Proof.
  pose proof (frame_run loads client prompt model calls schedule
                (init_state calls h0 K)) as Hframe. simpl in Hframe.
  split; [done|]. split.
  - intros r k Hk. apply (dict_without_get K_llm_analysis); [|done].
    assert (map (dict_without K_llm_analysis)
                (heap (run loads client prompt model calls schedule
                           (init_state calls h0 K))) !! r
            = map (dict_without K_llm_analysis) h0 !! r) as E by by rewrite Hframe.
    change (@map) with (@fmap list _) in E. rewrite !list_lookup_fmap in E.
    unfold deref.
    destruct (heap _ !! r), (h0 !! r); simpl in *; congruence.
  - intros HK Hnd i r d0 Hr Hd0 Ht.
    destruct (content_run loads client prompt model calls h0 K schedule HK Hnd)
      as [Hc _].
    apply (Hc i r Returned d0 Hr Ht Hd0).
Qed.

Lemma only_the_annotation_is_written_witness :
  heap (sample_state sample_schedule) !! 2%nat
  = Some (dict_set K_llm_analysis
                   (expected_annotation json_loads sample_client sample_prompt 2 rec_c)
                   rec_c).
Proof.
  apply (proj2 (proj2 (only_the_annotation_is_written json_loads sample_client
                         sample_records sample_calls sample_prompt DEFAULT_MODEL 2
                         sample_schedule))).
  - lia.
  - apply sample_distinct.
  - reflexivity.
  - reflexivity.
  - vm_compute. reflexivity.
Defined.

Example annotation_goes_last :
  dict_set K_llm_analysis
           (expected_annotation json_loads sample_client sample_prompt 2 rec_c) rec_c
  = [(K_id, PStr (str "c")); (K_transcript, PStr (str "world"));
     (K_llm_analysis, PDict [(K_error, PStr TIMED_OUT)])].
Proof. vm_compute. reflexivity. Qed.

(** An annotation already present is replaced where it stands. *)
Example annotation_replaced_in_place :
  dict_set K_llm_analysis PNone
           [(K_id, PStr (str "b")); (K_llm_analysis, PInt 7); (K_transcript, PStr [])]
  = [(K_id, PStr (str "b")); (K_llm_analysis, PNone); (K_transcript, PStr [])].
Proof. vm_compute. reflexivity. Qed.

(** ** The limit on calls in flight *)

(** C9. Concurrency cap: for every limit [K >= 1], every number of records
    and every schedule, at no moment are more than [K] client calls in
    flight. Every record has its task; a state in which no task can move is
    one where all have returned; and from any moment on, three rounds in
    which every task has its turn end the batch, with every task returned
    and the client asked exactly once for each record that has a transcript:
    none is dropped. *)
Theorem in_flight_never_exceeds_limit
    (loads : decoder) (client : client_fn)
    (h0 : list pydict) (calls : list nat) (prompt model : pystr) (K : Z)
    (schedule : list nat) :
  1 <= K -> valid_calls calls h0 -> text_transcripts calls h0 ->
  Z.of_nat (in_flight (run loads client prompt model calls schedule
                           (init_state calls h0 K))) <= K
  /\ length (tasks (run loads client prompt model calls schedule
                        (init_state calls h0 K))) = length calls
  /\ ((forall j, analyze_single_transcript loads client prompt model calls j
                   (run loads client prompt model calls schedule
                        (init_state calls h0 K)) = None) ->
      gather calls (run loads client prompt model calls schedule
                        (init_state calls h0 K)) = Some (Returns calls))
  /\ gather calls
       (run loads client prompt model calls
            (schedule ++ round_robin (length calls) (3 * length calls))
            (init_state calls h0 K)) = Some (Returns calls)
  /\ (forall i t,
        tasks (run loads client prompt model calls
                   (schedule ++ round_robin (length calls) (3 * length calls))
                   (init_state calls h0 K)) !! i = Some t ->
        t = Returned)
  /\ (forall i r d0,
        calls !! i = Some r -> h0 !! r = Some d0 ->
        requests_of i
          (trace (run loads client prompt model calls
                      (schedule ++ round_robin (length calls) (3 * length calls))
                      (init_state calls h0 K)))
        = if is_skipped_record i d0 then 0%nat else 1%nat).
Proof.
  intros HK Hv Htext. assert (0 <= K) as HK0 by lia.
  pose proof (invariant_run loads client prompt model calls h0 K schedule HK0) as Hinv.
  pose proof (fair_completion loads client prompt model calls h0 K schedule
                HK Hv Htext) as Hend.
  split; [|split; [|split; [|split; [|split]]]].
  - pose proof (inv_sem _ _ _ _ Hinv). pose proof (inv_sem_nonneg _ _ _ _ Hinv).
    pose proof (in_flight_le_slots (tasks (run loads client prompt model calls schedule
                                               (init_state calls h0 K)))).
    unfold in_flight, slots_held in *. lia.
  - apply Hinv.
  - by apply stuck_is_over.
  - done.
  - by destruct (gather_returns _ _ _ Hend) as (_ & _ & Hret).
  - intros i r d0 Hr Hd0. by eapply requests_at_end.
Qed.

Lemma in_flight_never_exceeds_limit_witness :
  Z.of_nat (in_flight (sample_state [2; 0; 1; 2; 0]%nat)) <= 2
  /\ length (tasks (sample_state [2; 0; 1; 2; 0]%nat)) = length sample_calls
  /\ ((forall j,
         analyze_single_transcript json_loads sample_client sample_prompt
           DEFAULT_MODEL sample_calls j (sample_state [2; 0; 1; 2; 0]%nat) = None) ->
      gather sample_calls (sample_state [2; 0; 1; 2; 0]%nat)
      = Some (Returns sample_calls))
  /\ gather sample_calls
       (sample_state ([2; 0; 1; 2; 0]%nat ++ round_robin 3 9))
     = Some (Returns sample_calls)
  /\ (forall i t,
        tasks (sample_state ([2; 0; 1; 2; 0]%nat ++ round_robin 3 9)) !! i = Some t ->
        t = Returned)
  /\ (forall i r d0,
        sample_calls !! i = Some r -> sample_records !! r = Some d0 ->
        requests_of i (trace (sample_state ([2; 0; 1; 2; 0]%nat ++ round_robin 3 9)))
        = if is_skipped_record i d0 then 0%nat else 1%nat).
Proof.
  apply (in_flight_never_exceeds_limit json_loads sample_client sample_records
           sample_calls sample_prompt DEFAULT_MODEL 2 [2; 0; 1; 2; 0]%nat).
  - lia.
  - apply sample_valid.
  - apply sample_text.
Defined.

Example two_in_flight : in_flight (sample_state [2; 0; 1; 2; 0]%nat) = 2%nat.
Proof. vm_compute. reflexivity. Qed.

(** ** An answer that is [null] *)

(** C10. When the client answers and the cleaned answer decodes to JSON
    [null], the task stores [None] under ['llm_analysis'], which is what it
    stores for a skipped record: the record it returns is the one the skip
    path would have returned, and the tally counts it as skipped, neither as
    a success nor as an error. *)
Theorem null_answer_counts_as_skipped
    (loads : decoder) (client : client_fn) (prompt : pystr)
    (index : nat) (d : pydict) (call_id : pyval) (transcript text : pystr) :
  enter index d = EntryCall call_id transcript ->
  client index (prompt ++ transcript) = Returns (Some text) ->
  loads (clean_response text) = Decoded PNone ->
  expected_annotation loads client prompt index d = PNone
  /\ analyzed loads client prompt index d = dict_set K_llm_analysis PNone d
  /\ counts_as_skipped (analyzed loads client prompt index d) = true
  /\ counts_as_success (analyzed loads client prompt index d) = false
  /\ counts_as_error (analyzed loads client prompt index d) = false.
Proof.
  intros Hen Hc Hl.
  assert (expected_annotation loads client prompt index d = PNone) as He.
  { unfold expected_annotation, annotate, try_block. by rewrite Hen, Hc, Hl. }
  unfold analyzed. rewrite He. split; [done|]. split; [done|].
  unfold counts_as_skipped, counts_as_success, counts_as_error,
    dict_get_py, dict_get_default.
  by rewrite dict_get_set_eq.
Qed.

Lemma null_answer_counts_as_skipped_witness :
  expected_annotation json_loads (constant_client (str "null")) sample_prompt 0 rec_a
  = PNone
  /\ analyzed json_loads (constant_client (str "null")) sample_prompt 0 rec_a
     = dict_set K_llm_analysis PNone rec_a
  /\ counts_as_skipped
       (analyzed json_loads (constant_client (str "null")) sample_prompt 0 rec_a)
     = true
  /\ counts_as_success
       (analyzed json_loads (constant_client (str "null")) sample_prompt 0 rec_a)
     = false
  /\ counts_as_error
       (analyzed json_loads (constant_client (str "null")) sample_prompt 0 rec_a)
     = false.
Proof.
  apply (null_answer_counts_as_skipped json_loads (constant_client (str "null"))
           sample_prompt 0 rec_a (PStr (str "a")) (str "hello") (str "null")).
  - reflexivity.
  - reflexivity.
  - vm_compute. reflexivity.
Defined.

(** A batch whose only answer is [null]: the client was asked, the summary
    says the record was skipped. *)
Example null_answer_run :
  main (sample_environment [rec_a]) json_loads (constant_client (str "null"))
       [0; 0; 0]%nat
  = MainCompleted
      [rec_a ++ [(K_llm_analysis, PNone)]]
      [PrintAnalyzing 0 (PStr (str "a"));
       GenerateContent 0 DEFAULT_MODEL (sample_prompt ++ str "hello");
       PrintDone 0 (PStr (str "a"))]
      (Summary 1 0 1 0).
Proof. vm_compute. reflexivity. Qed.

(** ** More on the clean-up of the answer *)

(** [a] is a contiguous piece of [b]. *)
Lemma piece_trans (a b c : pystr) :
  (exists l1 l2, b = l1 ++ a ++ l2) -> (exists l1 l2, c = l1 ++ b ++ l2) ->
  exists l1 l2, c = l1 ++ a ++ l2.
Proof.
  intros (l1 & l2 & ->) (l3 & l4 & ->). exists (l3 ++ l1), (l2 ++ l4).
  by rewrite <- !app_assoc.
Qed.

Lemma rstrip_split (s : pystr) :
  exists ws,
    all_space ws /\ s = rstrip s ++ ws
    /\ (rstrip s = []
        \/ exists s' c, rstrip s = s' ++ [c] /\ py_isspace c = false).
Proof.
  unfold rstrip.
  destruct (lstrip_split (reverse s)) as (ws & Hws & Hs & Hhead).
  exists (reverse ws). split; [by apply all_space_reverse|]. split.
  - rewrite <- reverse_app, <- Hs. by rewrite reverse_involutive.
  - destruct Hhead as [-> | (c & s' & -> & Hc)]; [by left|].
    right. exists (reverse s'), c. by rewrite reverse_cons.
Qed.

Lemma strip_piece (s : pystr) : exists l1 l2, s = l1 ++ strip s ++ l2.
Proof.
  unfold strip.
  destruct (lstrip_split s) as (ws1 & _ & Hs & _).
  destruct (rstrip_split (lstrip s)) as (ws2 & _ & Hr & _).
  exists ws1, ws2. by rewrite <- Hr.
Qed.

Lemma replace_first_piece (p s : pystr) :
  startswith p s = true -> exists l1 l2, s = l1 ++ replace_first p [] s ++ l2.
Proof.
  intros [s' ->]%startswith_prefix. rewrite replace_first_prefix.
  exists p, []. by rewrite app_nil_r.
Qed.

Lemma rsplit1_piece (sep s : pystr) : exists l1 l2, s = l1 ++ (rsplit1 sep s).1 ++ l2.
Proof.
  unfold rsplit1. destruct (rfind sep s) as [i|]; simpl.
  - exists [], (drop i s). by rewrite take_drop.
  - exists [], []. by rewrite app_nil_r.
Qed.

Lemma piece_length (a b : pystr) :
  (exists l1 l2, b = l1 ++ a ++ l2) -> (length a <= length b)%nat.
Proof. intros (l1 & l2 & ->). rewrite !length_app. lia. Qed.

(** X1. The text handed to the decoder is a contiguous piece of the answer:
    the clean-up only removes characters at the two ends, never inserts or
    reorders any; and it is trimmed. *)
Theorem clean_response_is_a_piece (text : pystr) :
  (exists before after, text = before ++ clean_response text ++ after)
  /\ strip (clean_response text) = clean_response text
  /\ (length (clean_response text) <= length text)%nat.
Proof.
  assert (exists l1 l2, text = l1 ++ clean_response text ++ l2) as Hpiece.
  { unfold clean_response.
    eapply piece_trans; [apply strip_piece|].
    eapply piece_trans; [|apply strip_piece].
    destruct (endswith FENCE _).
    - eapply piece_trans; [apply rsplit1_piece|].
      destruct (startswith FENCE_JSON (strip text)) eqn:Hs.
      + by apply replace_first_piece.
      + by exists [], []; rewrite app_nil_r.
    - destruct (startswith FENCE_JSON (strip text)) eqn:Hs.
      + by apply replace_first_piece.
      + by exists [], []; rewrite app_nil_r. }
  split; [done|]. split.
  - unfold clean_response. apply strip_idemp.
  - by apply piece_length.
Qed.

Lemma startswith_app_inv (p a b : pystr) :
  startswith p (a ++ b) = true ->
  startswith p a = true
  \/ exists c p2 b', p = a ++ c :: p2 /\ b = c :: b' /\ startswith p2 b' = true.
Proof.
  revert a. induction p as [|x p IH]; intros a H; [by left|].
  destruct a as [|y a]; simpl in H.
  - destruct b as [|y b]; [done|]. apply andb_prop in H as [->%N.eqb_eq H].
    right. by exists y, p, b.
  - apply andb_prop in H as [->%N.eqb_eq H].
    destruct (IH _ H) as [Hl | (c & p2 & b' & -> & -> & Hr)].
    + left. simpl. by rewrite N.eqb_refl.
    + right. by exists c, p2, b'.
Qed.

Lemma fence_json_no_space : Forall (fun c => py_isspace c = false) FENCE_JSON.
Proof. by repeat constructor. Qed.

Lemma fence_no_space : Forall (fun c => py_isspace c = false) (reverse FENCE).
Proof. by repeat constructor. Qed.

(** A text that is not fenced does not become fenced by what follows it. *)
Lemma no_opening_fence_app (v ws : pystr) :
  all_space ws -> startswith FENCE_JSON v = false ->
  startswith FENCE_JSON (v ++ ws ++ FENCE) = false.
Proof.
  intros Hws Hv. destruct (startswith FENCE_JSON (v ++ ws ++ FENCE)) eqn:H; [|done].
  destruct (startswith_app_inv _ _ _ H) as [Hl | (c & p2 & b' & Hp & Hb & Hr)];
    [congruence|].
  destruct ws as [|x ws].
  - simpl in Hb. injection Hb as <- <-.
    destruct v as [|? [|? [|? [|? [|? [|? [|? ?]]]]]]];
      cbv in Hp; simplify_eq; by cbv in Hr.
  - simpl in Hb. injection Hb as <- <-.
    pose proof fence_json_no_space as Hf. rewrite Hp in Hf.
    apply Forall_app in Hf as [_ Hf]. apply Forall_cons in Hf as [Hx _].
    apply Forall_cons in Hws as [Hx' _]. congruence.
Qed.

(** White space in front of a text does not make it end with a fence. *)
Lemma no_closing_fence_app (ws w : pystr) :
  all_space ws -> endswith FENCE w = false -> w <> [] ->
  endswith FENCE (ws ++ w) = false.
Proof.
  intros Hws Hw Hne. unfold endswith in *. rewrite reverse_app.
  destruct (startswith (reverse FENCE) (reverse w ++ reverse ws)) eqn:H; [|done].
  destruct (startswith_app_inv _ _ _ H) as [Hl | (c & p2 & b' & Hp & Hb & Hr)];
    [congruence|].
  pose proof fence_no_space as Hf. rewrite Hp in Hf.
  apply Forall_app in Hf as [_ Hf]. apply Forall_cons in Hf as [Hc _].
  apply all_space_reverse in Hws. rewrite Hb in Hws.
  apply Forall_cons in Hws as [Hc' _]. congruence.
Qed.

(** X2. The two fences are handled independently of each other: a closing
    fence is cut off an answer that has no opening fence, and an opening
    [```json] fence is removed from an answer that has no closing fence. In
    both cases what reaches the decoder is the trimmed text. *)
Theorem lone_fences_are_stripped (ws text : pystr) :
  all_space ws ->
  (startswith FENCE_JSON (strip text) = false ->
   clean_response (text ++ ws ++ FENCE) = strip text)
  /\ (endswith FENCE (strip text) = false ->
      clean_response (FENCE_JSON ++ ws ++ text) = strip text).
Proof.
  intros Hws.
  destruct (lstrip_split text) as (ws0 & Hws0 & Htext & Hu).
  destruct (rstrip_split (lstrip text)) as (ws2 & Hws2 & Hlr & Hw).
  fold (strip text) in Hlr, Hw.
  assert (strip (lstrip text) = strip text) as Hsu.
  { rewrite Htext at 2. rewrite <- (app_nil_r (lstrip text)) at 2.
    by rewrite strip_padded by (done || constructor). }
  split.
  - intros Hs. unfold clean_response.
    destruct Hu as [Hu | (c & s' & Hu & Hc)].
    + assert (strip text = []) as -> by (unfold strip; by rewrite Hu).
      assert (strip (text ++ ws ++ FENCE) = FENCE) as ->.
      { rewrite Htext, Hu, app_nil_r.
        rewrite <- (app_nil_r FENCE), app_assoc, <- (app_nil_l (ws0 ++ ws)).
        rewrite <- !app_assoc. rewrite (app_assoc ws0).
        change ([] ++ (ws0 ++ ws) ++ FENCE ++ [])
          with ((ws0 ++ ws) ++ FENCE ++ []).
        rewrite strip_padded; [done| |constructor].
        unfold all_space. rewrite Forall_app. done. }
      reflexivity.
    + assert (strip (text ++ ws ++ FENCE) = lstrip text ++ ws ++ FENCE) as ->.
      { rewrite Htext at 1. rewrite <- app_assoc.
        rewrite <- (app_nil_r (lstrip text ++ ws ++ FENCE)) at 1.
        rewrite strip_padded by (done || constructor).
        rewrite Hu. change FENCE with (str "``" ++ [96%N]).
        replace ((c :: s') ++ ws ++ str "``" ++ [96%N])
          with (c :: (s' ++ ws ++ str "``") ++ [96%N])
          by (simpl; by rewrite <- !app_assoc).
        by apply strip_fixed. }
      assert (startswith FENCE_JSON (lstrip text ++ ws ++ FENCE) = false) as ->.
      { rewrite Hlr, <- app_assoc.
        apply (no_opening_fence_app (strip text) (ws2 ++ ws ++ [])) in Hs.
        - by rewrite app_nil_r, <- app_assoc in Hs.
        - unfold all_space. rewrite !Forall_app. done. }
      rewrite app_assoc, endswith_app, rsplit1_suffix.
      pose proof (strip_padded [] (lstrip text) ws ltac:(constructor) Hws) as E.
      cbn [app] in E. by rewrite E.
  - intros He. unfold clean_response.
    destruct Hw as [Hw | (s' & c & Hw & Hc)].
    + assert (lstrip text = []) as Hu0.
      { destruct Hu as [Hu | (c & s' & Hu & Hc)]; [done|].
        rewrite Hw in Hlr. simpl in Hlr. rewrite <- Hlr, Hu in Hws2.
        apply Forall_cons in Hws2 as [Hc' _]. congruence. }
      assert (strip (FENCE_JSON ++ ws ++ text) = FENCE_JSON) as ->.
      { rewrite Htext, Hu0, app_nil_r.
        rewrite <- (app_nil_l (FENCE_JSON ++ ws ++ ws0)).
        rewrite strip_padded; [done|constructor|].
        unfold all_space. rewrite Forall_app. done. }
      rewrite Hw. reflexivity.
    + assert (strip (FENCE_JSON ++ ws ++ text)
              = FENCE_JSON ++ ws ++ ws0 ++ strip text) as ->.
      { rewrite Htext at 1. rewrite Hlr at 1.
        replace (FENCE_JSON ++ ws ++ ws0 ++ strip text ++ ws2)
          with ([] ++ (FENCE_JSON ++ ws ++ ws0 ++ strip text) ++ ws2)
          by (simpl; by rewrite <- !app_assoc).
        rewrite strip_padded by (done || constructor).
        rewrite Hw. change FENCE_JSON with (96%N :: str "``json").
        replace ((96%N :: str "``json") ++ ws ++ ws0 ++ s' ++ [c])
          with (96%N :: (str "``json" ++ ws ++ ws0 ++ s') ++ [c])
          by (simpl; by rewrite <- !app_assoc).
        by apply strip_fixed. }
      rewrite startswith_app, replace_first_prefix.
      assert (endswith FENCE (ws ++ ws0 ++ strip text) = false) as ->.
      { rewrite app_assoc. apply no_closing_fence_app; [|done|].
        - unfold all_space. rewrite Forall_app. done.
        - rewrite Hw. by destruct s'. }
      pose proof (strip_padded (ws ++ ws0) (strip text) []) as E.
      rewrite app_nil_r, <- app_assoc in E. rewrite E; [apply strip_idemp| |constructor].
      unfold all_space. rewrite Forall_app. done.
Qed.

Lemma lone_fences_are_stripped_witness :
  clean_response ((NL ++ DOC_X1) ++ NL ++ FENCE) = strip (NL ++ DOC_X1)
  /\ clean_response (FENCE_JSON ++ NL ++ NL ++ DOC_X1) = strip (NL ++ DOC_X1).
Proof.
  destruct (lone_fences_are_stripped NL (NL ++ DOC_X1)) as [H1 H2].
  - by repeat constructor.
  - split; [apply H1 | apply H2]; reflexivity.
Defined.

(** ** Fences with another tag *)

Lemma rstrip_cons_nonspace (c : N) (s : pystr) :
  py_isspace c = false -> rstrip (c :: s) = c :: rstrip s.
Proof.
  intros Hc. unfold rstrip. rewrite reverse_cons.
  destruct (decide (lstrip (reverse s) = [])) as [He|Hne].
  - destruct (lstrip_split (reverse s)) as (ws & Hws & Hs & _).
    rewrite He, app_nil_r in Hs. rewrite He, Hs.
    rewrite lstrip_spaces by done. by rewrite lstrip_fixed.
  - rewrite lstrip_app_nonempty by done. by rewrite reverse_app.
Qed.

Lemma startswith_app_same (p q s : pystr) :
  startswith (p ++ q) (p ++ s) = startswith q s.
Proof. induction p as [|a p IH]; simpl; [done|]. by rewrite N.eqb_refl. Qed.

Lemma startswith_app_l (p q s : pystr) :
  startswith (p ++ q) s = true -> startswith p s = true.
Proof.
  intros [s' ->]%startswith_prefix. rewrite <- app_assoc. apply startswith_app.
Qed.

(** A tag that does not begin with [json] does not come to begin with it
    by the line feed that follows. *)
Lemma other_tag_app (tag rest : pystr) :
  startswith (str "json") tag = false ->
  startswith (str "json") (tag ++ NL ++ rest) = false.
Proof.
  intros Htag.
  destruct (startswith (str "json") (tag ++ NL ++ rest)) eqn:H; [|done].
  destruct (startswith_app_inv _ _ _ H) as [Hl | (c & p2 & b' & Hp & Hb & _)];
    [congruence|].
  simpl in Hb. injection Hb as <- <-.
  destruct tag as [|? [|? [|? [|? ?]]]]; cbv in Hp; by simplify_eq.
Qed.

(** What is left of a block whose tag does not begin with [json]: the
    closing fence is cut off, the opening fence and the tag stay. *)
Lemma clean_response_other_fence (tag text : pystr) :
  startswith (str "json") tag = false ->
  clean_response (fenced tag text) = FENCE ++ rstrip (tag ++ NL ++ text ++ NL).
Proof.
  intros Htag. unfold clean_response, fenced.
  assert (strip (FENCE ++ tag ++ NL ++ text ++ NL ++ FENCE)
          = FENCE ++ tag ++ NL ++ text ++ NL ++ FENCE) as ->.
  { replace (FENCE ++ tag ++ NL ++ text ++ NL ++ FENCE)
      with (96%N :: (str "``" ++ tag ++ NL ++ text ++ NL ++ str "``") ++ [96%N]).
    - by apply strip_fixed.
    - change FENCE with (96%N :: str "``") at 1.
      change FENCE with (str "``" ++ [96%N]).
      rewrite <- !app_assoc. reflexivity. }
  change FENCE_JSON with (FENCE ++ str "json").
  rewrite startswith_app_same, (other_tag_app tag (text ++ NL ++ FENCE) Htag).
  replace (FENCE ++ tag ++ NL ++ text ++ NL ++ FENCE)
    with ((FENCE ++ tag ++ NL ++ text ++ NL) ++ FENCE)
    by (by rewrite <- !app_assoc).
  rewrite endswith_app, rsplit1_suffix.
  unfold strip. change FENCE with [96%N; 96%N; 96%N]. simpl app.
  rewrite lstrip_fixed by done.
  by rewrite !rstrip_cons_nonspace.
Qed.

(** [json.loads] accepts no text that begins or ends with a fence. *)
Lemma decoded_has_no_fence_at_all (s : pystr) (v : pyval) :
  json_loads s = Decoded v ->
  startswith FENCE s = false /\ endswith FENCE s = false.
Proof.
  intros H. split; [|by apply (decoded_has_no_fence s v)].
  unfold json_loads in H. destruct (startswith [65279%N] s); [done|].
  destruct (scan_once _ (skip_ws s)) as [w r|] eqn:E; [|done].
  destruct s as [|c s']; [done|].
  change FENCE with (96%N :: str "``"). apply startswith_head.
  intros ->. change (skip_ws (96%N :: s')) with (96%N :: s') in E.
  by apply scan_once_backtick in E.
Qed.

(** C5. The code falls short of the claim: of the opening fences, only the
    one spelled [```json] is removed. When the language tag is anything that
    does not begin with [json] (such as [JSON] or [js], or no tag at all),
    the closing fence is cut off and the opening fence stays with its tag:
    the text that reaches the decoder begins with the fence. A decoder that,
    like [json.loads], accepts no text that begins or ends with a fence
    rejects it, and the record gets an error document, where the same text
    outside the block gives the decoded document. *)
Theorem other_opening_fences_are_left
    (loads : decoder) (index : nat) (call_id : pyval) (tag text : pystr)
    (v : pyval) :
  (forall s d, loads s = Decoded d ->
               startswith FENCE s = false /\ endswith FENCE s = false) ->
  startswith (str "json") tag = false ->
  loads (strip text) = Decoded v ->
  annotate loads index call_id (Returns (Some text)) = (v, PrintDone index call_id)
  /\ clean_response (fenced tag text) = FENCE ++ rstrip (tag ++ NL ++ text ++ NL)
  /\ (forall d, loads (clean_response (fenced tag text)) <> Decoded d)
  /\ ((annotate loads index call_id (Returns (Some (fenced tag text)))).1
      = PDict [(K_error, PStr INVALID_JSON);
               (K_raw, PStr (slice_to 500 (clean_response (fenced tag text))))]
      \/ exists msg,
           (annotate loads index call_id (Returns (Some (fenced tag text)))).1
           = PDict [(K_error, PStr msg)]).
Proof.
  intros Hloads Htag Hv.
  pose proof (clean_response_other_fence tag text Htag) as Hclean.
  assert (forall d, loads (clean_response (fenced tag text)) <> Decoded d) as Hno.
  { intros d Hd. destruct (Hloads _ _ Hd) as [Hs _].
    by rewrite Hclean, startswith_app in Hs. }
  split; [|split; [done|split; [done|]]].
  - destruct (Hloads _ _ Hv) as [Hs He].
    unfold annotate, try_block. rewrite clean_response_plain, Hv; [done| |done].
    destruct (startswith FENCE_JSON (strip text)) eqn:E; [|done].
    change FENCE_JSON with (FENCE ++ str "json") in E.
    apply startswith_app_l in E. congruence.
  - unfold annotate, try_block.
    destruct (loads (clean_response (fenced tag text))) as [d|diag|msg] eqn:E.
    + by destruct (Hno d).
    + by left.
    + right. by exists msg.
Qed.

Lemma other_opening_fences_are_left_witness :
  annotate json_loads 0 PNone (Returns (Some DOC_X1))
  = (PDict [(str "x", PInt 1)], PrintDone 0 PNone)
  /\ clean_response (fenced (str "JSON") DOC_X1)
     = FENCE ++ rstrip (str "JSON" ++ NL ++ DOC_X1 ++ NL)
  /\ (forall d,
        json_loads (clean_response (fenced (str "JSON") DOC_X1)) <> Decoded d)
  /\ ((annotate json_loads 0 PNone (Returns (Some (fenced (str "JSON") DOC_X1)))).1
      = PDict [(K_error, PStr INVALID_JSON);
               (K_raw,
                PStr (slice_to 500 (clean_response (fenced (str "JSON") DOC_X1))))]
      \/ exists msg,
           (annotate json_loads 0 PNone
              (Returns (Some (fenced (str "JSON") DOC_X1)))).1
           = PDict [(K_error, PStr msg)]).
Proof.
  apply (other_opening_fences_are_left json_loads 0 PNone (str "JSON") DOC_X1
           (PDict [(str "x", PInt 1)])).
  - apply decoded_has_no_fence_at_all.
  - reflexivity.
  - vm_compute. reflexivity.
Defined.

(** A tag that begins with [json] and goes on: the fence is removed with
    the first four letters of the tag, the rest of the tag stays in front
    of the document, and the decoder rejects the text all the same. *)
Example longer_tag_is_cut_in_two :
  clean_response (fenced (str "json5") DOC_X1) = str "5" ++ NL ++ DOC_X1
  /\ (annotate json_loads 0 PNone (Returns (Some (fenced (str "json5") DOC_X1)))).1
     = PDict [(K_error, PStr INVALID_JSON);
              (K_raw, PStr (str "5" ++ NL ++ DOC_X1))].
Proof. vm_compute. split; reflexivity. Qed.

(** ** More on the tally *)

(** X3. No record is counted twice: whatever the annotations, the three
    counts together never exceed the number of records. *)
Theorem tally_never_counts_twice (cs : list pydict) :
  (success (summarize cs) + skipped (summarize cs) + errors (summarize cs)
   <= total (summarize cs))%nat.
Proof.
  simpl. induction cs as [|c cs IH]; [done|].
  rewrite !tally_cons. pose proof (tally_classes c) as Hc. simpl in Hc.
  destruct (counts_as_success c), (counts_as_skipped c), (counts_as_error c);
    destruct (negb _ && _ && _) in Hc; simpl in *; lia.
Qed.

(** X4. A call that fails is counted as an error and as nothing else: when
    the request raises, when the response has no text, or when the decoder
    rejects the cleaned text, the record carries a dictionary with an
    ['error'] key, which line 203 counts and lines 201 and 202 do not. *)
Theorem failed_call_counts_as_error
    (loads : decoder) (client : client_fn) (prompt : pystr)
    (index : nat) (d : pydict) (call_id : pyval) (transcript : pystr) :
  enter index d = EntryCall call_id transcript ->
  (exists msg,
     try_block loads index call_id (client index (prompt ++ transcript)) = Raises msg)
  \/ (exists text diag,
        client index (prompt ++ transcript) = Returns (Some text)
        /\ loads (clean_response text) = JSONDecodeError diag) ->
  error_in (expected_annotation loads client prompt index d) = true
  /\ counts_as_error (analyzed loads client prompt index d) = true
  /\ counts_as_success (analyzed loads client prompt index d) = false
  /\ counts_as_skipped (analyzed loads client prompt index d) = false.
Proof.
  intros Hen Hfail.
  assert (exists doc, expected_annotation loads client prompt index d = PDict doc
                      /\ dict_has K_error doc = true) as (doc & He & Hdoc).
  { unfold expected_annotation, annotate. rewrite Hen.
    destruct Hfail as [[msg Hm] | (text & diag & Hc & Hl)].
    - rewrite Hm. by eexists.
    - unfold try_block. rewrite Hc, Hl. by eexists. }
  unfold analyzed, counts_as_error, counts_as_success, counts_as_skipped,
    dict_get_py, dict_get_default.
  rewrite He, dict_get_set_eq. simpl. rewrite Hdoc. by destruct doc.
Qed.

Lemma failed_call_counts_as_error_witness :
  error_in (expected_annotation json_loads sample_client sample_prompt 2 rec_c) = true
  /\ counts_as_error (analyzed json_loads sample_client sample_prompt 2 rec_c) = true
  /\ counts_as_success (analyzed json_loads sample_client sample_prompt 2 rec_c) = false
  /\ counts_as_skipped (analyzed json_loads sample_client sample_prompt 2 rec_c) = false.
Proof.
  apply (failed_call_counts_as_error json_loads sample_client sample_prompt 2 rec_c
           (PStr (str "c")) (str "world")).
  - reflexivity.
  - left. exists TIMED_OUT. reflexivity.
Defined.

(** X5. A call that succeeds with a document that has an ['error'] key of
    its own is counted as an error all the same: the tally tells failures
    from successes by that key alone. *)
Theorem error_key_counts_as_error
    (loads : decoder) (client : client_fn) (prompt : pystr)
    (index : nat) (d : pydict) (call_id : pyval) (transcript text : pystr)
    (doc : pydict) :
  enter index d = EntryCall call_id transcript ->
  client index (prompt ++ transcript) = Returns (Some text) ->
  loads (clean_response text) = Decoded (PDict doc) ->
  dict_has K_error doc = true ->
  analyzed loads client prompt index d = dict_set K_llm_analysis (PDict doc) d
  /\ counts_as_error (analyzed loads client prompt index d) = true
  /\ counts_as_success (analyzed loads client prompt index d) = false
  /\ counts_as_skipped (analyzed loads client prompt index d) = false.
Proof.
  intros Hen Hc Hl Hdoc.
  assert (expected_annotation loads client prompt index d = PDict doc) as He.
  { unfold expected_annotation, annotate, try_block. by rewrite Hen, Hc, Hl. }
  unfold analyzed, counts_as_error, counts_as_success, counts_as_skipped,
    dict_get_py, dict_get_default.
  rewrite He, dict_get_set_eq. simpl. rewrite Hdoc. by destruct doc.
Qed.

Lemma error_key_counts_as_error_witness :
  analyzed json_loads (constant_client DOC_ERROR_KEY) sample_prompt 0 rec_a
  = dict_set K_llm_analysis (PDict [(K_error, PInt 1)]) rec_a
  /\ counts_as_error
       (analyzed json_loads (constant_client DOC_ERROR_KEY) sample_prompt 0 rec_a)
     = true
  /\ counts_as_success
       (analyzed json_loads (constant_client DOC_ERROR_KEY) sample_prompt 0 rec_a)
     = false
  /\ counts_as_skipped
       (analyzed json_loads (constant_client DOC_ERROR_KEY) sample_prompt 0 rec_a)
     = false.
Proof.
  apply (error_key_counts_as_error json_loads (constant_client DOC_ERROR_KEY)
           sample_prompt 0 rec_a (PStr (str "a")) (str "hello") DOC_ERROR_KEY
           [(K_error, PInt 1)]).
  - reflexivity.
  - reflexivity.
  - vm_compute. reflexivity.
  - reflexivity.
Defined.

(** ** [main] from end to end *)

Lemma valid_calls_seq (records : list pydict) :
  valid_calls (seq 0 (length records)) records.
Proof.
  unfold valid_calls. apply Forall_seq. intros j Hj. lia.
Qed.

(** What [main] has written when it completes. *)
Lemma main_completed (env : environment) (loads : decoder) (client : client_fn)
    (schedule : list nat) (written : list pydict) (tr : list event) (s : summary) :
  main env loads client schedule = MainCompleted written tr s ->
  exists records prompt,
    input_file env = Some records /\ prompt_file env = Some prompt
    /\ s = summarize written
    /\ if genai_installed env
       then written = imap (analyzed loads client prompt) records
            /\ 0 <= arg_concurrent env
       else written = records /\ tr = [PrintNotInstalled].
Proof.
  unfold main. destruct (input_file env) as [records|]; [|done].
  destruct (prompt_file env) as [prompt|]; [|done]. simpl.
  unfold analyze_all_calls.
  destruct (genai_installed env); simpl.
  - destruct (get_api_key (configured_key env)); [|done].
    destruct (arg_concurrent env <? 0) eqn:HK; [done|].
    apply Z.ltb_ge in HK.
    destruct (gather _ _) as [[results|msg]|] eqn:Hg; try done.
    intros [= <- <- <-]. exists records, prompt.
    repeat split; try done.
    rewrite (returned_records loads client prompt (arg_model env)
               (seq 0 (length records)) records (arg_concurrent env) schedule results
               HK (valid_calls_seq records) (NoDup_seq 0 (length records)) Hg).
    by rewrite deref_load.
  - intros [= <- <- <-]. exists records, prompt. by rewrite deref_load.
Qed.

(** X6. Whenever [main] writes the output file, the file holds the input
    records, as many and in the same order, each with its own fields as they
    were and ['llm_analysis'] set to the annotation of that very record; the
    total printed is the number of input records. This needs no assumption
    on the schedule, the client, the decoder or the records. *)
Theorem main_writes_the_input_records
    (env : environment) (loads : decoder) (client : client_fn)
    (schedule : list nat) (written : list pydict) (tr : list event) (s : summary) :
  main env loads client schedule = MainCompleted written tr s ->
  exists records prompt,
    input_file env = Some records /\ prompt_file env = Some prompt
    /\ length written = length records
    /\ map (dict_without K_llm_analysis) written
       = map (dict_without K_llm_analysis) records
    /\ total s = length records
    /\ (genai_installed env = true ->
        written = imap (analyzed loads client prompt) records).
Proof.
  intros (records & prompt & Hin & Hp & -> & Hw)%main_completed.
  exists records, prompt. split; [done|]. split; [done|].
  destruct (genai_installed env).
  - destruct Hw as [-> _]. simpl. rewrite length_imap. repeat split; try done.
    apply list_eq. intros i. change (@map) with (@fmap list _).
    rewrite !list_lookup_fmap, list_lookup_imap.
    destruct (records !! i) as [d|]; simpl; [|done].
    unfold analyzed. by rewrite dict_without_set.
  - destruct Hw as [-> _]. by repeat split.
Qed.

Lemma main_writes_the_input_records_witness :
  exists records prompt,
    input_file (sample_environment sample_records) = Some records
    /\ prompt_file (sample_environment sample_records) = Some prompt
    /\ length [rec_a ++ [(K_llm_analysis, PDict [(str "x", PInt 1)])];
               rec_b ++ [(K_llm_analysis, PNone)];
               rec_c ++ [(K_llm_analysis, PDict [(K_error, PStr TIMED_OUT)])]]
       = length records
    /\ map (dict_without K_llm_analysis)
           [rec_a ++ [(K_llm_analysis, PDict [(str "x", PInt 1)])];
            rec_b ++ [(K_llm_analysis, PNone)];
            rec_c ++ [(K_llm_analysis, PDict [(K_error, PStr TIMED_OUT)])]]
       = map (dict_without K_llm_analysis) records
    /\ total (Summary 3 1 1 1) = length records
    /\ (genai_installed (sample_environment sample_records) = true ->
        [rec_a ++ [(K_llm_analysis, PDict [(str "x", PInt 1)])];
         rec_b ++ [(K_llm_analysis, PNone)];
         rec_c ++ [(K_llm_analysis, PDict [(K_error, PStr TIMED_OUT)])]]
        = imap (analyzed json_loads sample_client prompt) records).
Proof.
  apply (main_writes_the_input_records (sample_environment sample_records)
           json_loads sample_client sample_schedule _
           (trace (sample_state sample_schedule))).
  vm_compute. reflexivity.
Defined.

(** X7. When every answer decodes to an object, to [null] or to a truthy
    value, the counts printed by [main] add up to the total: every record
    is then in exactly one of the three classes. *)
Theorem summary_adds_up_for_objects
    (env : environment) (loads : decoder) (client : client_fn)
    (schedule : list nat) (written : list pydict) (tr : list event) (s : summary) :
  genai_installed env = true ->
  (forall i contents text v,
     client i contents = Returns (Some text) ->
     loads (clean_response text) = Decoded v ->
     v = PNone \/ is_dict v = true \/ truthy v = true) ->
  main env loads client schedule = MainCompleted written tr s ->
  (success s + skipped s + errors s = total s)%nat.
Proof.
  intros Hinst Hdocs (records & prompt & _ & _ & -> & Hw)%main_completed.
  rewrite Hinst in Hw. destruct Hw as [-> _].
  apply tally_adds_up. apply Forall_lookup. intros i c Hc.
  rewrite list_lookup_imap in Hc.
  destruct (records !! i) as [d|]; simpl in Hc; [|done]. injection Hc as <-.
  unfold counts_as_skipped, analyzed, dict_get_py. rewrite dict_get_set_eq. simpl.
  unfold expected_annotation.
  destruct (enter i d) as [cid|msg|cid tx]; try done.
  unfold annotate, try_block.
  destruct (client i (prompt ++ tx)) as [[text|]|msg] eqn:Hcl; try done.
  destruct (loads (clean_response text)) as [v|diag|msg] eqn:Hl; try done.
  simpl. destruct (Hdocs _ _ _ _ Hcl Hl) as [-> | [Hv | Hv]]; [done| |].
  - rewrite Hv. by rewrite orb_true_r.
  - by rewrite Hv.
Qed.

Lemma summary_adds_up_for_objects_witness :
  (success (Summary 3 2 1 0) + skipped (Summary 3 2 1 0) + errors (Summary 3 2 1 0)
   = total (Summary 3 2 1 0))%nat.
Proof.
  apply (summary_adds_up_for_objects (sample_environment sample_records) json_loads
           (constant_client DOC_X1) sample_schedule
           [rec_a ++ [(K_llm_analysis, PDict [(str "x", PInt 1)])];
            rec_b ++ [(K_llm_analysis, PNone)];
            rec_c ++ [(K_llm_analysis, PDict [(str "x", PInt 1)])]]
           (trace (run json_loads (constant_client DOC_X1) sample_prompt DEFAULT_MODEL
                       sample_calls sample_schedule
                       (init_state sample_calls sample_records 2)))).
  - reflexivity.
  - intros i contents text v [= <-]. vm_compute. intros [= <-]. right. by left.
  - vm_compute. reflexivity.
Defined.

Lemma dict_set_set (k : pystr) (v v' : pyval) (d : pydict) :
  dict_set k v (dict_set k v' d) = dict_set k v d.
Proof.
  induction d as [|[k0 v0] d IH]; simpl.
  - by rewrite bool_decide_eq_true_2.
  - destruct (bool_decide (k0 = k)) eqn:E; simpl; rewrite E; [done|]. by rewrite IH.
Qed.

(** The annotation of a record does not depend on an annotation it already
    carries. *)
Lemma analyzed_overwrites (loads : decoder) (client : client_fn) (prompt : pystr)
    (i : nat) (v : pyval) (d : pydict) :
  analyzed loads client prompt i (dict_set K_llm_analysis v d)
  = analyzed loads client prompt i d.
Proof.
  unfold analyzed, expected_annotation.
  rewrite (enter_frame i (dict_set K_llm_analysis v d) d)
    by apply dict_without_set.
  by rewrite dict_set_set.
Qed.

(** X8. Running the analyzer on its own output: the second run writes what
    a single run on the original records would have written, with the
    annotations of the first run replaced where they stand. Nothing of an
    earlier annotation survives or influences the later one. *)
Theorem second_pass_overwrites_the_first
    (env1 env2 : environment) (loads1 loads2 : decoder) (client1 client2 : client_fn)
    (schedule1 schedule2 : list nat) (records written1 written2 : list pydict)
    (prompt2 : pystr) (tr1 tr2 : list event) (s1 s2 : summary) :
  input_file env1 = Some records ->
  main env1 loads1 client1 schedule1 = MainCompleted written1 tr1 s1 ->
  input_file env2 = Some written1 -> prompt_file env2 = Some prompt2 ->
  genai_installed env2 = true ->
  main env2 loads2 client2 schedule2 = MainCompleted written2 tr2 s2 ->
  written2 = imap (analyzed loads2 client2 prompt2) records.
Proof.
  intros Hin1 (recs1 & p1 & Hin1' & _ & _ & Hw1)%main_completed
         Hin2 Hp2 Hinst (recs2 & p2 & Hin2' & Hp2' & _ & Hw2)%main_completed.
  rewrite Hinst in Hw2. destruct Hw2 as [-> _].
  assert (recs1 = records) as -> by congruence.
  assert (recs2 = written1) as -> by congruence.
  assert (p2 = prompt2) as -> by congruence.
  destruct (genai_installed env1).
  - destruct Hw1 as [-> _]. apply list_eq. intros i.
    rewrite !list_lookup_imap. destruct (records !! i) as [d|]; simpl; [|done].
    unfold analyzed at 2. by rewrite analyzed_overwrites.
  - by destruct Hw1 as [-> _].
Qed.

Lemma second_pass_overwrites_the_first_witness :
  [rec_a ++ [(K_llm_analysis, PDict [(str "x", PInt 1)])];
   rec_b ++ [(K_llm_analysis, PNone)];
   rec_c ++ [(K_llm_analysis, PDict [(str "x", PInt 1)])]]
  = imap (analyzed json_loads (constant_client DOC_X1) sample_prompt) sample_records.
Proof.
  apply (second_pass_overwrites_the_first
           (sample_environment sample_records)
           (sample_environment
              [rec_a ++ [(K_llm_analysis, PDict [(str "x", PInt 1)])];
               rec_b ++ [(K_llm_analysis, PNone)];
               rec_c ++ [(K_llm_analysis, PDict [(K_error, PStr TIMED_OUT)])]])
           json_loads json_loads sample_client (constant_client DOC_X1)
           sample_schedule sample_schedule sample_records
           [rec_a ++ [(K_llm_analysis, PDict [(str "x", PInt 1)])];
            rec_b ++ [(K_llm_analysis, PNone)];
            rec_c ++ [(K_llm_analysis, PDict [(K_error, PStr TIMED_OUT)])]]
           _ sample_prompt
           (trace (sample_state sample_schedule))
           (trace (run json_loads (constant_client DOC_X1) sample_prompt DEFAULT_MODEL
                       sample_calls sample_schedule
                       (init_state sample_calls
                          [rec_a ++ [(K_llm_analysis, PDict [(str "x", PInt 1)])];
                           rec_b ++ [(K_llm_analysis, PNone)];
                           rec_c ++ [(K_llm_analysis,
                                      PDict [(K_error, PStr TIMED_OUT)])]] 2)))
           (Summary 3 1 1 1) (Summary 3 2 1 0)).
  - reflexivity.
  - vm_compute. reflexivity.
  - reflexivity.
  - reflexivity.
  - reflexivity.
  - vm_compute. reflexivity.
Defined.

(** ** More on the batch *)

Section More_batch_facts.
Variable loads : decoder.
Variable client : client_fn.
Variables prompt model : pystr.
Variable calls : list nat.
Variable h0 : list pydict.
Variable K : Z.

Local Abbreviation step := (analyze_single_transcript loads client prompt model calls).
Local Abbreviation run := (run loads client prompt model calls).
Local Abbreviation transition := (transition loads client prompt model calls).
Local Abbreviation invariant := (invariant calls h0 K).
Local Abbreviation init := (init_state calls h0 K).

(** Once a task has raised, no task moves any more. *)
Lemma run_after_failure (schedule : list nat) (st : state) (msg : pystr) :
  failure st = Some msg -> run schedule st = st.
Proof.
  intros Hf. induction schedule as [|i rest IH]; [done|].
  simpl. unfold analyze_single_transcript. by rewrite Hf.
Qed.

(** Once all tasks have returned, no task moves any more. *)
Lemma run_after_return (schedule : list nat) (st : state) :
  forallb is_returned (tasks st) = true -> run schedule st = st.
Proof.
  intros Hall.
  destruct (run_remaining loads client prompt model calls schedule st) as [Hlt|]; [|done].
  exfalso. assert (remaining st = 0%nat); [|lia].
  unfold remaining. clear Hlt. induction (tasks st) as [|t l IH]; [done|].
  simpl in *. apply andb_prop in Hall as [Ht Hl]. destruct t; try done.
  by apply IH.
Qed.

Lemma invariant_run_from (schedule : list nat) (st : state) :
  invariant st -> invariant (run schedule st).
Proof.
  intros Hinv. apply (run_invariant loads client prompt model calls invariant); [|done].
  intros i s s' Hs Ht. by eapply invariant_step.
Qed.

(** Taking turns, the tasks end the batch, by a return or by an exception,
    within three rounds per task. *)
Lemma round_robin_ends (rounds : nat) (st : state) :
  invariant st -> valid_calls calls h0 -> 1 <= K -> (remaining st <= rounds)%nat ->
  exists outcome,
    gather calls (run (round_robin (length calls) rounds) st) = Some outcome.
Proof.
  intros Hinv Hv HK. revert st Hinv.
  induction rounds as [|rounds IH]; intros st Hinv Hrem.
  - simpl. unfold gather. destruct (failure st) eqn:Hf; [by eexists|].
    rewrite (remaining_zero calls h0 K st Hinv Hf) by lia. by eexists.
  - destruct (failure st) as [msg|] eqn:Hf.
    { rewrite (run_after_failure _ _ msg Hf). unfold gather. rewrite Hf. by eexists. }
    destruct (forallb is_returned (tasks st)) eqn:Hall.
    { rewrite (run_after_return _ _ Hall). unfold gather. rewrite Hf, Hall.
      by eexists. }
    rewrite run_round_robin. apply IH.
    + by apply invariant_run_from.
    + pose proof (round_progress loads client prompt model calls h0 K st
                    Hinv Hv HK Hf Hall). lia.
Qed.

Lemma fair_schedule_ends (schedule : list nat) :
  1 <= K -> valid_calls calls h0 ->
  exists outcome,
    gather calls (run (schedule ++ round_robin (length calls) (3 * length calls)) init)
    = Some outcome.
Proof.
  intros HK Hv. rewrite run_app. apply round_robin_ends; try done.
  - apply invariant_run. lia.
  - destruct (run_remaining loads client prompt model calls schedule init)
      as [Hlt|Heq].
    + rewrite remaining_init in Hlt. lia.
    + rewrite Heq, remaining_init. lia.
Qed.

(** The exception that ends a batch is the [AttributeError] of a record
    whose transcript has no [strip]. *)
Lemma failure_is_attribute_error (schedule : list nat) (msg : pystr) :
  0 <= K -> failure (run schedule init) = Some msg ->
  exists j r d0,
    calls !! j = Some r /\ h0 !! r = Some d0
    /\ enter j d0 = EntryAttributeError msg.
Proof.
  intros HK.
  pose (P := fun st : state =>
               invariant st
               /\ (failure st = Some msg ->
                   exists j r d0, calls !! j = Some r /\ h0 !! r = Some d0
                                  /\ enter j d0 = EntryAttributeError msg)).
  assert (P (run schedule init)) as [_ HP]; [|done].
  apply (run_invariant loads client prompt model calls P).
  - intros i st st' [Hinv Hst] Ht. split; [by eapply invariant_step|].
    destruct Ht as [| |r d m Hf Hr Ht Hd He| |]; simpl; try done.
    intros [= ->].
    assert (exists d0, h0 !! r = Some d0) as [d0 Hd0].
    { apply lookup_lt_is_Some_2.
      apply lookup_lt_Some in Hd.
      pose proof (f_equal length (inv_frame _ _ _ _ Hinv)) as Hlen.
      rewrite !length_map in Hlen. lia. }
    exists i, r, d0. repeat split; try done.
    by rewrite <- (enter_stable h0 (heap st) i r d d0 (inv_frame _ _ _ _ Hinv) Hd Hd0).
  - split; [by apply invariant_init | done].
Qed.

Lemma enter_call_transcript (i : nat) (d : pydict) (cid : pyval) (s : pystr) :
  enter i d = EntryCall cid s -> dict_get K_transcript d = Some (PStr s).
Proof.
  unfold enter, dict_get_py.
  destruct (dict_get K_transcript d) as [[|b|z|f|t|l|l]|]; simpl; try done.
  - by destruct b.
  - by destruct (negb (z =? 0)).
  - by destruct f.
  - destruct (negb (bool_decide (t = []))); [|done].
    destruct (negb (negb (bool_decide (strip t = [])))); [done|]. by intros [= _ ->].
  - by destruct l.
  - by destruct l.
Qed.

Lemma request_inv_run (schedule : list nat) :
  request_inv prompt model calls (run schedule init).
Proof.
  apply (run_invariant loads client prompt model calls
           (request_inv prompt model calls)).
  - intros j st st' [Hcount Hreq] Ht. split.
    + intros i. specialize (Hcount i).
      destruct (decide (i = j)) as [->|Hne].
      * destruct Ht as [r d Hf Hr Ht Hd Hs | r d cid Hf Hr Ht Hd He
                       | r d msg Hf Hr Ht Hd He | r d cid tx Hf Hr Ht Hd He
                       | r d cid tx Hf Hr Ht Hd]; simpl;
          rewrite Ht in Hcount;
          rewrite list_lookup_insert_eq by (by eapply lookup_lt_Some);
          try done.
        -- rewrite requests_of_other by done. lia.
        -- rewrite requests_of_request, bool_decide_eq_true_2 by done. lia.
        -- rewrite requests_of_other by apply annotate_prints. done.
      * rewrite (transition_requests_other loads client prompt model calls i j st st')
          by done.
        destruct (transition_tasks loads client prompt model calls j st st' Ht)
          as (t & t' & _ & ->).
        by rewrite list_lookup_insert_ne.
    + assert (forall r d v i m c,
                heap st !! r = Some d ->
                (m = model
                 /\ exists r' d' s, calls !! i = Some r' /\ heap st !! r' = Some d'
                                    /\ dict_get K_transcript d' = Some (PStr s)
                                    /\ c = prompt ++ s) ->
                m = model
                /\ exists r' d' s,
                     calls !! i = Some r'
                     /\ <[r := dict_set K_llm_analysis v d]> (heap st) !! r' = Some d'
                     /\ dict_get K_transcript d' = Some (PStr s)
                     /\ c = prompt ++ s) as Hkeep.
      { intros r d v i m c Hd (-> & r' & d' & s & Hr' & Hd' & Hs & ->).
        split; [done|].
        destruct (decide (r' = r)) as [->|Hne].
        - exists r, (dict_set K_llm_analysis v d), s.
          rewrite list_lookup_insert_eq by (by eapply lookup_lt_Some).
          repeat split; try done.
          rewrite dict_get_set_ne by done. congruence.
        - exists r', d', s. by rewrite list_lookup_insert_ne. }
      intros i m c Hin.
      destruct Ht as [r d Hf Hr Ht Hd Hs | r d cid Hf Hr Ht Hd He
                     | r d msg Hf Hr Ht Hd He | r d cid tx Hf Hr Ht Hd He
                     | r d cid tx Hf Hr Ht Hd]; simpl in *.
      * by apply Hreq.
      * apply elem_of_app in Hin as [Hin|Hin]; [|by apply list_elem_of_singleton in Hin].
        apply Hkeep; [done|]. by apply Hreq.
      * by apply Hreq.
      * apply elem_of_app in Hin as [Hin|Hin]; [by apply Hreq|].
        apply elem_of_cons in Hin as [Hin|Hin]; [done|].
        apply list_elem_of_singleton in Hin. injection Hin as -> -> ->.
        split; [done|]. exists r, d, tx. repeat split; try done.
        by eapply enter_call_transcript.
      * apply elem_of_app in Hin as [Hin|Hin].
        -- apply Hkeep; [done|]. by apply Hreq.
        -- apply list_elem_of_singleton in Hin.
           pose proof (annotate_prints loads j i cid (client j (prompt ++ tx))) as Hp.
           rewrite <- Hin in Hp. simpl in Hp. by rewrite bool_decide_eq_true_2 in Hp.
  - split.
    + intros i. simpl. by destruct (replicate (length calls) Waiting !! i) as [[]|] eqn:E;
        try (apply lookup_replicate in E as [? _]; done).
    + intros i m c Hin. simpl in Hin. by apply elem_of_nil in Hin.
Qed.
End More_batch_facts.

(** X9. No retry, no stray request: at every moment of every schedule the
    client has been asked at most once on behalf of each task, and each
    request made is for the model of the batch and consists of the prompt
    followed by the transcript of the task's own record, as it stands in
    the record (not trimmed). *)
Theorem one_request_per_record
    (loads : decoder) (client : client_fn)
    (h0 : list pydict) (calls : list nat) (prompt model : pystr) (K : Z)
    (schedule : list nat) :
  (forall i,
     (requests_of i (trace (run loads client prompt model calls schedule
                                (init_state calls h0 K))) <= 1)%nat)
  /\ (forall i m c,
        GenerateContent i m c
          ∈ trace (run loads client prompt model calls schedule
                       (init_state calls h0 K)) ->
        m = model
        /\ exists r d0 s,
             calls !! i = Some r /\ h0 !! r = Some d0
             /\ dict_get K_transcript d0 = Some (PStr s)
             /\ c = prompt ++ s).
Proof.
  destruct (request_inv_run loads client prompt model calls h0 K schedule)
    as [Hcount Hreq].
  split.
  - intros i. specialize (Hcount i).
    destruct (tasks _ !! i) as [[]|]; lia.
  - intros i m c Hin.
    destruct (Hreq i m c Hin) as (-> & r & d & s & Hr & Hd & Hs & ->).
    split; [done|].
    pose proof (frame_run loads client prompt model calls schedule
                  (init_state calls h0 K)) as Hframe. simpl in Hframe.
    assert (map (dict_without K_llm_analysis)
                (heap (run loads client prompt model calls schedule
                           (init_state calls h0 K))) !! r
            = map (dict_without K_llm_analysis) h0 !! r) as E by by rewrite Hframe.
    change (@map) with (@fmap list _) in E.
    rewrite !list_lookup_fmap, Hd in E. simpl in E.
    destruct (h0 !! r) as [d0|] eqn:Hd0; [|done]. injection E as E.
    exists r, d0, s. repeat split; try done.
    by rewrite <- (dict_without_get K_llm_analysis K_transcript d d0 E).
Qed.

(** X10. The slots are accounted for: at every moment the semaphore's
    counter and the tasks inside [async with] add up to the limit, the
    counter stays between 0 and the limit, and when the batch has returned
    every slot has been given back. *)
Theorem slots_are_given_back
    (loads : decoder) (client : client_fn)
    (h0 : list pydict) (calls : list nat) (prompt model : pystr) (K : Z)
    (schedule : list nat) :
  0 <= K ->
  sem (run loads client prompt model calls schedule (init_state calls h0 K))
  + Z.of_nat (slots_held (run loads client prompt model calls schedule
                              (init_state calls h0 K))) = K
  /\ 0 <= sem (run loads client prompt model calls schedule (init_state calls h0 K))
     <= K
  /\ (gather calls (run loads client prompt model calls schedule
                        (init_state calls h0 K)) = Some (Returns calls) ->
      sem (run loads client prompt model calls schedule (init_state calls h0 K)) = K).
Proof.
  intros HK.
  pose proof (invariant_run loads client prompt model calls h0 K schedule HK) as Hinv.
  pose proof (inv_sem _ _ _ _ Hinv) as Hsem.
  pose proof (inv_sem_nonneg _ _ _ _ Hinv) as Hnn.
  split; [done|]. split; [lia|].
  intros (_ & _ & Hret)%gather_returns.
  assert (slots_held (run loads client prompt model calls schedule
                          (init_state calls h0 K)) = 0%nat) as Hzero; [|lia].
  apply filter_none_length. intros i t Ht. by rewrite (Hret i t Ht).
Qed.

Lemma slots_are_given_back_witness :
  sem (sample_state sample_schedule)
  + Z.of_nat (slots_held (sample_state sample_schedule)) = 2
  /\ 0 <= sem (sample_state sample_schedule) <= 2
  /\ (gather sample_calls (sample_state sample_schedule) = Some (Returns sample_calls) ->
      sem (sample_state sample_schedule) = 2).
Proof.
  apply (slots_are_given_back json_loads sample_client sample_records sample_calls
           sample_prompt DEFAULT_MODEL 2 sample_schedule).
  lia.
Defined.

Lemma enter_attribute_error (i : nat) (d : pydict) (msg : pystr) :
  enter i d = EntryAttributeError msg ->
  transcript_is_text d = false
  /\ msg = no_strip_attribute (dict_get_py K_transcript d).
Proof.
  unfold enter, transcript_is_text.
  destruct (dict_get_py K_transcript d) as [|b|z|f|t|l|l]; simpl; try done.
  - destruct b; [|done]. by intros [= <-].
  - destruct (negb (z =? 0)); [|done]. by intros [= <-].
  - destruct f; try done; by intros [= <-].
  - destruct (negb (bool_decide (t = []))); [|done].
    by destruct (negb (negb (bool_decide (strip t = [])))).
  - destruct l; [done|]. by intros [= <-].
  - destruct l; [done|]. by intros [= <-].
Qed.

(** X11. No deadlock, whatever the records: with a limit of at least 1,
    any schedule followed by three rounds of turns per task ends the batch.
    It returns the records, or it raises the [AttributeError] of a record
    whose transcript is neither absent, [None] nor a string. *)
Theorem fair_schedule_ends_the_batch
    (loads : decoder) (client : client_fn) (key : pystr)
    (h0 : list pydict) (calls : list nat) (prompt model : pystr) (K : Z)
    (schedule : list nat) :
  1 <= K -> valid_calls calls h0 ->
  exists h tr,
    analyze_all_calls true (Some key) loads client h0 calls prompt model K
      (schedule ++ round_robin (length calls) (3 * length calls))
    = BatchReturns calls h tr
    \/ exists j r d0,
         calls !! j = Some r /\ h0 !! r = Some d0
         /\ transcript_is_text d0 = false
         /\ analyze_all_calls true (Some key) loads client h0 calls prompt model K
              (schedule ++ round_robin (length calls) (3 * length calls))
            = BatchRaises (no_strip_attribute (dict_get_py K_transcript d0)) h tr.
Proof.
  intros HK Hv. do 2 eexists.
  rewrite analyze_all_calls_gather by lia. cbv zeta.
  destruct (fair_schedule_ends loads client prompt model calls h0 K schedule HK Hv)
    as [outcome Hg].
  rewrite Hg. destruct outcome as [results|msg].
  - left. by destruct (gather_returns _ _ _ Hg) as [-> _].
  - right. unfold gather in Hg.
    destruct (failure _) as [msg'|] eqn:Hf; [|by destruct (forallb _ _)].
    injection Hg as ->.
    destruct (failure_is_attribute_error loads client prompt model calls h0 K _ msg
                ltac:(lia) Hf) as (j & r & d0 & Hr & Hd0 & He).
    destruct (enter_attribute_error _ _ _ He) as [Htext ->].
    by exists j, r, d0.
Qed.

Lemma fair_schedule_ends_the_batch_witness :
  exists h tr,
    analyze_all_calls true (Some SAMPLE_KEY) json_loads sample_client
      [rec_a; rec_number] [0; 1]%nat sample_prompt DEFAULT_MODEL 2
      ([0]%nat ++ round_robin 2 6)
    = BatchReturns [0; 1]%nat h tr
    \/ exists j r d0,
         [0; 1]%nat !! j = Some r /\ [rec_a; rec_number] !! r = Some d0
         /\ transcript_is_text d0 = false
         /\ analyze_all_calls true (Some SAMPLE_KEY) json_loads sample_client
              [rec_a; rec_number] [0; 1]%nat sample_prompt DEFAULT_MODEL 2
              ([0]%nat ++ round_robin 2 6)
            = BatchRaises (no_strip_attribute (dict_get_py K_transcript d0)) h tr.
Proof.
  apply (fair_schedule_ends_the_batch json_loads sample_client SAMPLE_KEY
           [rec_a; rec_number] [0; 1]%nat sample_prompt DEFAULT_MODEL 2 [0]%nat).
  - lia.
  - unfold valid_calls. repeat constructor.
Defined.

(** X12. One record whose transcript is a truthy value other than a string
    (a number, [true], a non-empty list or object) costs the whole batch:
    [strip] is called on it outside the [try], the [AttributeError] leaves
    the task, and [analyze_all_calls] never returns, under any schedule; a
    schedule that gives every task its turns ends in the exception. [main]
    then writes nothing, whatever the other tasks have done. *)
Theorem malformed_transcript_aborts_the_batch
    (loads : decoder) (client : client_fn) (key : pystr)
    (h0 : list pydict) (calls : list nat) (prompt model : pystr) (K : Z)
    (i r : nat) (d0 : pydict) (v : pyval) (schedule : list nat) :
  1 <= K -> valid_calls calls h0 ->
  calls !! i = Some r -> h0 !! r = Some d0 ->
  dict_get K_transcript d0 = Some v -> truthy v = true -> (forall s, v <> PStr s) ->
  (forall results h tr,
     analyze_all_calls true (Some key) loads client h0 calls prompt model K schedule
     <> BatchReturns results h tr)
  /\ (exists msg h tr,
        analyze_all_calls true (Some key) loads client h0 calls prompt model K
          (schedule ++ round_robin (length calls) (3 * length calls))
        = BatchRaises msg h tr).
Proof.
  intros HK Hv Hr Hd0 Ht Htruthy Hnostr.
  assert (enter i d0 = EntryAttributeError (no_strip_attribute v)) as Hen.
  { unfold enter, dict_get_py. rewrite Ht. simpl. rewrite Htruthy. simpl.
    destruct v; try done. by destruct (Hnostr s). }
  assert (forall schedule' results,
            gather calls (run loads client prompt model calls schedule'
                              (init_state calls h0 K)) <> Some (Returns results))
    as Hnever.
  { intros schedule' results Hg.
    destruct (gather_returns _ _ _ Hg) as (_ & _ & Hret).
    pose proof (invariant_run loads client prompt model calls h0 K schedule'
                  ltac:(lia)) as Hinv.
    destruct (lookup_lt_is_Some_2
                (tasks (run loads client prompt model calls schedule'
                            (init_state calls h0 K))) i) as [t Hti].
    { rewrite (inv_tasks _ _ _ _ Hinv). by eapply lookup_lt_Some. }
    pose proof (inv_task _ _ _ _ Hinv i r t d0 Hr Hti Hd0) as Htask.
    rewrite (Hret i t Hti) in Htask. simpl in Htask. by rewrite Hen in Htask. }
  split.
  - intros results h tr. rewrite analyze_all_calls_gather by lia. cbv zeta.
    destruct (gather calls _) as [[res|msg]|] eqn:Hg; try done.
    by destruct (Hnever _ _ Hg).
  - rewrite analyze_all_calls_gather by lia. cbv zeta.
    destruct (fair_schedule_ends loads client prompt model calls h0 K schedule HK Hv)
      as [outcome Hg].
    rewrite Hg. destruct outcome as [results|msg]; [|by do 3 eexists].
    by destruct (Hnever _ _ Hg).
Qed.

Lemma malformed_transcript_aborts_the_batch_witness :
  (forall results h tr,
     analyze_all_calls true (Some SAMPLE_KEY) json_loads sample_client
       [rec_a; rec_number] [0; 1]%nat sample_prompt DEFAULT_MODEL 2 [0; 0]%nat
     <> BatchReturns results h tr)
  /\ (exists msg h tr,
        analyze_all_calls true (Some SAMPLE_KEY) json_loads sample_client
          [rec_a; rec_number] [0; 1]%nat sample_prompt DEFAULT_MODEL 2
          ([0; 0]%nat ++ round_robin 2 6)
        = BatchRaises msg h tr).
Proof.
  apply (malformed_transcript_aborts_the_batch json_loads sample_client SAMPLE_KEY
           [rec_a; rec_number] [0; 1]%nat sample_prompt DEFAULT_MODEL 2
           1%nat 1%nat rec_number (PInt 5) [0; 0]%nat).
  - lia.
  - unfold valid_calls. repeat constructor.
  - reflexivity.
  - reflexivity.
  - reflexivity.
  - reflexivity.
  - intros s. discriminate.
Defined.

(** The request for the first record is made and paid for before the
    second record ends the batch. *)
Example request_made_then_lost :
  main (sample_environment [rec_a; rec_number]) json_loads sample_client
       [0; 0; 1; 1]%nat
  = MainCrashed (str "'int' object has no attribute 'strip'")
      [PrintAnalyzing 0 (PStr (str "a"));
       GenerateContent 0 DEFAULT_MODEL (sample_prompt ++ str "hello")].
Proof. vm_compute. reflexivity. Qed.

Lemma run_no_slot (loads : decoder) (client : client_fn) (prompt model : pystr)
    (calls : list nat) (h0 : list pydict) (schedule : list nat) :
  run loads client prompt model calls schedule (init_state calls h0 0)
  = init_state calls h0 0.
Proof.
  induction schedule as [|i rest IH]; [done|].
  simpl. unfold analyze_single_transcript at 1. simpl.
  destruct (calls !! i) as [r|]; simpl; [|done].
  destruct (replicate (length calls) Waiting !! i) as [t|] eqn:Ht; simpl; [|done].
  apply lookup_replicate in Ht as [-> _].
  by destruct (h0 !! r).
Qed.

(** X13. A limit below 1 gives no result. With [--concurrent 0] and at
    least one record, no task ever gets a slot: under every schedule the
    batch stays as it was created, no request is made, and [asyncio.run]
    never returns. With a negative limit the semaphore cannot be created: the
    [ValueError] is raised before any task exists. *)
Theorem limit_below_one_gives_nothing
    (loads : decoder) (client : client_fn) (key : pystr)
    (h0 : list pydict) (calls : list nat) (prompt model : pystr) (K : Z)
    (schedule : list nat) :
  K <= 0 -> calls <> [] ->
  analyze_all_calls true (Some key) loads client h0 calls prompt model K schedule
  = if K <? 0 then BatchRaises SEMAPHORE_VALUE_ERROR h0 []
    else BatchPending (init_state calls h0 K).
Proof.
  intros HK Hne. unfold analyze_all_calls. simpl.
  destruct (K <? 0) eqn:E; [done|].
  apply Z.ltb_ge in E. assert (K = 0) as -> by lia.
  rewrite run_no_slot. unfold gather. simpl.
  destruct calls as [|r calls']; done.
Qed.

Lemma limit_below_one_gives_nothing_witness :
  analyze_all_calls true (Some SAMPLE_KEY) json_loads sample_client sample_records
    sample_calls sample_prompt DEFAULT_MODEL 0 sample_schedule
  = BatchPending (init_state sample_calls sample_records 0).
Proof.
  apply (limit_below_one_gives_nothing json_loads sample_client SAMPLE_KEY
           sample_records sample_calls sample_prompt DEFAULT_MODEL 0 sample_schedule).
  - lia.
  - discriminate.
Defined.

Lemma run_no_calls (loads : decoder) (client : client_fn) (prompt model : pystr)
    (schedule : list nat) (st : state) :
  run loads client prompt model [] schedule st = st.
Proof.
  revert st. induction schedule as [|i rest IH]; intros st; [done|].
  simpl. unfold analyze_single_transcript at 1.
  destruct (failure st); simpl; apply IH.
Qed.

(** X14. An empty input is a batch that is over at once: whatever the
    limit (from 0 up) and the schedule, [main] makes no request, writes the
    empty list and prints four zeros. *)
Theorem empty_input_completes
    (env : environment) (loads : decoder) (client : client_fn)
    (schedule : list nat) (prompt key : pystr) :
  input_file env = Some [] -> prompt_file env = Some prompt ->
  genai_installed env = true -> configured_key env = Some key ->
  0 <= arg_concurrent env ->
  main env loads client schedule = MainCompleted [] [] (Summary 0 0 0 0).
Proof.
  intros Hin Hp Hinst Hkey HK. unfold main. rewrite Hin, Hp. simpl.
  unfold analyze_all_calls. rewrite Hinst, Hkey. simpl.
  rewrite (proj2 (Z.ltb_ge _ _) HK). by rewrite run_no_calls.
Qed.

Lemma empty_input_completes_witness :
  main (sample_environment []) json_loads sample_client sample_schedule
  = MainCompleted [] [] (Summary 0 0 0 0).
Proof.
  apply (empty_input_completes (sample_environment []) json_loads sample_client
           sample_schedule sample_prompt SAMPLE_KEY).
  - reflexivity.
  - reflexivity.
  - reflexivity.
  - reflexivity.
  - simpl. lia.
Defined.

(** ** [extract_calls] *)

Example extract_calls_sample :
  extract_calls (PList [PDict raw_call; PDict bare_call])
  = Returns ([raw_call_extracted; bare_call_extracted], 2%nat).
Proof. vm_compute. reflexivity. Qed.

(** A list in place of a call, a string in place of the messages, a number
    in place of the artifact: each ends the extraction. *)
Example extract_calls_raises :
  extract_calls (PList [PDict bare_call; PList []])
  = Raises (str "'list' object has no attribute 'get'")
  /\ extract_calls (PList [PDict [(K_messages, PStr (str "hi"))]])
     = Raises (str "'str' object has no attribute 'get'")
  /\ extract_calls (PList [PDict [(K_messages, PDict [(K_id, PNone)])]])
     = Raises (str "-1")
  /\ extract_calls (PList [PDict [(K_artifact, PInt 3)]])
     = Raises (str "'int' object has no attribute 'get'")
  /\ extract_calls (PInt 3) = Raises (str "'int' object is not iterable")
  /\ extract_calls (PDict [(K_id, PNone)])
     = Raises (str "'str' object has no attribute 'get'").
Proof. vm_compute. repeat split; reflexivity. Qed.

Lemma extract_loop_cons (call : pyval) (rest : list pyval) (out : list pydict) :
  extract_loop (call :: rest) = Returns out <->
  exists d out', out = d :: out' /\ extract_one call = Returns d
                 /\ extract_loop rest = Returns out'.
Proof.
  simpl. unfold mbind, exc_bind, mret, exc_ret.
  destruct (extract_one call) as [d|msg]; [|split; [done|by intros (?&?&?&?&?)]].
  destruct (extract_loop rest) as [out'|msg]; [|split; [done|by intros (?&?&?&?&?)]].
  split.
  - intros [= <-]. by exists d, out'.
  - intros (d1 & out1 & -> & [= <-] & [= <-]). done.
Qed.

(** The loop yields one record per call, in order. *)
Lemma extract_loop_lookup (l : list pyval) (out : list pydict) :
  extract_loop l = Returns out <->
  length out = length l
  /\ forall i call, l !! i = Some call ->
       exists d, out !! i = Some d /\ extract_one call = Returns d.
Proof.
  revert out. induction l as [|call rest IH]; intros out.
  - simpl. unfold mret, exc_ret. split.
    + intros [= <-]. by split.
    + intros [Hlen _]. by destruct out.
  - rewrite extract_loop_cons. split.
    + intros (d & out' & -> & Hd & Hrest). apply IH in Hrest as [Hlen Hall].
      split; [simpl; by rewrite Hlen|].
      intros [|i] c Hc; simpl in *.
      * injection Hc as <-. by exists d.
      * by apply Hall.
    + intros [Hlen Hall]. destruct out as [|d out']; [done|].
      exists d, out'. split; [done|].
      destruct (Hall 0%nat call eq_refl) as (d' & [= <-] & Hd). split; [done|].
      apply IH. split; [simpl in Hlen; lia|].
      intros i c Hc. by apply (Hall (S i)).
Qed.

Lemma extract_calls_list (l : list pyval) (out : list pydict) (n : nat) :
  extract_calls (PList l) = Returns (out, n) <->
  extract_loop l = Returns out /\ n = length out.
Proof.
  unfold extract_calls. simpl. unfold mbind, exc_bind, mret, exc_ret.
  destruct (extract_loop l) as [out'|msg]; [|split; [done|by intros [? _]]].
  split.
  - by intros [= <- <-].
  - by intros [[= <-] ->].
Qed.

(** What [extract_one] makes of a dictionary it accepts. *)
Lemma extract_one_record (call : pyval) (d : pydict) :
  extract_one call = Returns d ->
  exists c duration_seconds transfers,
    call = PDict c
    /\ duration_of c = Returns duration_seconds
    /\ transfers_of c = Returns transfers
    /\ d = [(K_id, dict_get_py K_id c);
            (K_transcript, dict_get_py K_transcript c);
            (K_type, dict_get_py K_type c);
            (K_endedReason, dict_get_py K_endedReason c);
            (K_assistantId, dict_get_py K_assistantId c);
            (K_phoneNumberId, dict_get_py K_phoneNumberId c);
            (K_phoneCallProvider, dict_get_py K_phoneCallProvider c);
            (K_squadId, dict_get_py K_squadId c);
            (K_transfers, transfers);
            (K_createdAt, dict_get_py K_createdAt c);
            (K_updatedAt, dict_get_py K_updatedAt c);
            (K_durationSeconds, duration_seconds);
            (K_orgId, dict_get_py K_orgId c)].
Proof.
  destruct call as [| | | | | |c]; try done. simpl.
  unfold mbind, exc_bind, mret, exc_ret.
  destruct (duration_of c) as [dur|] eqn:Hdur; [|done].
  destruct (transfers_of c) as [tr|] eqn:Htr; [|done].
  intros [= <-]. by exists c, dur, tr.
Qed.

(** X15. When [extract_calls] returns, it has written one record per call
    of the input list, in the order of the input, each with the same
    thirteen keys in the same order, and it returns their number. *)
Theorem extract_calls_shape (l : list pyval) (out : list pydict) (n : nat) :
  extract_calls (PList l) = Returns (out, n) ->
  n = length l
  /\ length out = length l
  /\ Forall (fun d => map fst d = EXTRACTED_KEYS) out.
Proof.
  intros [Hloop ->]%extract_calls_list.
  apply extract_loop_lookup in Hloop as [Hlen Hall].
  split; [done|]. split; [done|].
  apply Forall_lookup. intros i d Hd.
  destruct (lookup_lt_is_Some_2 l i) as [call Hcall].
  { rewrite <- Hlen. by eapply lookup_lt_Some. }
  destruct (Hall i call Hcall) as (d' & Hd' & Hone).
  assert (d' = d) as -> by congruence.
  by destruct (extract_one_record _ _ Hone) as (c & dur & tr & _ & _ & _ & ->).
Qed.

Lemma extract_calls_shape_witness :
  2%nat = length [PDict raw_call; PDict bare_call]
  /\ length [raw_call_extracted; bare_call_extracted]
     = length [PDict raw_call; PDict bare_call]
  /\ Forall (fun d => map fst d = EXTRACTED_KEYS)
            [raw_call_extracted; bare_call_extracted].
Proof.
  apply (extract_calls_shape [PDict raw_call; PDict bare_call]
           [raw_call_extracted; bare_call_extracted] 2).
  vm_compute. reflexivity.
Defined.

Lemma duration_of_returns (c : pydict) :
  (exists v, duration_of c = Returns v) <-> messages_ok c = true.
Proof.
  unfold duration_of, messages_ok.
  destruct (dict_get_default K_messages (PList []) c) as [|b|z|f|s|l|l] eqn:E;
    simpl; try (split; [done|by eexists]).
  - destruct b; simpl; [split; [by intros [? ?]|done] | split; [done|by eexists]].
  - destruct (negb (z =? 0)); simpl; [split; [by intros [? ?]|done]
                                     | split; [done|by eexists]].
  - destruct f; simpl; try (split; [by intros [? ?]|done]). split; [done|by eexists].
  - destruct (negb (bool_decide (s = []))) eqn:Hs; simpl; [|split; [done|by eexists]].
    unfold mbind, exc_bind. destruct (last s); simpl; split; try done; by intros [? ?].
  - destruct l as [|x l']; simpl; [split; [done|by eexists]|].
    unfold mbind, exc_bind.
    destruct (last (x :: l')) as [[| | | | | |m]|] eqn:Hl; simpl;
      split; try done; try (by intros [? ?]). by eexists.
  - destruct l; simpl; [split; [done|by eexists] | split; [by intros [? ?]|done]].
Qed.

Lemma transfers_of_returns (c : pydict) :
  (exists v, transfers_of c = Returns v) <-> artifact_ok c = true.
Proof.
  unfold transfers_of, artifact_ok, dict_get_py, dict_get_default.
  destruct (dict_get K_artifact c) as [[|b|z|f|s|l|l]|]; simpl;
    try (split; [done|by eexists]).
  - destruct b; simpl; [split; [by intros [? ?]|done] | split; [done|by eexists]].
  - destruct (negb (z =? 0)); simpl; [split; [by intros [? ?]|done]
                                     | split; [done|by eexists]].
  - destruct f; simpl; try (split; [by intros [? ?]|done]). split; [done|by eexists].
  - destruct (negb (bool_decide (s = []))); simpl;
      [split; [by intros [? ?]|done] | split; [done|by eexists]].
  - destruct l; simpl; [split; [done|by eexists] | split; [by intros [? ?]|done]].
  - destruct l; simpl; split; try done; by eexists.
Qed.

Lemma extract_one_returns (call : pyval) :
  (exists d, extract_one call = Returns d) <-> well_formed_call call = true.
Proof.
  destruct call as [| | | | | |c]; simpl; try (split; [by intros [? ?]|done]).
  rewrite andb_true_iff, <- duration_of_returns, <- transfers_of_returns.
  unfold mbind, exc_bind, mret, exc_ret. split.
  - intros [d Hd]. destruct (duration_of c); [|done].
    destruct (transfers_of c); [|done]. split; by eexists.
  - intros [[v ->] [w ->]]. by eexists.
Qed.

(** X16. [extract_calls] returns for a list exactly when every item of it
    is a dictionary whose messages are absent, falsy or a list that ends
    with a dictionary, and whose artifact is absent, falsy or a dictionary.
    Otherwise it raises and writes no file. *)
Theorem extract_calls_returns_iff (l : list pyval) :
  (exists out n, extract_calls (PList l) = Returns (out, n))
  <-> forallb well_formed_call l = true.
Proof.
  split.
  - intros (out & n & [Hloop ->]%extract_calls_list).
    apply extract_loop_lookup in Hloop as [Hlen Hall].
    apply forallb_forall. intros call Hin.
    apply list_elem_of_In, list_elem_of_lookup in Hin as [i Hi].
    destruct (Hall i call Hi) as (d & _ & Hd).
    apply extract_one_returns. by exists d.
  - intros Hall. induction l as [|call rest IH].
    + by exists [], 0%nat.
    + simpl in Hall. apply andb_prop in Hall as [Hcall Hrest].
      destruct (IH Hrest) as (out & n & [Hloop ->]%extract_calls_list).
      apply extract_one_returns in Hcall as [d Hd].
      exists (d :: out), (S (length out)). apply extract_calls_list.
      split; [|done]. apply extract_loop_cons. by exists d, out.
Qed.

Lemma dict_get_absent (k : pystr) (d : pydict) :
  k ∉ map fst d -> dict_get k d = None.
Proof.
  induction d as [|[k' v] d IH]; [done|]. simpl. intros Hk.
  apply not_elem_of_cons in Hk as [Hne Hk].
  rewrite bool_decide_eq_false_2 by done. by apply IH.
Qed.

(** X17. What an extracted record holds. Eleven fields are copied from the
    call, an absent one as [None]; every other field of the call is
    dropped; ['durationSeconds'] is the ['secondsFromStart'] of the last
    message, whatever the earlier messages say, and [None] when there are no
    messages; ['transfers'] is read off the artifact, and is [None] when
    there is none. *)
Theorem extract_calls_fields
    (l : list pyval) (out : list pydict) (n i : nat) (c : pydict) :
  extract_calls (PList l) = Returns (out, n) ->
  l !! i = Some (PDict c) ->
  exists d,
    out !! i = Some d
    /\ (forall k, k ∈ COPIED_KEYS -> dict_get k d = Some (dict_get_py k c))
    /\ (forall k, k ∉ EXTRACTED_KEYS -> dict_get k d = None)
    /\ dict_get K_durationSeconds d
       = Some (match dict_get K_messages c with
               | Some (PList msgs) =>
                   match last msgs with
                   | Some (PDict m) => dict_get_py K_secondsFromStart m
                   | _ => PNone
                   end
               | _ => PNone
               end)
    /\ dict_get K_transfers d
       = Some (match dict_get K_artifact c with
               | Some (PDict a) => dict_get_py K_transfers a
               | _ => PNone
               end).
Proof.
  intros [Hloop ->]%extract_calls_list Hc.
  apply extract_loop_lookup in Hloop as [Hlen Hall].
  destruct (Hall i _ Hc) as (d & Hd & Hone).
  exists d. split; [done|].
  destruct (extract_one_record _ _ Hone) as (c' & dur & tr & [= <-] & Hdur & Htr & ->).
  split; [|split; [|split]].
  - intros k Hk. unfold COPIED_KEYS in Hk.
    repeat (apply elem_of_cons in Hk as [->|Hk]; [reflexivity|]).
    by apply elem_of_nil in Hk.
  - intros k Hk. by apply dict_get_absent.
  - change (dict_get K_durationSeconds _) with (Some dur). f_equal.
    unfold duration_of, dict_get_default in Hdur.
    destruct (dict_get K_messages c) as [[|b|z|f|s|msgs|m]|]; simpl in Hdur.
    + by injection Hdur.
    + destruct b; [done|]. by injection Hdur.
    + destruct (negb (z =? 0)); [done|]. by injection Hdur.
    + destruct f; try done. by injection Hdur.
    + destruct (negb (bool_decide (s = []))); [|by injection Hdur].
      unfold mbind, exc_bind in Hdur. by destruct (last s).
    + destruct msgs as [|x msgs']; [by injection Hdur|].
      unfold mbind, exc_bind in Hdur. simpl in Hdur.
      destruct (last (x :: msgs')) as [[| | | | | |m]|]; try done.
      by injection Hdur.
    + destruct m; [by injection Hdur | done].
    + by injection Hdur.
  - change (dict_get K_transfers _) with (Some tr). f_equal.
    unfold transfers_of, dict_get_py, dict_get_default in Htr.
    destruct (dict_get K_artifact c) as [[|b|z|f|s|a|a]|]; simpl in Htr.
    + by injection Htr.
    + destruct b; [done|]. by injection Htr.
    + destruct (negb (z =? 0)); [done|]. by injection Htr.
    + destruct f; try done. by injection Htr.
    + destruct (negb (bool_decide (s = []))); [done|]. by injection Htr.
    + destruct a; [by injection Htr | done].
    + destruct a; by injection Htr.
    + by injection Htr.
Qed.

Lemma extract_calls_fields_witness :
  exists d,
    [raw_call_extracted; bare_call_extracted] !! 0%nat = Some d
    /\ (forall k, k ∈ COPIED_KEYS -> dict_get k d = Some (dict_get_py k raw_call))
    /\ (forall k, k ∉ EXTRACTED_KEYS -> dict_get k d = None)
    /\ dict_get K_durationSeconds d
       = Some (match dict_get K_messages raw_call with
               | Some (PList msgs) =>
                   match last msgs with
                   | Some (PDict m) => dict_get_py K_secondsFromStart m
                   | _ => PNone
                   end
               | _ => PNone
               end)
    /\ dict_get K_transfers d
       = Some (match dict_get K_artifact raw_call with
               | Some (PDict a) => dict_get_py K_transfers a
               | _ => PNone
               end).
Proof.
  apply (extract_calls_fields [PDict raw_call; PDict bare_call]
           [raw_call_extracted; bare_call_extracted] 2 0 raw_call).
  - vm_compute. reflexivity.
  - reflexivity.
Defined.

(** The duration is that of the last message alone. *)
Example duration_is_of_the_last_message :
  duration_of [(K_messages, PList [PDict [(K_secondsFromStart, PInt 7)];
                                   PDict [(str "role", PStr (str "bot"))]])]
  = Returns PNone.
Proof. vm_compute. reflexivity. Qed.

(** X18. Extracting from an extract: the extractor accepts its own
    output, and gives it back with the eleven copied fields as they are
    and ['transfers'] and ['durationSeconds'] reset to [None], since its
    output has neither messages nor artifact. A second extraction thus
    loses the two derived fields, and nothing else. *)
Theorem extract_calls_twice (l : list pyval) (out : list pydict) (n : nat) :
  extract_calls (PList l) = Returns (out, n) ->
  extract_calls (PList (map PDict out))
  = Returns (map (fun d => dict_set K_durationSeconds PNone
                             (dict_set K_transfers PNone d)) out, n).
Proof.
  intros [Hloop ->]%extract_calls_list.
  apply extract_loop_lookup in Hloop as [Hlen Hall].
  apply extract_calls_list. split; [|by rewrite length_map].
  apply extract_loop_lookup. split; [by rewrite !length_map|].
  intros i call Hcall. change (@map) with (@fmap list _) in *.
  rewrite list_lookup_fmap in Hcall.
  destruct (out !! i) as [d|] eqn:Hd; simpl in Hcall; [|done].
  injection Hcall as <-. rewrite list_lookup_fmap, Hd. simpl.
  eexists. split; [done|].
  destruct (lookup_lt_is_Some_2 l i) as [call Hc].
  { rewrite <- Hlen. by eapply lookup_lt_Some. }
  destruct (Hall i call Hc) as (d' & Hd' & Hone).
  assert (d' = d) as -> by congruence.
  destruct (extract_one_record _ _ Hone) as (c & dur & tr & _ & _ & _ & ->).
  reflexivity.
Qed.

Lemma extract_calls_twice_witness :
  extract_calls (PList (map PDict [raw_call_extracted; bare_call_extracted]))
  = Returns (map (fun d => dict_set K_durationSeconds PNone
                             (dict_set K_transfers PNone d))
                 [raw_call_extracted; bare_call_extracted], 2%nat).
Proof.
  apply (extract_calls_twice [PDict raw_call; PDict bare_call]).
  vm_compute. reflexivity.
Defined.

(** The transcript and the identifier of an extracted record are those of
    the call. *)
Lemma extracted_transcript_and_id
    (l : list pyval) (out : list pydict) (i : nat) (d : pydict) :
  extract_loop l = Returns out -> out !! i = Some d ->
  exists c,
    l !! i = Some (PDict c)
    /\ dict_get_py K_transcript d = dict_get_py K_transcript c
    /\ forall dflt, dict_get_default K_id dflt d = dict_get_py K_id c.
Proof.
  intros [Hlen Hall]%extract_loop_lookup Hd.
  destruct (lookup_lt_is_Some_2 l i) as [call Hc].
  { rewrite <- Hlen. by eapply lookup_lt_Some. }
  destruct (Hall i call Hc) as (d' & Hd' & Hone).
  assert (d' = d) as -> by congruence.
  destruct (extract_one_record _ _ Hone) as (c & dur & tr & -> & _ & _ & ->).
  by exists c.
Qed.

(** X19. From the extractor to the analyzer. The analyzer treats an
    extracted record as it would treat the call it was extracted from:
    skipped, sent to the client with the same transcript, or refused, alike.
    Since an extracted record always has an ['id'] key, the identifier in
    the printed lines is the call's own or [None], never the fallback
    [index_i] of line 54. *)
Theorem extracted_record_in_the_analyzer
    (l : list pyval) (out : list pydict) (n i : nat) (c d : pydict) :
  extract_calls (PList l) = Returns (out, n) ->
  l !! i = Some (PDict c) -> out !! i = Some d ->
  transcript_is_text d = transcript_is_text c
  /\ transcript_blank d = transcript_blank c
  /\ forall j,
       enter j d
       = match enter j c with
         | EntrySkip _ => EntrySkip (dict_get_py K_id c)
         | EntryCall _ transcript => EntryCall (dict_get_py K_id c) transcript
         | EntryAttributeError msg => EntryAttributeError msg
         end.
Proof.
  intros [Hloop ->]%extract_calls_list Hc Hd.
  destruct (extracted_transcript_and_id l out i d Hloop Hd) as (c' & Hc' & Ht & Hid).
  assert (c' = c) as -> by congruence.
  unfold transcript_is_text, transcript_blank, enter. rewrite Ht.
  split; [done|]. split; [done|].
  intros j. rewrite Hid.
  destruct (negb (truthy (dict_get_py K_transcript c))); [done|].
  destruct (dict_get_py K_transcript c); try done.
  by destruct (negb (truthy (PStr (strip s)))).
Qed.

Lemma extracted_record_in_the_analyzer_witness :
  transcript_is_text bare_call_extracted = transcript_is_text bare_call
  /\ transcript_blank bare_call_extracted = transcript_blank bare_call
  /\ forall j,
       enter j bare_call_extracted
       = match enter j bare_call with
         | EntrySkip _ => EntrySkip (dict_get_py K_id bare_call)
         | EntryCall _ transcript => EntryCall (dict_get_py K_id bare_call) transcript
         | EntryAttributeError msg => EntryAttributeError msg
         end.
Proof.
  apply (extracted_record_in_the_analyzer [PDict raw_call; PDict bare_call]
           [raw_call_extracted; bare_call_extracted] 2 1 bare_call
           bare_call_extracted).
  - vm_compute. reflexivity.
  - reflexivity.
  - reflexivity.
Defined.

(** A call without an identifier: the analyzer would print [index_3] for
    the call itself, and prints [None] for its extract. *)
Example fallback_identifier_unused :
  enter 3 [(K_transcript, PStr (str "hello"))]
  = EntryCall (PStr (str "index_3")) (str "hello")
  /\ (exists d,
        extract_one (PDict [(K_transcript, PStr (str "hello"))]) = Returns d
        /\ enter 3 d = EntryCall PNone (str "hello")).
Proof. split; [reflexivity|]. eexists. split; reflexivity. Qed.

(** X20. The two programs in a row. When the calls have transcripts that
    are absent, [None] or strings and the extractor returns, the analyzer
    run on the extracted records, with a limit of at least 1 and a schedule
    that gives every task its turns, completes: it writes one annotated
    record per call, and never stops on an exception. *)
Theorem extract_then_analyze
    (l : list pyval) (out : list pydict) (n : nat)
    (env : environment) (loads : decoder) (client : client_fn)
    (schedule : list nat) (prompt key : pystr) :
  extract_calls (PList l) = Returns (out, n) ->
  Forall (fun call => forall c, call = PDict c -> transcript_is_text c = true) l ->
  input_file env = Some out -> prompt_file env = Some prompt ->
  genai_installed env = true -> configured_key env = Some key ->
  1 <= arg_concurrent env ->
  exists tr,
    main env loads client (schedule ++ round_robin n (3 * n))
    = MainCompleted (imap (analyzed loads client prompt) out) tr
        (summarize (imap (analyzed loads client prompt) out))
    /\ length (imap (analyzed loads client prompt) out) = length l.
Proof.
  intros [Hloop ->]%extract_calls_list Htext Hin Hp Hinst Hkey HK.
  assert (text_transcripts (seq 0 (length out)) out) as Htt.
  { apply Forall_seq. intros r Hr d Hd.
    destruct (extracted_transcript_and_id l out r d Hloop Hd) as (c & Hc & Ht & _).
    unfold transcript_is_text. rewrite Ht.
    rewrite Forall_lookup in Htext. by apply (Htext r (PDict c) Hc c). }
  destruct (batch_completes loads client key out (seq 0 (length out)) prompt
              (arg_model env) (arg_concurrent env) schedule HK
              (valid_calls_seq out) Htt) as (h & tr & Hb).
  rewrite length_seq in Hb.
  assert (main env loads client
            (schedule ++ round_robin (length out) (3 * length out))
          = MainCompleted (map (deref h) (seq 0 (length out))) tr
              (summarize (map (deref h) (seq 0 (length out))))) as Hmain.
  { unfold main, load_calls. rewrite Hin, Hp. cbv beta iota zeta.
    by rewrite Hinst, Hkey, Hb. }
  destruct (main_completed _ _ _ _ _ _ _ Hmain) as (recs & p & Hin' & Hp' & _ & Hw).
  rewrite Hinst in Hw. destruct Hw as [Hw _].
  assert (recs = out) as -> by congruence.
  assert (p = prompt) as -> by congruence.
  exists tr. rewrite <- Hw. split; [done|].
  rewrite length_map, length_seq.
  by apply extract_loop_lookup in Hloop as [Hlen _].
Qed.

Lemma extract_then_analyze_witness :
  exists tr,
    main (sample_environment [raw_call_extracted; bare_call_extracted])
         json_loads sample_client ([1; 0]%nat ++ round_robin 2 (3 * 2))
    = MainCompleted
        (imap (analyzed json_loads sample_client sample_prompt)
              [raw_call_extracted; bare_call_extracted])
        tr
        (summarize (imap (analyzed json_loads sample_client sample_prompt)
                         [raw_call_extracted; bare_call_extracted]))
    /\ length (imap (analyzed json_loads sample_client sample_prompt)
                    [raw_call_extracted; bare_call_extracted])
       = length [PDict raw_call; PDict bare_call].
Proof.
  apply (extract_then_analyze [PDict raw_call; PDict bare_call]
           [raw_call_extracted; bare_call_extracted] 2
           (sample_environment [raw_call_extracted; bare_call_extracted])
           json_loads sample_client [1; 0]%nat sample_prompt SAMPLE_KEY).
  - vm_compute. reflexivity.
  - repeat constructor; by intros c [= <-].
  - reflexivity.
  - reflexivity.
  - reflexivity.
  - reflexivity.
  - simpl. lia.
Defined.

(** ** [extract_dimensions_from_call] *)

Example dimensions_sample :
  extract_dimensions_from_call
    (PDict [(K_data,
             PDict [(K_caller_type, PStr (str "patient"));
                    (K_call_summary,
                     PDict [(K_resolution_type, PStr (str "booked"));
                            (K_primary_intent, PStr [])])])])
  = Some (PStr (str "booked"), PStr (str "patient"), UNKNOWN).
Proof. vm_compute. reflexivity. Qed.

(** X21. Every dimension that is returned is a truthy value: a field that
    is missing, [None], empty, [0] or [false] reads as ["unknown"]. *)
Theorem dimensions_are_truthy (call_info a b c : pyval) :
  extract_dimensions_from_call call_info = Some (a, b, c) ->
  truthy a = true /\ truthy b = true /\ truthy c = true.
Proof.
  assert (forall x, truthy (py_or x UNKNOWN) = true) as Hor.
  { intros x. unfold py_or. by destruct (truthy x) eqn:E. }
  unfold extract_dimensions_from_call, dimensions_body.
  destruct call_info as [| | | | | |info]; try done. simpl.
  destruct (negb (truthy _)); [done|].
  destruct (dict_get_default K_data (PDict []) info) as [| | | | | |data]; try done.
  simpl.
  destruct (dict_get_default K_call_summary (PDict []) data) as [| | | | | |cs];
    try done.
  simpl. intros [= <- <- <-]. by rewrite !Hor.
Qed.

Lemma dimensions_are_truthy_witness :
  truthy (PStr (str "booked")) = true /\ truthy (PStr (str "patient")) = true
  /\ truthy UNKNOWN = true.
Proof.
  apply (dimensions_are_truthy
           (PDict [(K_data,
                    PDict [(K_caller_type, PStr (str "patient"));
                           (K_call_summary,
                            PDict [(K_resolution_type, PStr (str "booked"));
                                   (K_primary_intent, PStr [])])])])).
  vm_compute. reflexivity.
Defined.

(** X22. Dimensions are returned exactly for a dictionary whose ['data'] is
    a non-empty dictionary in which ['call_summary'] is absent or is itself
    a dictionary. A ['call_summary'] that is [None] or any other value makes
    the function return [None], as does anything else that raises. *)
Theorem dimensions_returned_iff (call_info : pyval) :
  is_Some (extract_dimensions_from_call call_info)
  <-> exists info data,
        call_info = PDict info
        /\ dict_get K_data info = Some (PDict data) /\ data <> []
        /\ (dict_get K_call_summary data = None
            \/ exists cs, dict_get K_call_summary data = Some (PDict cs)).
Proof.
  unfold extract_dimensions_from_call, dimensions_body. split.
  - intros [dims H].
    destruct call_info as [| | | | | |info]; try done. simpl in H.
    unfold dict_get_default in H.
    destruct (dict_get K_data info) as [data|] eqn:Hdata; simpl in H; [|done].
    destruct (negb (truthy data)) eqn:Ht; [done|].
    destruct data as [| | | | | |data]; try done.
    exists info, data. split; [done|]. split; [done|].
    split; [by destruct data|].
    simpl in H. unfold dict_get_default in H.
    destruct (dict_get K_call_summary data) as [[| | | | | |cs]|]; try done;
      [right; by exists cs | by left].
  - intros (info & data & -> & Hdata & Hne & Hcs).
    simpl. unfold dict_get_default. rewrite Hdata. simpl.
    unfold dict_get_default.
    destruct Hcs as [Hcs | [cs Hcs]]; rewrite Hcs; destruct data; done.
Qed.

(** A summary that is [null] drops the call from the heat map; a summary
    that is missing does not. *)
Example null_summary_drops_the_call :
  extract_dimensions_from_call
    (PDict [(K_data, PDict [(K_caller_type, PStr (str "patient"));
                            (K_call_summary, PNone)])])
  = None
  /\ extract_dimensions_from_call
       (PDict [(K_data, PDict [(K_caller_type, PStr (str "patient"))])])
     = Some (UNKNOWN, PStr (str "patient"), UNKNOWN).
Proof. vm_compute. split; reflexivity. Qed.

(** ** [load_vapi_data] *)

Example load_vapi_data_sample :
  load_vapi_data no_float_of_str (PList [PDict shown_a; PDict skipped_c; PDict shown_b])
  = Returns sample_tables.
Proof. vm_compute. reflexivity. Qed.

(** The viewer passes over a record exactly when the tally of the analyzer
    does not count it as a success, or its annotation is the empty
    object. *)
Lemma viewer_skips_tally (c : pydict) :
  viewer_skips (dict_get_py K_llm_analysis c)
  = negb (counts_as_success c)
    || match dict_get_py K_llm_analysis c with PDict [] => true | _ => false end.
Proof.
  unfold viewer_skips, counts_as_success, dict_get_py, dict_get_default.
  destruct (dict_get K_llm_analysis c) as [[|b|z|f|s|l|l]|]; simpl; try done.
  - by destruct b.
  - by destruct (z =? 0).
  - by destruct f.
  - by destruct (bool_decide (s = [])).
  - by destruct l.
  - destruct l; [done|]. simpl. by destruct (dict_has K_error _).
Qed.

Section Viewer_facts.
Variable float_of_str : pystr -> option spec_float.

Lemma transfer_of_fields (transfer_context : pyval) :
  is_none_or_bool (transfer_of transfer_context).2 = true
  /\ (is_nonempty_str (transfer_of transfer_context).1
      || match (transfer_of transfer_context).1 with PNone => true | _ => false end)
     = true.
Proof.
  assert (forall l, is_nonempty_str (first_nonempty_str l)
                    || match first_nonempty_str l with PNone => true | _ => false end
                    = true) as Hfirst.
  { induction l as [|[|b|z|f|s|l'|l'] l IH]; simpl; try done.
    destruct (negb (bool_decide (s = []))) eqn:Hs; [|done]. simpl. by rewrite Hs. }
  unfold transfer_of.
  destruct transfer_context as [| | | | | |tc]; try done.
  destruct (truthy (PDict tc)); [|done]. simpl. split.
  - unfold transfer_success_of.
    destruct (dict_get_py K_transfer_connection_status tc) as [| | | | |l|]; try done.
    destruct l; [done|]. by destruct (bool_values _).
  - unfold transfer_destination_of.
    destruct (dict_get_py K_destinations tc) as [| | | |s|l|]; try done.
    + destruct (truthy (PStr s)) eqn:Hs; [|done]. simpl in *. by rewrite Hs.
    + destruct (truthy (PList l)); [apply Hfirst | done].
Qed.

Lemma py_or_truthy (x dflt : pyval) : truthy dflt = true -> truthy (py_or x dflt) = true.
Proof. intros H. unfold py_or. by destruct (truthy x) eqn:E. Qed.

(** The duration is a float, or [None]. *)
Lemma get_duration_is_float (c : pydict) (v : pyval) :
  get_duration_from_call float_of_str c = Returns v -> is_none_or_float v = true.
Proof.
  unfold get_duration_from_call.
  destruct (dict_get_py K_durationSeconds c); [by intros [= <-]|..];
    (destruct (py_float _ _); [by intros [= <-] | by intros [= <-] | done]).
Qed.

(** What the body of the loop has done when it has not raised. *)
Lemma file_info_of_inv (idx : nat) (call : pyval)
    (r : option (pyval * pyval * pydict)) :
  file_info_of float_of_str idx call = Returns r ->
  exists c,
    call = PDict c
    /\ match r with
       | None => viewer_skips (annotation_of call) = true
       | Some (call_id, key, file_info) =>
           viewer_skips (annotation_of call) = false
           /\ well_formed_info file_info = true
           /\ field K_raw_call file_info = call
           /\ field K_data file_info = annotation_of call
           /\ field K_index file_info = PInt (Z.of_nat idx)
           /\ field K_id file_info = call_id
           /\ field K_resolution_type file_info = key
       end.
Proof.
  unfold file_info_of.
  destruct call as [| | | | | |c]; try done. simpl.
  intros H. exists c. split; [done|].
  destruct (viewer_skips (dict_get_py K_llm_analysis c)) eqn:Hskip.
  { by injection H as <-. }
  destruct (dict_get_py K_llm_analysis c) as [| | | | | |data] eqn:Hdata; try done.
  simpl in H.
  destruct (dict_get_default K_call_summary (PDict []) data) as [| | | | | |cs] eqn:Hcs;
    try done.
  simpl in H. unfold mbind, exc_bind in H.
  destruct (transcript_content_of c) as [transcript|] eqn:Htr; [|done].
  destruct (get_duration_from_call float_of_str c) as [duration|] eqn:Hdur; [|done].
  destruct (transfer_of _) as [dest succ] eqn:Htransfer.
  injection H as <-. split; [done|].
  match goal with |- context [well_formed_info ?fi] => set (info := fi) end.
  split; [|by repeat split].
  pose proof (transfer_of_fields
                (dict_get_default K_transfer_context (PDict []) data)) as [Hs Hd].
  rewrite Htransfer in Hs, Hd. simpl in Hs, Hd.
  pose proof (get_duration_is_float _ _ Hdur) as Hfloat.
  assert ((negb (truthy transcript)
           || match transcript with PStr _ => true | _ => false end) = true)
    as Htext.
  { unfold transcript_content_of in Htr.
    destruct (truthy (dict_get_default K_transcript (PStr []) c)) eqn:E.
    - destruct (dict_get_default K_transcript (PStr []) c); try done.
      injection Htr as <-. by rewrite orb_true_r.
    - injection Htr as <-. by rewrite E. }
  assert (shown_document (PDict data) = true) as Hdoc.
  { unfold viewer_skips in Hskip. simpl in Hskip.
    apply orb_false_elim in Hskip as [Htruthy Herr].
    apply negb_false_iff in Htruthy. simpl. unfold dict_get_default in Hcs.
    simpl in Htruthy. rewrite Htruthy, Herr. simpl.
    by destruct (dict_get K_call_summary data) as [[]|]. }
  assert (is_nonempty_str (field K_caller_type info) = true) as Hcaller.
  { change (field K_caller_type info) with
      match dict_get_default K_caller_type UNKNOWN data with
      | PStr _ =>
          if truthy (dict_get_default K_caller_type UNKNOWN data)
          then dict_get_default K_caller_type UNKNOWN data else UNKNOWN
      | _ => UNKNOWN
      end.
    destruct (dict_get_default K_caller_type UNKNOWN data) as [| | | |s| |]; try done.
    simpl. by destruct (negb (bool_decide (s = []))) eqn:E; simpl; rewrite ?E. }
  assert (truthy (field K_resolution_type info) = true) as Hres
    by by apply py_or_truthy.
  assert (truthy (field K_assistant_id info) = true) as Hass
    by by apply py_or_truthy.
  assert (truthy (field K_squad_id info) = true) as Hsq
    by by apply py_or_truthy.
  unfold well_formed_info.
  rewrite Hcaller, Hres, Hass, Hsq.
  change (field K_transfer_success info) with succ.
  change (field K_transfer_destination info) with dest.
  change (field K_call_duration info) with duration.
  change (field K_transcript_content info) with transcript.
  change (field K_data info) with (PDict data).
  change (field K_raw_call info) with (PDict c).
  rewrite Hs, Hd, Hfloat, Htext, Hdoc.
  by rewrite bool_decide_eq_true_2.
Qed.
Lemma key_append_listed {A : Type} (k : pyval) (x : A) (d : list (pyval * list A)) :
  concat (map snd (key_append k x d)) ≡ₚ concat (map snd d) ++ [x].
Proof.
  induction d as [|[k' xs] d IH]; simpl; [done|].
  destruct (py_key_eq k' k); simpl.
  - rewrite <- !app_assoc. apply Permutation_app_head. apply Permutation_app_comm.
  - rewrite IH. by rewrite app_assoc.
Qed.

Lemma key_set_values {A : Type} (P : A -> Prop) (k : pyval) (v : A)
    (d : list (pyval * A)) :
  P v -> Forall (fun kv => P kv.2) d -> Forall (fun kv => P kv.2) (key_set k v d).
Proof.
  intros Hv. induction 1 as [|[k' v'] d Hk Hd IH]; simpl.
  - by repeat constructor.
  - destruct (py_key_eq k' k); by constructor.
Qed.

Lemma key_set_length {A : Type} (k : pyval) (v : A) (d : list (pyval * A)) :
  (length (key_set k v d) <= S (length d))%nat.
Proof.
  induction d as [|[k' v'] d IH]; simpl; [done|].
  destruct (py_key_eq k' k); simpl; lia.
Qed.

Lemma float_eq_refl (f : spec_float) : float_eq f f = true.
Proof.
  destruct f as [s|s| |s m e]; try done; try by destruct s.
  unfold float_eq, SFeqb, SFcompare.
  destruct s; by rewrite Z.compare_refl, ?Pos.compare_cont_refl, ?Pos.compare_refl.
Qed.

Lemma py_key_eq_refl (k : pyval) : is_hashable k = true -> py_key_eq k k = true.
Proof.
  destruct k as [|b|z|f|s|l|l]; simpl; try done.
  - intros _. apply Z.eqb_refl.
  - intros _. apply Z.eqb_refl.
  - intros _. apply float_eq_refl.
  - intros _. by apply bool_decide_eq_true_2.
Qed.

Lemma key_append_buckets (k : pyval) (x : pydict) (d : list (pyval * list pydict)) :
  is_hashable k = true -> truthy k = true -> field K_resolution_type x = k ->
  Forall bucket_ok d -> Forall bucket_ok (key_append k x d).
Proof.
  intros Hh Ht Hx. induction 1 as [|[k' xs] d Hb Hd IH]; simpl.
  - repeat constructor; simpl; try done. rewrite Hx. by apply py_key_eq_refl.
  - destruct (py_key_eq k' k) eqn:E; constructor; try done.
    destruct Hb as (Hh' & Ht' & Hne & Hall). repeat split; simpl in *; try done.
    + by destruct xs.
    + apply Forall_app. split; [done|]. repeat constructor. by rewrite Hx.
Qed.

(** What the loop has done when it has not raised. *)
Lemma load_loop_inv (l : list pyval) (idx : nat) (t t' : tables) :
  load_loop float_of_str idx l t = Returns t' ->
  (forall i call, l !! i = Some call ->
     exists r, file_info_of float_of_str (idx + i) call = Returns r)
  /\ map (field K_raw_call) (listed t')
     ≡ₚ map (field K_raw_call) (listed t) ++ shown l
  /\ (Forall (fun fi => well_formed_info fi = true) (listed t) ->
      Forall (fun fi => well_formed_info fi = true) (listed t'))
  /\ (Forall (fun kv => well_formed_info kv.2 = true) (json_files t) ->
      Forall (fun kv => well_formed_info kv.2 = true) (json_files t'))
  /\ (length (json_files t') <= length (json_files t) + length (shown l))%nat
  /\ (Forall bucket_ok (resolution_types t) -> Forall bucket_ok (resolution_types t')).
Proof.
  revert idx t. induction l as [|call rest IH]; intros idx t.
  - simpl. intros [= <-]. unfold shown. rewrite filter_nil, app_nil_r.
    repeat split; try done. lia.
  - simpl. unfold mbind at 1, exc_bind at 1.
    destruct (file_info_of float_of_str idx call) as [r|] eqn:Hinfo; [|done].
    destruct (file_info_of_inv idx call r Hinfo) as (c & -> & Hr).
    assert (forall t1,
              (match r with
               | None => Returns t
               | Some (call_id, key, file_info) => store call_id key file_info t
               end) = Returns t1 ->
              map (field K_raw_call) (listed t1)
              ≡ₚ map (field K_raw_call) (listed t) ++ shown [PDict c]
              /\ (Forall (fun fi => well_formed_info fi = true) (listed t) ->
                  Forall (fun fi => well_formed_info fi = true) (listed t1))
              /\ (Forall (fun kv => well_formed_info kv.2 = true) (json_files t) ->
                  Forall (fun kv => well_formed_info kv.2 = true) (json_files t1))
              /\ (length (json_files t1)
                  <= length (json_files t) + length (shown [PDict c]))%nat
              /\ (Forall bucket_ok (resolution_types t) ->
                  Forall bucket_ok (resolution_types t1))) as Hstore.
    { intros t1. unfold shown. rewrite filter_cons, filter_nil.
      destruct r as [[[call_id key] file_info]|].
      - destruct Hr as (Hskip & Hwf & Hraw & Hdata & Hidx & Hid & Hkey).
        rewrite decide_True by done.
        unfold store.
        destruct (is_hashable call_id) eqn:Hh1; [|done].
        destruct (is_hashable key) eqn:Hh2; [|done]. simpl.
        intros [= <-]. simpl. unfold listed. simpl.
        split; [|split; [|split; [|split]]].
        + rewrite key_append_listed.
          change (@map) with (@fmap list _). rewrite fmap_app. simpl.
          by rewrite Hraw.
        + intros Hall. rewrite key_append_listed.
          apply Forall_app. split; [done|]. by repeat constructor.
        + intros Hall. by apply (key_set_values (fun fi => well_formed_info fi = true)).
        + pose proof (key_set_length call_id file_info (json_files t)). simpl. lia.
        + intros Hall. apply key_append_buckets; try done.
          unfold well_formed_info in Hwf. rewrite Hkey in Hwf.
          repeat (apply andb_prop in Hwf as [Hwf ?]). done.
      - rewrite decide_False by (by rewrite Hr).
        intros [= <-]. rewrite app_nil_r. repeat split; try done. lia. }
    destruct (match r with
              | None => Returns t
              | Some (call_id, key, file_info) => store call_id key file_info t
              end) as [t1|] eqn:Ht1; [|done].
    simpl. intros Hrest.
    destruct (Hstore t1 eq_refl) as (Hp1 & Hw1 & Hj1 & Hl1 & Hb1).
    destruct (IH (S idx) t1 Hrest) as (Hall & Hp & Hw & Hj & Hl & Hb).
    split; [|split; [|split; [|split; [|split]]]].
    + intros [|i] call Hcall; simpl in Hcall.
      * injection Hcall as <-. rewrite Nat.add_0_r. by exists r.
      * replace (idx + S i)%nat with (S idx + i)%nat by lia. by apply Hall.
    + rewrite Hp, Hp1. rewrite <- app_assoc. apply Permutation_app_head.
      unfold shown. by rewrite (filter_app _ [PDict c] rest).
    + intros H. by apply Hw, Hw1.
    + intros H. by apply Hj, Hj1.
    + change (shown (PDict c :: rest)) with (shown ([PDict c] ++ rest)).
      unfold shown in *. rewrite filter_app, length_app. lia.
    + intros H. by apply Hb, Hb1.
Qed.
End Viewer_facts.

Lemma load_vapi_data_list (float_of_str : pystr -> option spec_float)
    (l : list pyval) :
  load_vapi_data float_of_str (PList l)
  = load_loop float_of_str 0 l (Tables [] []).
Proof. reflexivity. Qed.

(** X23. The viewer lists the successes. When [load_vapi_data] returns, the
    calls behind the [file_info]s of its buckets are exactly the calls of
    the file whose annotation is truthy and is not an error document. Each
    of them is one that the tally of the analyzer counts as a success; a
    call counted as a success is listed unless its annotation is the empty
    object. *)
Theorem viewer_lists_the_successes
    (float_of_str : pystr -> option spec_float) (l : list pyval) (t : tables) :
  load_vapi_data float_of_str (PList l) = Returns t ->
  map (field K_raw_call) (listed t) ≡ₚ shown l
  /\ (forall call, call ∈ shown l ->
        exists c, call = PDict c /\ counts_as_success c = true)
  /\ (forall c, PDict c ∈ l -> counts_as_success c = true ->
        PDict c ∈ shown l \/ dict_get_py K_llm_analysis c = PDict []).
Proof.
  rewrite load_vapi_data_list. intros (_ & Hp & _)%load_loop_inv.
  split; [done|]. split.
  - intros call [Hskip _]%list_elem_of_filter.
    destruct call as [| | | | | |c]; try done. exists c. split; [done|].
    simpl in Hskip. rewrite viewer_skips_tally in Hskip.
    apply orb_false_elim in Hskip as [Hs _]. by apply negb_false_iff in Hs.
  - intros c Hin Hsucc.
    destruct (viewer_skips (dict_get_py K_llm_analysis c)) eqn:Hskip.
    + right. rewrite viewer_skips_tally, Hsucc in Hskip. simpl in Hskip.
      by destruct (dict_get_py K_llm_analysis c) as [| | | | | |[|]].
    + left. by apply list_elem_of_filter.
Qed.

Lemma viewer_lists_the_successes_witness :
  map (field K_raw_call) (listed sample_tables)
  ≡ₚ shown [PDict shown_a; PDict skipped_c; PDict shown_b]
  /\ (forall call, call ∈ shown [PDict shown_a; PDict skipped_c; PDict shown_b] ->
        exists c, call = PDict c /\ counts_as_success c = true)
  /\ (forall c, PDict c ∈ [PDict shown_a; PDict skipped_c; PDict shown_b] ->
        counts_as_success c = true ->
        PDict c ∈ shown [PDict shown_a; PDict skipped_c; PDict shown_b]
        \/ dict_get_py K_llm_analysis c = PDict []).
Proof.
  apply (viewer_lists_the_successes no_float_of_str
           [PDict shown_a; PDict skipped_c; PDict shown_b] sample_tables).
  vm_compute. reflexivity.
Defined.

(** X24. A success for the tally can stop the viewer. A call whose
    annotation is truthy and is not an object (a list, a string, a number)
    is counted as a success by the analyzer; the viewer calls [get] on the
    annotation, and [load_vapi_data] raises instead of returning. *)
Theorem viewer_stops_on_a_non_object
    (float_of_str : pystr -> option spec_float) (l : list pyval) (i : nat)
    (c : pydict) :
  l !! i = Some (PDict c) ->
  truthy (dict_get_py K_llm_analysis c) = true ->
  is_dict (dict_get_py K_llm_analysis c) = false ->
  counts_as_success c = true
  /\ exists msg, load_vapi_data float_of_str (PList l) = Raises msg.
Proof.
  intros Hc Htruthy Hdict. split.
  - unfold counts_as_success. by rewrite Htruthy, Hdict.
  - destruct (load_vapi_data float_of_str (PList l)) as [t|msg] eqn:Hload;
      [|by exists msg].
    exfalso. rewrite load_vapi_data_list in Hload.
    apply load_loop_inv in Hload as (Hall & _).
    destruct (Hall i _ Hc) as [r Hr].
    destruct (file_info_of_inv _ _ _ _ Hr) as (c' & [= <-] & Hinv).
    destruct r as [[[call_id key] file_info]|]; simpl in Hinv.
    + destruct Hinv as (_ & Hwf & _ & Hdata & _).
      unfold well_formed_info in Hwf. rewrite Hdata in Hwf.
      repeat (apply andb_prop in Hwf as [Hwf ?]).
      by destruct (dict_get_py K_llm_analysis c).
    + unfold viewer_skips in Hinv. by rewrite Htruthy, Hdict in Hinv.
Qed.

Lemma viewer_stops_on_a_non_object_witness :
  counts_as_success listed_d = true
  /\ exists msg,
       load_vapi_data no_float_of_str (PList [PDict shown_a; PDict listed_d])
       = Raises msg.
Proof.
  apply (viewer_stops_on_a_non_object no_float_of_str
           [PDict shown_a; PDict listed_d] 1 listed_d).
  - reflexivity.
  - reflexivity.
  - reflexivity.
Defined.

Example viewer_stops_on_a_list :
  load_vapi_data no_float_of_str (PList [PDict shown_a; PDict listed_d])
  = Raises (str "'list' object has no attribute 'get'").
Proof. vm_compute. reflexivity. Qed.

(** X25. What the viewer can rely on. In every [file_info] that
    [load_vapi_data] returns, in either table: the seventeen keys are there,
    in order; the caller type is a non-empty string; the resolution type,
    the assistant and the squad are truthy; the transfer success is [None]
    or a boolean, the transfer destination [None] or a non-empty string,
    the duration [None] or a float, the transcript a string unless it is
    falsy; the annotation is a non-empty object without an ['error'] key.
    The first table has at most as many entries as the buckets hold. *)
Theorem file_infos_are_well_formed
    (float_of_str : pystr -> option spec_float) (l : list pyval) (t : tables) :
  load_vapi_data float_of_str (PList l) = Returns t ->
  Forall (fun file_info => well_formed_info file_info = true) (listed t)
  /\ Forall (fun kv => well_formed_info kv.2 = true) (json_files t)
  /\ (length (json_files t) <= length (listed t))%nat
  /\ length (listed t) = length (shown l).
Proof.
  rewrite load_vapi_data_list. intros (_ & Hp & Hw & Hj & Hl & _)%load_loop_inv.
  assert (length (listed t) = length (shown l)) as Hlen.
  { apply Permutation_length in Hp. by rewrite length_map in Hp. }
  split; [by apply Hw|]. split; [by apply Hj|]. split; [|done].
  simpl in Hl. lia.
Qed.

Lemma file_infos_are_well_formed_witness :
  Forall (fun file_info => well_formed_info file_info = true) (listed sample_tables)
  /\ Forall (fun kv => well_formed_info kv.2 = true) (json_files sample_tables)
  /\ (length (json_files sample_tables) <= length (listed sample_tables))%nat
  /\ length (listed sample_tables)
     = length (shown [PDict shown_a; PDict skipped_c; PDict shown_b]).
Proof.
  apply (file_infos_are_well_formed no_float_of_str
           [PDict shown_a; PDict skipped_c; PDict shown_b] sample_tables).
  vm_compute. reflexivity.
Defined.

(** Two calls with the same identifier: the first table keeps the later
    one only, the buckets keep both. *)
Example same_identifier_twice :
  exists t,
    load_vapi_data no_float_of_str (PList [PDict shown_a; PDict shown_a]) = Returns t
    /\ length (json_files t) = 1%nat /\ length (listed t) = 2%nat
    /\ map (fun kv => field K_index kv.2) (json_files t) = [PInt 1].
Proof. eexists. split; [vm_compute; reflexivity|]. by vm_compute. Qed.

(** X26. The buckets of the second table: each is kept under a key that
    is truthy, is never empty, and holds only [file_info]s whose resolution
    type is its key. *)
Theorem buckets_hold_their_resolution_type
    (float_of_str : pystr -> option spec_float) (l : list pyval) (t : tables) :
  load_vapi_data float_of_str (PList l) = Returns t ->
  Forall bucket_ok (resolution_types t).
Proof.
  rewrite load_vapi_data_list. intros (_ & _ & _ & _ & _ & Hb)%load_loop_inv.
  by apply Hb.
Qed.

Lemma buckets_hold_their_resolution_type_witness :
  Forall bucket_ok (resolution_types sample_tables).
Proof.
  apply (buckets_hold_their_resolution_type no_float_of_str
           [PDict shown_a; PDict skipped_c; PDict shown_b]).
  vm_compute. reflexivity.
Defined.

(** A [file_info] with a well-formed annotation has dimensions. *)
Lemma dimensions_of_shown_document (file_info : pydict) :
  shown_document (field K_data file_info) = true ->
  is_Some (extract_dimensions_from_call (PDict file_info)).
Proof.
  unfold field, dict_get_py, extract_dimensions_from_call, dimensions_body.
  simpl. unfold dict_get_default.
  destruct (dict_get K_data file_info) as [[| | | | | |data]|]; try done.
  simpl. intros H.
  apply andb_prop in H as [H Hcs]. apply andb_prop in H as [Htruthy _].
  rewrite Htruthy. simpl. unfold dict_get_default.
  by destruct (dict_get K_call_summary data) as [[]|].
Qed.

(** X27. From [load_vapi_data] to [extract_dimensions_from_call]: for every
    [file_info] that [load_vapi_data] lists, [extract_dimensions_from_call]
    returns three dimensions, never [None]. *)
Theorem every_listed_call_has_dimensions
    (float_of_str : pystr -> option spec_float) (l : list pyval) (t : tables) :
  load_vapi_data float_of_str (PList l) = Returns t ->
  Forall (fun file_info => is_Some (extract_dimensions_from_call (PDict file_info)))
         (listed t).
Proof.
  rewrite load_vapi_data_list. intros (_ & _ & Hw & _)%load_loop_inv.
  eapply Forall_impl; [by apply Hw|].
  intros file_info Hwf. apply dimensions_of_shown_document.
  unfold well_formed_info in Hwf.
  repeat (apply andb_prop in Hwf as [Hwf ?]). done.
Qed.

Lemma every_listed_call_has_dimensions_witness :
  Forall (fun file_info => is_Some (extract_dimensions_from_call (PDict file_info)))
         (listed sample_tables).
Proof.
  apply (every_listed_call_has_dimensions no_float_of_str
           [PDict shown_a; PDict skipped_c; PDict shown_b]).
  vm_compute. reflexivity.
Defined.

(** The dimensions that are returned need not be strings, nor values that
    can be hashed: an annotation whose primary intent is a list is listed
    by [load_vapi_data], and its third dimension is that list. *)
Example dimensions_need_not_be_hashable :
  exists t file_info,
    load_vapi_data no_float_of_str (PList [PDict intent_list_call]) = Returns t
    /\ listed t = [file_info]
    /\ extract_dimensions_from_call (PDict file_info)
       = Some (UNKNOWN, UNKNOWN, PList [PStr (str "billing")])
    /\ is_hashable (PList [PStr (str "billing")]) = false.
Proof. do 2 eexists. split; [vm_compute; reflexivity|]. by vm_compute. Qed.
